(** * Exit-survey spreadsheet analysis: a shallow embedding

    This development embeds [scripts/analyze_exit_survey.py] and states the
    properties of its specification over the embedding.

    Conventions of the embedding.
    - A Python [str] is a Rocq [string]; a character is its code point, so
      the model covers code points 0..255.  [ord] is the code point as a
      Python [int], that is an unbounded [Z].
    - A Python [int] is a [Z].  A [Dict[int, str]] raw row is a
      [gmap N string]: its keys are results of [col_to_index] on a
      non-empty run of capital letters, which are never negative
      ([col_to_index_nonneg]).
    - Dictionaries whose iteration order the program relies on
      ([questions], [course_scores]) are insertion-ordered association
      lists with the update-in-place discipline of Python's [dict].
    - Exceptions are values of type [exn]; fallible code returns a
      [result]. The XML documents are taken after [ET.fromstring], as
      element trees.
    - A Python [float] is modelled by the rational number it denotes.  The
      two normalisation formulas are exact in binary64 on their valid
      inputs, which is checked against the kernel's IEEE-754 floats
      ([norm_core_binary64], [norm_elective_binary64]); the rounding done by
      [statistics.fmean] is a parameter of the ranking section. *)

From Stdlib Require Import ZArith QArith String Ascii List Lia Lqa Bool.
From Stdlib Require Import PrimFloat FloatOps SpecFloat Uint63.
From stdpp Require Import base option list sorting gmap strings pretty.

Local Close Scope Q_scope.
Local Open Scope string_scope.
Local Open Scope list_scope.
Local Open Scope Z_scope.

(** ** Python strings *)

Module PyStr.

Definition ord (c : ascii) : Z := Z.of_N (N_of_ascii c).

(** [A-Z] of the regular expressions, [\d] restricted to code points
    below 256, and [str.isspace] on the same range. *)
Definition is_upper (c : ascii) : bool := (65 <=? ord c) && (ord c <=? 90).
Definition is_digit (c : ascii) : bool := (48 <=? ord c) && (ord c <=? 57).
Definition isspace (c : ascii) : bool :=
  let n := ord c in
  ((9 <=? n) && (n <=? 13)) || ((28 <=? n) && (n <=? 32))
  || (n =? 133) || (n =? 160).

Fixpoint all_chars (p : ascii -> bool) (s : string) : bool :=
  match s with
  | EmptyString => true
  | String c s' => p c && all_chars p s'
  end.

(** Dropping the characters satisfying [ws] from the left end, from the
    right end, and from both. *)
Fixpoint lstrip_with (ws : ascii -> bool) (s : string) : string :=
  match s with
  | EmptyString => EmptyString
  | String c s' => if ws c then lstrip_with ws s' else s
  end.

Fixpoint rstrip_with (ws : ascii -> bool) (s : string) : string :=
  match s with
  | EmptyString => EmptyString
  | String c s' =>
      match rstrip_with ws s' with
      | EmptyString => if ws c then EmptyString else String c EmptyString
      | r => String c r
      end
  end.

Definition first_char (s : string) : option ascii :=
  match s with
  | EmptyString => None
  | String c _ => Some c
  end.

Fixpoint last_char (s : string) : option ascii :=
  match s with
  | EmptyString => None
  | String c EmptyString => Some c
  | String _ rest => last_char rest
  end.

(** [str.strip()] with no argument. *)
Definition strip (s : string) : string :=
  rstrip_with isspace (lstrip_with isspace s).

(** Python's [<] and [==] on [str]: code points, lexicographically. *)
Fixpoint ltb (s t : string) : bool :=
  match s, t with
  | _, EmptyString => false
  | EmptyString, String _ _ => true
  | String a s', String b t' =>
      if ord a <? ord b then true
      else if ord a =? ord b then ltb s' t' else false
  end.

(** [s.startswith(p)]. *)
Fixpoint startswith (p s : string) : bool :=
  match p, s with
  | EmptyString, _ => true
  | String _ _, EmptyString => false
  | String a p', String b s' => Ascii.eqb a b && startswith p' s'
  end.

(** [p in s] for strings. *)
Fixpoint contains (p s : string) : bool :=
  startswith p s ||
  match s with
  | EmptyString => false
  | String _ s' => contains p s'
  end.

(** The longest prefix of [s] made of characters satisfying [p]: the
    group of [re.match(r"([A-Z]+)", s)] when it is not empty. *)
Fixpoint take_while (p : ascii -> bool) (s : string) : string :=
  match s with
  | EmptyString => EmptyString
  | String c s' => if p c then String c (take_while p s') else EmptyString
  end.

End PyStr.

(** ** Cell Reference Decoder: [col_to_index] *)

Fixpoint col_to_index_loop (total : Z) (col_ref : string) : Z :=
  match col_ref with
  | EmptyString => total
  | String char rest =>
      col_to_index_loop (total * 26 + (PyStr.ord char - 64)) rest
  end.

Definition col_to_index (col_ref : string) : Z :=
  col_to_index_loop 0 col_ref - 1.

(** A column reference: one or more capital letters. *)
Definition col_ref_valid (r : string) : Prop :=
  r <> EmptyString /\ PyStr.all_chars PyStr.is_upper r = true.

(** Reference length first, then lexicographic order. *)
Definition shortlex_lt (s t : string) : Prop :=
  (String.length s < String.length t)%nat
  \/ (String.length s = String.length t /\ PyStr.ltb s t = true).

(** Least and greatest accumulated total over references of length [n]. *)
Fixpoint total_min (n : nat) : Z :=
  match n with O => 0 | S k => 26 * total_min k + 1 end.

(** ** Exceptions and fallible computations *)

Inductive exn : Type :=
| ValueError_structure   (* ValueError("Unexpected worksheet structure...") *)
| ValueError_int         (* ValueError raised by int() on a bad literal *)
| ValueError_max         (* ValueError raised by max() on an empty sequence *)
| IndexError             (* list index out of range *)
| OverflowError.         (* int() of a float infinity *)

Inductive result (A : Type) : Type :=
| Ok (a : A)
| Raise (e : exn).
Arguments Ok {A} a.
Arguments Raise {A} e.

#[global] Instance result_ret : MRet result := fun A a => Ok a.
#[global] Instance result_bind : MBind result := fun A B k r =>
  match r with
  | Ok a => k a
  | Raise e => Raise e
  end.

(** A [for] loop whose body may raise: left to right, stopping at the first
    exception. *)
Fixpoint for_each {S A} (body : S -> A -> result S) (st : S) (xs : list A)
  : result S :=
  match xs with
  | [] => Ok st
  | x :: xs' => st' ← body st x; for_each body st' xs'
  end.

(** ** Python built-ins used by the parser *)

Module Py.

(** The white space [int()] strips from a [str] of code points below
    256: the C-locale spaces, and the two non-ASCII spaces that are
    first rewritten to a blank. *)
Definition int_space (c : ascii) : bool :=
  let n := PyStr.ord c in
  ((9 <=? n) && (n <=? 13)) || (n =? 32) || (n =? 133) || (n =? 160).

(** Default of [sys.get_int_max_str_digits()]. *)
Definition int_max_str_digits : N := 4300.

(** Digits with single underscores between them; returns the value and
    the number of digits read. *)
Fixpoint int_digits (acc : Z) (digits : N) (prev_underscore : bool)
    (s : string) : option (Z * N) :=
  match s with
  | EmptyString => if prev_underscore then None else Some (acc, digits)
  | String c rest =>
      if PyStr.is_digit c then
        int_digits (acc * 10 + (PyStr.ord c - 48)) (digits + 1) false rest
      else if Ascii.eqb c "_" then
        if prev_underscore then None else int_digits acc digits true rest
      else None
  end.

Definition int_unsigned (s : string) : option Z :=
  match s with
  | String c _ =>
      if PyStr.is_digit c then
        match int_digits 0 0 false s with
        | Some (n, digits) =>
            if (digits <=? int_max_str_digits)%N then Some n else None
        | None => None
        end
      else None
  | EmptyString => None
  end.

(** [int(s)] for a [str]; [None] stands for the [ValueError]. *)
Definition int_opt (s : string) : option Z :=
  let t := PyStr.rstrip_with int_space (PyStr.lstrip_with int_space s) in
  match t with
  | String "+" body => int_unsigned body
  | String "-" body => Z.opp <$> int_unsigned body
  | _ => int_unsigned t
  end.

Definition int (s : string) : result Z :=
  match int_opt s with
  | Some n => Ok n
  | None => Raise ValueError_int
  end.

(** [l[i]] on a list: negative indices count from the end. *)
Definition getitem {A} (l : list A) (i : Z) : result A :=
  let n := Z.of_nat (length l) in
  let j := if i <? 0 then i + n else i in
  if (0 <=? j) && (j <? n) then
    match l !! Z.to_nat j with
    | Some x => Ok x
    | None => Raise IndexError
    end
  else Raise IndexError.

(** [max(xs)] on a sequence of non-negative integers. *)
Definition max (xs : list N) : result N :=
  match xs with
  | [] => Raise ValueError_max
  | x :: xs' => Ok (foldl N.max x xs')
  end.

(** [max(xs, default=d)]. *)
Definition max_default (xs : list N) (d : N) : N :=
  match xs with
  | [] => d
  | x :: xs' => foldl N.max x xs'
  end.

(** ["".join(parts)]. *)
Definition join_empty (parts : list string) : string :=
  foldr String.append EmptyString parts.

End Py.

(** ** Element trees, as [xml.etree.ElementTree] builds them *)

#[local] Set Warnings "-register-all".
Inductive element : Type :=
| Element (tag : string) (attrib : gmap string string)
          (text : option string) (children : list element).

Module ET.

Definition tag (e : element) : string :=
  match e with Element t _ _ _ => t end.
Definition attrib (e : element) : gmap string string :=
  match e with Element _ a _ _ => a end.
Definition text (e : element) : option string :=
  match e with Element _ _ x _ => x end.
Definition children (e : element) : list element :=
  match e with Element _ _ _ cs => cs end.

(** [NS["a"]], and the qualified tag that the path step [a:name] selects. *)
Definition NS_a : string :=
  "http://schemas.openxmlformats.org/spreadsheetml/2006/main".
Definition qname (name : string) : string :=
  "{" +:+ NS_a +:+ "}" +:+ name.

Definition has_tag (name : string) (e : element) : bool :=
  String.eqb (tag e) (qname name).

(** [elem.iter()]: the element and its descendants in document order. *)
Fixpoint iter (e : element) : list element :=
  match e with
  | Element _ _ _ cs =>
      e :: (fix iter_all (l : list element) : list element :=
              match l with
              | [] => []
              | c :: l' => iter c ++ iter_all l'
              end) cs
  end.

(** The path step [a:name]: the children with that tag. *)
Definition child_step (name : string) (context : list element)
  : list element :=
  e ← context; List.filter (has_tag name) (children e).

(** The path step [.//a:name]: the proper descendants with that tag. *)
Definition descendant_step (name : string) (context : list element)
  : list element :=
  e ← context; List.filter (has_tag name) (c ← children e; iter c).

(** [elem.findall("a:name", NS)], [elem.findall(".//a:name", NS)] and
    [elem.findall(".//a:outer/a:inner", NS)]. *)
Definition findall_children (name : string) (e : element) : list element :=
  child_step name [e].
Definition findall_descendants (name : string) (e : element)
  : list element :=
  descendant_step name [e].
Definition findall_descendants_children (outer inner : string)
    (e : element) : list element :=
  child_step inner (descendant_step outer [e]).

(** [elem.find("a:name", NS)] and [elem.find("a:outer/a:inner", NS)]:
    the first match, if any. *)
Definition find_child (name : string) (e : element) : option element :=
  head (child_step name [e]).
Definition find_child_child (outer inner : string) (e : element)
  : option element :=
  head (child_step inner (child_step outer [e])).

End ET.

(** ** Shared-String Table Loader *)

(** [shared_root] is [None] when the archive has no "xl/sharedStrings.xml". *)
Definition si_text (si : element) : string :=
  Py.join_empty
    ((fun node => default EmptyString (ET.text node))
       <$> ET.findall_descendants "t" si).

Definition load_shared_strings (shared_root : option element) : list string :=
  match shared_root with
  | None => []
  | Some root => si_text <$> ET.findall_children "si" root
  end.

(** ** Worksheet Row Parser *)

(** The value a cell resolves to, before trimming. *)
Definition cell_value (shared_strings : list string) (cell : element)
  : result string :=
  let cell_type := ET.attrib cell !! "t" in
  if decide (cell_type = Some "inlineStr") then
    match ET.find_child_child "is" "t" cell with
    | Some node => Ok (default EmptyString (ET.text node))
    | None => Ok EmptyString
    end
  else
    match ET.find_child "v" cell with
    | Some (Element _ _ (Some raw) _) =>
        if decide (cell_type = Some "s") then
          i ← Py.int raw; Py.getitem shared_strings i
        else Ok raw
    | _ => Ok EmptyString
    end.

(** The capital letters leading the cell's reference attribute: the group
    of [re.match(r"([A-Z]+)", ref)], empty when there is no match. *)
Definition cell_ref_letters (cell : element) : string :=
  PyStr.take_while PyStr.is_upper (default EmptyString (ET.attrib cell !! "r")).

(** One turn of the loop over the cells of a row. *)
Definition parse_cell (shared_strings : list string)
    (values : gmap N string) (cell : element) : result (gmap N string) :=
  let letters := cell_ref_letters cell in
  if decide (letters = EmptyString) then Ok values
  else
    let col_idx := col_to_index letters in
    value ← cell_value shared_strings cell;
    Ok (<[Z.to_N col_idx := PyStr.strip value]> values).

Definition parse_row (shared_strings : list string) (row : element)
  : result (gmap N string) :=
  for_each (parse_cell shared_strings) ∅ (ET.findall_children "c" row).

Definition sheet_rows (sheet_root : element) : list element :=
  ET.findall_descendants_children "sheetData" "row" sheet_root.

Definition parse_rows (shared_strings : list string) (sheet_root : element)
  : result (list (gmap N string)) :=
  for_each
    (fun rows row => values ← parse_row shared_strings row;
                     Ok (rows ++ [values]))
    [] (sheet_rows sheet_root).

(** ** Table Assembler *)

(** A Python [dict] with [str] keys whose iteration order matters: the
    entries in insertion order; assigning to a key that is present keeps
    its place. *)
Module Dict.

Fixpoint set {V} (k : string) (v : V) (d : list (string * V))
  : list (string * V) :=
  match d with
  | [] => [(k, v)]
  | (k', v') :: d' =>
      if decide (k' = k) then (k', v) :: d' else (k', v') :: set k v d'
  end.

Fixpoint get {V} (k : string) (d : list (string * V)) : option V :=
  match d with
  | [] => None
  | (k', v') :: d' => if decide (k' = k) then Some v' else get k d'
  end.

Definition keys {V} (d : list (string * V)) : list string := d.*1.

End Dict.

(** [max(row.keys(), default=0)]. *)
Definition row_max_key (row : gmap N string) : N :=
  Py.max_default (elements (dom row)) 0.

(** [range(n)]. *)
Definition py_range (n : N) : list N := N.of_nat <$> seq 0 (N.to_nat n).

(** [f"COL_{idx}"]. *)
Definition synthetic_name (idx : N) : string := "COL_" +:+ pretty idx.

(** One turn of the loop that fills [columns] and [questions]. *)
Definition schema_step (header_row question_row : gmap N string)
    (st : list string * list (string * string)) (idx : N)
  : list string * list (string * string) :=
  let col_name := default (synthetic_name idx) (header_row !! idx) in
  (st.1 ++ [col_name],
   Dict.set col_name (default EmptyString (question_row !! idx)) st.2).

Definition build_schema (header_row question_row : gmap N string)
    (max_col : N) : list string * list (string * string) :=
  foldl (schema_step header_row question_row) ([], []) (py_range (max_col + 1)).

(** [{col_name: row.get(idx, "") for idx, col_name in enumerate(columns)}]:
    a later entry for the same name replaces the earlier one. *)
Definition make_record (columns : list string) (row : gmap N string)
  : gmap string string :=
  foldl (fun record '(idx, col_name) =>
           <[col_name := default EmptyString (row !! N.of_nat idx)]> record)
        ∅ (imap pair columns).

(** The part of [parse_xlsx] after the rows are read. *)
Definition assemble_table (rows : list (gmap N string))
  : result (list string * list (gmap string string) * list (string * string)) :=
  if (length rows <? 4)%nat then Raise ValueError_structure
  else
    max_col ← Py.max (row_max_key <$> rows);
    header_row ← Py.getitem rows 0;
    question_row ← Py.getitem rows 1;
    let '(columns, questions) := build_schema header_row question_row max_col in
    let records := make_record columns <$> drop 3 rows in
    Ok (columns, records, questions).

(** [parse_xlsx], from the two documents of the archive once parsed. *)
Definition parse_xlsx (shared_root : option element) (sheet_root : element)
  : result (list string * list (gmap string string) * list (string * string)) :=
  let shared_strings := load_shared_strings shared_root in
  rows ← parse_rows shared_strings sheet_root;
  assemble_table rows.

(** ** Normalization and aggregation *)

(** [s.split(sep)] for a non-empty separator: scanning left to right,
    [skip] counts the separator characters still to be passed over and
    [cur] holds the segment read so far. *)
Fixpoint split_loop (sep : string) (skip : nat) (cur s : string)
  : list string :=
  match s with
  | EmptyString => [cur]
  | String c s' =>
      match skip with
      | S k => split_loop sep k cur s'
      | O =>
          if PyStr.startswith sep s
          then cur :: split_loop sep (String.length sep - 1) EmptyString s'
          else split_loop sep O (cur +:+ String c EmptyString) s'
      end
  end.

Definition split (sep s : string) : list string :=
  split_loop sep 0 EmptyString s.

Definition parse_course_name (question_text : string) : string :=
  if PyStr.contains " - " question_text then
    PyStr.strip (List.last (split " - " question_text) EmptyString)
  else
    let t := PyStr.strip question_text in
    if decide (t = EmptyString) then "Unknown Course" else t.

(** [re.fullmatch(r"\d+(\.0+)?", value)]: the digits of the integer part
    when the whole of [value] matches. *)
Definition all_zeros (s : string) : bool :=
  PyStr.all_chars (fun c => Ascii.eqb c "0") s.

Fixpoint fullmatch_numeric (value : string) : option string :=
  match value with
  | EmptyString => None
  | String c rest =>
      if PyStr.is_digit c then
        match rest with
        | EmptyString => Some (String c EmptyString)
        | String "." zeros =>
            if decide (zeros = EmptyString) then None
            else if all_zeros zeros then Some (String c EmptyString) else None
        | _ => String c <$> fullmatch_numeric rest
        end
      else None
  end.

Fixpoint digits_value (acc : Z) (ds : string) : Z :=
  match ds with
  | EmptyString => acc
  | String c rest => digits_value (acc * 10 + (PyStr.ord c - 48)) rest
  end.

(** [float(n)] for a non-negative integer literal, as the integer the
    binary64 result denotes: the nearest value with 53 significant bits,
    ties to even; [None] is the infinity that results from 2^1024 on. *)
Definition round_binary64 (n : Z) : option Z :=
  if n <? 2 ^ 53 then Some n
  else
    let shift := Z.log2 n - 52 in
    let q := Z.shiftr n shift in
    let r := n - Z.shiftl q shift in
    let half := Z.shiftl 1 (shift - 1) in
    let q' := if (half <? r) || ((r =? half) && Z.odd q) then q + 1 else q in
    let v := Z.shiftl q' shift in
    if v <? 2 ^ 1024 then Some v else None.

(** [clean_numeric]: [int(float(value))] raises [OverflowError] on the
    infinity. *)
Definition clean_numeric (value : string) : result (option Z) :=
  let value := PyStr.strip value in
  if decide (value = EmptyString) then Ok None
  else
    match fullmatch_numeric value with
    | Some ds =>
        match round_binary64 (digits_value 0 ds) with
        | Some n => Ok (Some n)
        | None => Raise OverflowError
        end
    | None => Ok None
    end.

(** [((9 - rank) / 8.0) * 100.0] and [((rating - 1) / 4.0) * 100.0], as
    the rationals the results denote. *)
Definition norm_core (rank : Z) : Q :=
  (inject_Z (9 - rank) / 8 * 100)%Q.
Definition norm_elective (rating : Z) : Q :=
  (inject_Z (rating - 1) / 4 * 100)%Q.

(** The same two formulas over the kernel's binary64 floats. *)
Definition norm_core_float (rank : Z) : float :=
  (PrimFloat.of_uint63 (Uint63.of_Z (9 - rank)) / 8 * 100)%float.
Definition norm_elective_float (rating : Z) : float :=
  (PrimFloat.of_uint63 (Uint63.of_Z (rating - 1)) / 4 * 100)%float.

(** The rational a finite binary64 float denotes. *)
Definition float_value (f : float) : option Q :=
  match Prim2SF f with
  | S754_zero _ => Some 0%Q
  | S754_finite sign m e =>
      let mag := (inject_Z (Z.pos m) * Qpower 2 e)%Q in
      Some (if sign then Qopp mag else mag)
  | _ => None
  end.

(** ["core_rank"] and ["elective_rating"]. *)
Inductive source : Type := Core | Elective.

(** A row of [long_rows]; [response_value] and [normalized_score] are kept
    as the numbers that the program then formats as text. *)
Record long_row : Type := LongRow {
  response_id : string;
  long_course : string;
  source_type : source;
  response_value : Z;
  normalized_score : Q
}.

(** The state of the loop over the records: [course_scores], in insertion
    order, each course with its "core" and "elective" lists; and
    [long_rows]. *)
Record agg_state : Type := AggState {
  course_scores : list (string * (list Q * list Q));
  long_rows : list long_row
}.

(** [course_scores[course][kind].append(x)] on the [defaultdict]. *)
Definition append_score (kind : source) (course : string) (x : Q)
    (scores : list (string * (list Q * list Q)))
  : list (string * (list Q * list Q)) :=
  let '(core, elective) := default ([], []) (Dict.get course scores) in
  Dict.set course
    (match kind with
     | Core => (core ++ [x], elective)
     | Elective => (core, elective ++ [x])
     end) scores.

Definition record_score (kind : source) (respondent_id course : string)
    (value : Z) (x : Q) (st : agg_state) : agg_state :=
  {| course_scores := append_score kind course x (course_scores st);
     long_rows := long_rows st ++ [LongRow respondent_id course kind value x] |}.

Definition elective_fields : list string :=
  ["Q76_1"; "Q77_2"; "Q78_3"; "Q83_4"; "Q82_5"; "Q80_6"; "Q81_9"; "Q79_7"].

Definition core_fields (questions : list (string * string)) : list string :=
  List.filter (PyStr.startswith "Q35_") (Dict.keys questions).

Definition is_finished (row : gmap string string) : bool :=
  let v := PyStr.strip (default EmptyString (row !! "Finished")) in
  bool_decide (v ∈ ["1"; "true"; "TRUE"; "True"]).

(** One turn of the loop over the core fields, and over the elective
    fields, of a finished record. *)
Definition score_field (kind : source) (questions : list (string * string))
    (row : gmap string string) (respondent_id : string)
    (st : agg_state) (field : string) : result agg_state :=
  let raw := default EmptyString (row !! field) in
  value ← clean_numeric raw;
  let hi := match kind with Core => 8 | Elective => 5 end in
  match value with
  | None => Ok st
  | Some v =>
      if (v <? 1) || (hi <? v) then Ok st
      else
        let course :=
          parse_course_name (default EmptyString (Dict.get field questions)) in
        let norm_score :=
          match kind with Core => norm_core v | Elective => norm_elective v end in
        Ok (record_score kind respondent_id course v norm_score st)
  end.

Definition process_record (questions : list (string * string))
    (st : agg_state) (row : gmap string string) : result agg_state :=
  if negb (is_finished row) then Ok st
  else
    let respondent_id := default EmptyString (row !! "ResponseId") in
    st ← for_each (score_field Core questions row respondent_id) st
           (core_fields questions);
    for_each (score_field Elective questions row respondent_id) st
      elective_fields.

Definition aggregate (questions : list (string * string))
    (rows : list (gmap string string)) : result agg_state :=
  for_each (process_record questions) (AggState [] []) rows.

(** ** Ranking *)

Record ranking_row : Type := RankingRow {
  course : string;
  overall_score : Q;
  num_responses : Z;
  core_pref_score : option Q;
  core_n : Z;
  elective_rating_score : option Q;
  elective_n : Z
}.

Definition Qsum (xs : list Q) : Q := foldr Qplus 0%Q xs.

Definition Qltb (x y : Q) : bool := negb (Qle_bool y x).

(** The sort key [(-overall_score, -num_responses, course)] and Python's
    [<] on such tuples. *)
Definition key_lt (a b : ranking_row) : bool :=
  let ka := Qopp (overall_score a) in
  let kb := Qopp (overall_score b) in
  if negb (Qeq_bool ka kb) then Qltb ka kb
  else if negb (- num_responses a =? - num_responses b)
       then - num_responses a <? - num_responses b
  else PyStr.ltb (course a) (course b).

(** [list.sort]: a stable sort; an element moves left only past elements
    whose key is strictly greater. *)
Fixpoint sort_insert (x : ranking_row) (l : list ranking_row)
  : list ranking_row :=
  match l with
  | [] => [x]
  | y :: l' => if key_lt y x then y :: sort_insert x l' else x :: y :: l'
  end.

Definition py_sort (l : list ranking_row) : list ranking_row :=
  foldr sort_insert [] l.

Section Ranking.

(** Rounding of a rational to the nearest binary64 value. *)
Variable float_round : Q -> Q.

(** [statistics.fmean(data)] on a non-empty list: [fsum(data) / n]. *)
Definition fmean (data : list Q) : Q :=
  float_round
    (float_round (Qsum data) / float_round (inject_Z (Z.of_nat (length data))))%Q.

Definition fmean_or_none (data : list Q) : option Q :=
  match data with
  | [] => None
  | _ => Some (fmean data)
  end.

(** The loop over [course_scores.items()]. *)
Definition ranking_rows_of (scores : list (string * (list Q * list Q)))
  : list ranking_row :=
  '(name, (core_vals, elec_vals)) ← scores;
  let all_vals := core_vals ++ elec_vals in
  match all_vals with
  | [] => []
  | _ =>
      [ {| course := name;
           overall_score := fmean all_vals;
           num_responses := Z.of_nat (length all_vals);
           core_pref_score := fmean_or_none core_vals;
           core_n := Z.of_nat (length core_vals);
           elective_rating_score := fmean_or_none elec_vals;
           elective_n := Z.of_nat (length elec_vals) |} ]
  end.

(** The sorted rows with [row["rank"] = idx] for [idx] from 1. *)
Definition ranking (scores : list (string * (list Q * list Q)))
  : list (Z * ranking_row) :=
  imap (fun i row => (Z.of_nat i + 1, row)) (py_sort (ranking_rows_of scores)).

End Ranking.

(** ** Sample documents *)

Module Sample.

Definition elem (name : string) (attrs : gmap string string)
    (text : option string) (children : list element) : element :=
  Element (ET.qname name) attrs text children.

(** [<c r=ref t=type><v>raw</v></c>] and an inline-string cell. *)
Definition cell (ref : string) (type : option string) (raw : string)
  : element :=
  elem "c"
    (match type with
     | Some t => {[ "r" := ref; "t" := t ]}
     | None => {[ "r" := ref ]}
     end)
    None [elem "v" ∅ (Some raw) []].

Definition inline_cell (ref txt : string) : element :=
  elem "c" {[ "r" := ref; "t" := "inlineStr" ]} None
    [elem "is" ∅ None [elem "t" ∅ (Some txt) []]].

Definition row (cells : list element) : element := elem "row" ∅ None cells.

Definition worksheet (rows : list element) : element :=
  elem "worksheet" ∅ None [elem "sheetData" ∅ None rows].

(** A shared-strings table; each item is given by its text runs. *)
Definition sst (items : list (list string)) : element :=
  elem "sst" ∅ None
    ((fun runs =>
        elem "si" ∅ None
          ((fun run => elem "r" ∅ None [elem "t" ∅ (Some run) []]) <$> runs))
       <$> items).

(** Header, question, separator and two data rows. *)
Definition pool_doc : element :=
  sst [["Finished"]; ["Q35_1"]; ["Rank the courses - "; "Tax Law"]; [" 1 "]].

Definition survey_sheet : element :=
  worksheet
    [ row [cell "A1" (Some "s") "0"; cell "B1" (Some "s") "1"];
      row [inline_cell "A2" "Finished"; cell "B2" (Some "s") "2"];
      row [];
      row [cell "A4" (Some "s") "3"; cell "B4" None " 8 "; cell "4" None "x"];
      row [cell "A5" None "1"; cell "B5" None "1"] ].

(** Raw rows: two header cells with the same name; and a five-row table
    whose header lacks column 1. *)
Definition duplicate_header_rows : list (gmap N string) :=
  [ {[ 0%N := "X"; 1%N := "X" ]}; {[ 0%N := "q0"; 1%N := "q1" ]}; ∅;
    {[ 0%N := "a"; 1%N := "b" ]} ].

Definition five_rows : list (gmap N string) :=
  [ {[ 0%N := "Finished"; 2%N := "Q35_1" ]};
    {[ 0%N := "Finished"; 2%N := "Rank - Tax Law" ]};
    {[ 0%N := "separator" ]};
    {[ 0%N := "1"; 2%N := "8" ]};
    {[ 2%N := "1" ]} ].

(** A one-question survey, a finished record ranking the course last, and
    a finished record whose rank is the digit 1 followed by 309 zeros. *)
Definition rank_questions : list (string * string) :=
  [("Finished", "Finished"); ("Q35_1", "Rank the courses - Tax Law")].

Definition rank_8_record : gmap string string :=
  {[ "Finished" := "1"; "Q35_1" := "8" ]}.

Definition huge_number : string :=
  String "1" (string_of_list_ascii (repeat "0"%char 309)).

Definition huge_rank_record : gmap string string :=
  {[ "Finished" := "1"; "Q35_1" := huge_number ]}.

(** Two questions on one course and one on another, and three records,
    one of them unfinished. *)
Definition survey_questions : list (string * string) :=
  [ ("Finished", "Finished");
    ("Q35_1", "Rank the courses - Tax Law");
    ("Q35_2", "Rank the courses - Audit");
    ("Q76_1", "Rate the elective - Tax Law") ].

Definition survey_records : list (gmap string string) :=
  [ {[ "Finished" := "1"; "Q35_1" := "1"; "Q35_2" := "2"; "Q76_1" := "9" ]};
    {[ "Finished" := "0"; "Q35_1" := "8"; "Q35_2" := "1"; "Q76_1" := "1" ]};
    {[ "Finished" := "True"; "Q35_1" := "x"; "Q35_2" := "2.0"; "Q76_1" := "5" ]} ].

(** Raw rows whose header repeats the name of a core field; and four raw
    rows whose separator alone reaches column 2. *)
Definition repeated_core_rows : list (gmap N string) :=
  [ {[ 0%N := "Q35_1"; 1%N := "Id"; 2%N := "Q35_1" ]};
    {[ 0%N := "a"; 2%N := "b" ]}; ∅; ∅ ].

Definition wide_separator_rows (mark : string) : list (gmap N string) :=
  [ {[ 0%N := "A" ]}; ∅; {[ 2%N := mark ]}; ∅ ].

(** A four-row worksheet whose first cell is a shared-string cell with
    value text [raw]; and shared-string cells without a value node and
    with a value node that has no text. *)
Definition index_cell (raw : string) : element := cell "A1" (Some "s") raw.
Definition index_sheet (raw : string) : element :=
  worksheet [row [index_cell raw]; row []; row []; row []].

Definition valueless_cells : list element :=
  [ elem "c" {[ "r" := "A1"; "t" := "s" ]} None [];
    elem "c" {[ "r" := "B1"; "t" := "s" ]} None [elem "v" ∅ None []] ].
Definition valueless_sheet : element :=
  worksheet [row valueless_cells; row []; row []; row []].

End Sample.

(** ** Vocabulary of the statements *)

(** The worksheet layout of the format: the only [sheetData] elements are
    children of the root. *)
Definition sheet_data_at_top (sheet_root : element) : Prop :=
  forall c d,
    c ∈ ET.children sheet_root -> d ∈ (x ← ET.children c; ET.iter x) ->
    ET.has_tag "sheetData" d = false.

(** White space, as [str.strip] and [str.isspace] know it on code points
    below 256. *)
Definition white_space (c : ascii) : Prop :=
  let n := Z.of_N (N_of_ascii c) in
  9 <= n <= 13 \/ 28 <= n <= 32 \/ n = 133 \/ n = 160.

(** [name] is [s] trimmed: [s] without a run of white space at each end,
    and with no white space left at either end. *)
Definition trimmed_from (s name : string) : Prop :=
  (exists l r, s = l +:+ name +:+ r
     /\ Forall white_space (list_ascii_of_string l)
     /\ Forall white_space (list_ascii_of_string r))
  /\ (forall c rest, name = String c rest -> ~ white_space c)
  /\ (forall init c, name = init +:+ String c EmptyString -> ~ white_space c).

(** The distinct elements of [l], each at the place of its first
    occurrence. *)
Definition first_occurrences (l : list string) : list string :=
  reverse (remove_dups (reverse l)).

(** The number of scores held in [course_scores]. *)
Definition score_count (scores : list (string * (list Q * list Q))) : nat :=
  sum_list_with (fun entry => (length entry.2.1 + length entry.2.2)%nat) scores.

(** What a row of [long_rows] must look like: a value in the range of its
    source, the score of the source's formula, and that score within the
    bounds of the scale. *)
Definition long_row_valid (lr : long_row) : Prop :=
  match source_type lr with
  | Core =>
      1 <= response_value lr <= 8
      /\ normalized_score lr = norm_core (response_value lr)
      /\ (25 # 2 <= normalized_score lr <= 100)%Q
  | Elective =>
      1 <= response_value lr <= 5
      /\ normalized_score lr = norm_elective (response_value lr)
      /\ (0 <= normalized_score lr <= 100)%Q
  end.

(** [i] is the last position of [name] in [l]. *)
Definition last_index (l : list string) (name : string) (i : nat) : Prop :=
  l !! i = Some name /\ forall j, (i < j)%nat -> l !! j <> Some name.

(** [m] is the greatest column index present in some row, or 0 when no
    row has a cell. *)
Definition observed_max (rows : list (gmap N string)) (m : N) : Prop :=
  (forall row k, row ∈ rows -> is_Some (row !! k) -> (k <= m)%N)
  /\ (m = 0%N \/ exists row, row ∈ rows /\ is_Some (row !! m)).

(** The schema after the first [n] turns of its loop. *)
Definition build_schema_upto (header_row question_row : gmap N string)
    (n : N) : list string * list (string * string) :=
  foldl (schema_step header_row question_row) ([], []) (py_range n).

(** The reading of the Table Assembler's contract in which the question
    mapping and the records are indexed position by position. *)
Definition assembler_positional (rows : list (gmap N string)) : Prop :=
  exists header_row question_row max_col columns records questions,
    rows !! 0%nat = Some header_row /\ rows !! 1%nat = Some question_row
    /\ observed_max rows max_col
    /\ assemble_table rows = Ok (columns, records, questions)
    /\ length columns = (N.to_nat max_col + 1)%nat
    /\ (forall i, (i < length columns)%nat ->
          columns !! i
          = Some (default (synthetic_name (N.of_nat i))
                          (header_row !! N.of_nat i)))
    /\ (forall i name, columns !! i = Some name ->
          Dict.get name questions
          = Some (default EmptyString (question_row !! N.of_nat i)))
    /\ length records = (length rows - 3)%nat
    /\ (forall j record, records !! j = Some record ->
          exists row, rows !! (3 + j)%nat = Some row
            /\ forall i name, columns !! i = Some name ->
                 record !! name
                 = Some (default EmptyString (row !! N.of_nat i))).

(** The scores pooled for a course: those of its long rows. *)
#[global] Instance source_eq_dec : EqDecision source.
Proof. solve_decision. Defined.

Definition contributions (kind : source) (name : string)
    (rows : list long_row) : list Q :=
  normalized_score
    <$> filter (fun lr => long_course lr = name /\ source_type lr = kind) rows.

Definition pooled_scores (name : string) (rows : list long_row) : list Q :=
  contributions Core name rows ++ contributions Elective name rows.

(** The order of the sort key, spelled out: a higher score first, then a
    higher response count, then the earlier name. *)
Definition ranks_before (a b : ranking_row) : Prop :=
  (overall_score b < overall_score a)%Q
  \/ ((overall_score a == overall_score b)%Q
      /\ (num_responses b < num_responses a
          \/ (num_responses a = num_responses b
              /\ PyStr.ltb (course a) (course b) = true))).

(** [a] is not ranked after [b] by the sort key. *)
Definition key_le (a b : ranking_row) : Prop := key_lt b a = false.

(** The state invariant: [course_scores] holds, for each course with a
    long row, the scores of its long rows by source, in order. *)
Definition agg_inv (st : agg_state) : Prop :=
  NoDup (Dict.keys (course_scores st))
  /\ forall name,
       Dict.get name (course_scores st)
       = match pooled_scores name (long_rows st) with
         | [] => None
         | _ => Some (contributions Core name (long_rows st),
                      contributions Elective name (long_rows st))
         end.

(** * Properties *)

(** ** The cell reference decoder *)

Section ColToIndex.

Lemma is_upper_digit c :
  PyStr.is_upper c = true -> 1 <= PyStr.ord c - 64 <= 26.
Proof. unfold PyStr.is_upper. lia. Qed.

Lemma total_min_mono n m : (n <= m)%nat -> total_min n <= total_min m.
Proof.
  induction 1 as [|m _ IH]; [lia|].
  assert (0 <= total_min n) by (clear; induction n; simpl; lia).
  simpl. lia.
Qed.

Lemma total_min_pow n : 26 ^ Z.of_nat n = 25 * total_min n + 1.
Proof.
  induction n as [|n IH]; [reflexivity|].
  rewrite Nat2Z.inj_succ, Z.pow_succ_r, IH by lia. simpl total_min. lia.
Qed.

(** The loop from accumulator [acc] over [n] capital letters lands in the
    window [26^n * acc + total_min n .. 26^n * acc + 26 * total_min n]. *)
Lemma loop_bounds s : forall acc,
  PyStr.all_chars PyStr.is_upper s = true ->
  let n := String.length s in
  26 ^ Z.of_nat n * acc + total_min n <= col_to_index_loop acc s
  /\ col_to_index_loop acc s <= 26 ^ Z.of_nat n * acc + 26 * total_min n.
Proof.
  induction s as [|c s IH]; intros acc Hup; cbn zeta.
  - simpl. lia.
  - cbn [PyStr.all_chars] in Hup. apply andb_prop in Hup as [Hc Hs].
    apply is_upper_digit in Hc.
    specialize (IH (acc * 26 + (PyStr.ord c - 64)) Hs). cbn zeta in IH.
    cbn [String.length col_to_index_loop total_min].
    rewrite Nat2Z.inj_succ, Z.pow_succ_r by lia.
    rewrite total_min_pow in *.
    set (m := total_min (String.length s)) in *.
    assert (0 <= m) by (subst m; apply (total_min_mono 0); lia).
    nia.
Qed.

(** Equal lengths: a smaller accumulator stays smaller... *)
Lemma loop_lt_acc s : forall t a b,
  String.length s = String.length t ->
  PyStr.all_chars PyStr.is_upper s = true ->
  PyStr.all_chars PyStr.is_upper t = true ->
  a < b -> col_to_index_loop a s < col_to_index_loop b t.
Proof.
  induction s as [|c s IH]; intros [|d t] a b Hlen Hs Ht Hab;
    try discriminate; [assumption|].
  cbn [PyStr.all_chars] in Hs, Ht.
  apply andb_prop in Hs as [Hc Hs]. apply andb_prop in Ht as [Hd Ht].
  apply is_upper_digit in Hc, Hd.
  cbn [col_to_index_loop]. apply IH; [by injection Hlen | done | done | lia].
Qed.

(** ... and from equal accumulators the lexicographic order decides. *)
Lemma loop_lt_lex s : forall t a,
  String.length s = String.length t ->
  PyStr.all_chars PyStr.is_upper s = true ->
  PyStr.all_chars PyStr.is_upper t = true ->
  PyStr.ltb s t = true -> col_to_index_loop a s < col_to_index_loop a t.
Proof.
  induction s as [|c s IH]; intros [|d t] a Hlen Hs Ht Hlt;
    try discriminate.
  cbn [PyStr.all_chars] in Hs, Ht.
  apply andb_prop in Hs as [Hc Hs]. apply andb_prop in Ht as [Hd Ht].
  cbn [PyStr.ltb] in Hlt. cbn [col_to_index_loop].
  injection Hlen as Hlen.
  destruct (PyStr.ord c <? PyStr.ord d) eqn:Hcd.
  - apply loop_lt_acc; [done..|lia].
  - destruct (PyStr.ord c =? PyStr.ord d) eqn:Heq; [|discriminate].
    apply Z.eqb_eq in Heq. rewrite Heq. by apply IH.
Qed.

Lemma col_to_index_shortlex s t :
  PyStr.all_chars PyStr.is_upper s = true ->
  PyStr.all_chars PyStr.is_upper t = true ->
  shortlex_lt s t -> col_to_index s < col_to_index t.
Proof.
  intros Hs Ht [Hlen|[Hlen Hlt]]; unfold col_to_index.
  - pose proof (loop_bounds s 0 Hs) as [_ Hhi].
    pose proof (loop_bounds t 0 Ht) as [Hlo _]. cbn zeta in *.
    pose proof (total_min_mono (S (String.length s)) (String.length t) Hlen).
    simpl total_min in *. lia.
  - pose proof (loop_lt_lex s t 0 Hlen Hs Ht Hlt). lia.
Qed.

Lemma col_to_index_nonneg r : col_ref_valid r -> 0 <= col_to_index r.
Proof.
  intros [Hne Hup]. unfold col_to_index.
  pose proof (loop_bounds r 0 Hup) as [Hlo _]. cbn zeta in Hlo.
  destruct r as [|c r]; [done|].
  pose proof (total_min_mono 1 (String.length (String c r))) as Hm.
  simpl in Hm |- *. simpl in Hlo. lia.
Qed.

End ColToIndex.

(** C4: the decoder, a left-to-right accumulation
    [total = total*26 + (ord(char) - 64)] followed by [- 1], sends "A" to
    0, "Z" to 25 and "AA" to 26; on references of one or more capital
    letters it is zero-based (never negative, with "A" at 0) and strictly
    increasing in the order "shorter first, then lexicographic", in which
    "Z" comes before "AA". *)
Theorem col_to_index_spec :
  (forall total char rest,
      col_to_index_loop total (String char rest)
      = col_to_index_loop (total * 26 + (PyStr.ord char - PyStr.ord "A" + 1)) rest)
  /\ (forall r, col_to_index r = col_to_index_loop 0 r - 1)
  /\ col_to_index "A" = 0 /\ col_to_index "Z" = 25 /\ col_to_index "AA" = 26
  /\ shortlex_lt "Z" "AA"
  /\ (forall r, col_ref_valid r -> 0 <= col_to_index r)
  /\ (forall s t, col_ref_valid s -> col_ref_valid t ->
        shortlex_lt s t -> col_to_index s < col_to_index t).
Proof.
  split; [|split; [|repeat split]]; try reflexivity.
  - intros. cbn [col_to_index_loop]. f_equal. change (PyStr.ord "A") with 65. lia.
  - left. simpl. lia.
  - apply col_to_index_nonneg.
  - intros s t [_ Hs] [_ Ht]. by apply col_to_index_shortlex.
Qed.


(** ** Course names *)

Section CourseName.

Lemma append_cons c s t : String c s +:+ t = String c (s +:+ t).
Proof. reflexivity. Qed.

Lemma append_nil_l s : EmptyString +:+ s = s.
Proof. reflexivity. Qed.

Lemma append_nil_r s : s +:+ EmptyString = s.
Proof. induction s as [|c s IH]; [done|by rewrite append_cons, IH]. Qed.

Lemma append_assoc s t u : (s +:+ t) +:+ u = s +:+ (t +:+ u).
Proof. induction s as [|c s IH]; [done|by rewrite !append_cons, IH]. Qed.

Lemma length_append s t :
  String.length (s +:+ t) = (String.length s + String.length t)%nat.
Proof.
  induction s as [|c s IH]; [done|].
  rewrite append_cons. simpl. by rewrite IH.
Qed.

Lemma startswith_app p : forall s,
  PyStr.startswith p s = true -> exists rest, s = p +:+ rest.
Proof.
  induction p as [|a p IH]; intros s H; [by exists s|].
  destruct s as [|b s]; [discriminate|]. simpl in H.
  apply andb_prop in H as [Hab Hs]. apply Ascii.eqb_eq in Hab as ->.
  destruct (IH _ Hs) as [rest ->]. by exists rest.
Qed.

Lemma split_loop_cons sep c s cur :
  split_loop sep 0 cur (String c s)
  = if PyStr.startswith sep (String c s)
    then cur :: split_loop sep (String.length sep - 1) EmptyString s
    else split_loop sep 0 (cur +:+ String c EmptyString) s.
Proof. reflexivity. Qed.

Lemma contains_cons sep c s :
  PyStr.contains sep (String c s)
  = PyStr.startswith sep (String c s) || PyStr.contains sep s.
Proof. by destruct sep. Qed.

Lemma split_loop_not_nil sep k cur s : split_loop sep k cur s <> [].
Proof.
  revert k cur. induction s as [|c s IH]; intros k cur; [done|].
  destruct k as [|k]; [|apply IH].
  rewrite split_loop_cons. destruct (PyStr.startswith _ _); [done|apply IH].
Qed.

(** Passing over the rest of a separator. *)
Lemma split_loop_skip sep a : forall cur rest,
  split_loop sep (String.length a) cur (a +:+ rest) = split_loop sep 0 cur rest.
Proof.
  induction a as [|c a IH]; intros cur rest.
  - by destruct rest.
  - rewrite append_cons. cbn [String.length split_loop]. apply IH.
Qed.

(** Without an occurrence of the separator there is one segment. *)
Lemma split_loop_absent sep s : forall cur,
  sep <> EmptyString -> PyStr.contains sep s = false ->
  split_loop sep 0 cur s = [cur +:+ s].
Proof.
  intros cur Hsep. revert cur.
  induction s as [|c s IH]; intros cur H.
  - by rewrite append_nil_r.
  - rewrite contains_cons in H. apply orb_false_elim in H as [Hst Hc].
    rewrite split_loop_cons, Hst, IH by done.
    by rewrite append_assoc.
Qed.

(** The last segment follows an occurrence of the separator and holds no
    further one. *)
Lemma split_loop_last sep (Hsep : sep <> EmptyString) : forall n s cur,
  (String.length s <= n)%nat ->
  PyStr.contains sep s = true ->
  exists pre seg,
    s = pre +:+ sep +:+ seg /\ PyStr.contains sep seg = false
    /\ List.last (split_loop sep 0 cur s) EmptyString = seg.
Proof.
  induction n as [|n IH]; intros s cur Hlen Hc.
  - destruct s; [|simpl in Hlen; lia].
    destruct sep; [done|discriminate].
  - destruct s as [|c s]; [destruct sep; [done|discriminate]|].
    rewrite split_loop_cons. rewrite contains_cons in Hc.
    destruct (PyStr.startswith sep (String c s)) eqn:Hst.
    + destruct (startswith_app _ _ Hst) as [rest Hrest].
      destruct sep as [|a sep']; [done|].
      rewrite append_cons in Hrest. injection Hrest as -> ->.
      cbn [String.length]. rewrite Nat.sub_succ, Nat.sub_0_r, split_loop_skip.
      destruct (PyStr.contains (String a sep') rest) eqn:Hrc.
      * destruct (IH rest EmptyString) as (pre & seg & -> & Hseg & Hlast); [|done|].
        { simpl in Hlen. rewrite length_append in Hlen. lia. }
        exists (String a sep' +:+ pre), seg. split; [|split; [done|]].
        -- by rewrite !append_assoc.
        -- destruct (split_loop (String a sep') 0 EmptyString
                       (pre +:+ String a sep' +:+ seg)) eqn:E; [|done].
           by apply split_loop_not_nil in E.
      * exists EmptyString, rest. split; [done|split; [done|]].
        by rewrite split_loop_absent.
    + simpl in Hc.
      destruct (IH s (cur +:+ String c EmptyString)) as (pre & seg & -> & Hseg & Hlast);
        [simpl in Hlen; lia|done|].
      by exists (String c pre), seg.
Qed.

Lemma startswith_app_r p s r :
  PyStr.startswith p s = true -> PyStr.startswith p (s +:+ r) = true.
Proof.
  revert s. induction p as [|a p IH]; intros s H; [done|].
  destruct s as [|b s]; [done|]. rewrite append_cons. simpl in *.
  apply andb_prop in H as [-> H]. by rewrite IH.
Qed.

Lemma contains_app_r p s r :
  PyStr.contains p s = true -> PyStr.contains p (s +:+ r) = true.
Proof.
  induction s as [|b s IH]; intros H.
  - destruct p; [by destruct r|done].
  - rewrite append_cons, contains_cons. rewrite contains_cons in H.
    apply orb_prop in H as [H|H].
    + rewrite <- append_cons, startswith_app_r by done. done.
    + rewrite IH by done. apply orb_true_r.
Qed.

Lemma contains_app_l p l s :
  PyStr.contains p s = true -> PyStr.contains p (l +:+ s) = true.
Proof.
  intros H. induction l as [|a l IH]; [done|].
  rewrite append_cons, contains_cons, IH. apply orb_true_r.
Qed.

(** [sep in s] holds exactly when [s] has an occurrence of [sep]. *)
Lemma contains_iff sep s :
  sep <> EmptyString ->
  PyStr.contains sep s = true <-> exists pre post, s = pre +:+ sep +:+ post.
Proof.
  intros Hsep. split.
  - intros H.
    destruct (split_loop_last sep Hsep _ s EmptyString (Nat.le_refl _) H)
      as (pre & seg & Hs & _).
    by exists pre, seg.
  - intros (pre & post & ->). apply contains_app_l, contains_app_r.
    destruct sep as [|a sep]; [done|]. rewrite contains_cons.
    apply orb_true_intro. left.
    clear. generalize (String a sep). intros p.
    induction p as [|b p IH]; [done|]. simpl. by rewrite Ascii.eqb_refl.
Qed.

End CourseName.

(** ** Loops that may raise *)

Section ForEach.

Context {S A : Type} (body : S -> A -> result S).

Lemma for_each_app xs ys st :
  for_each body st (xs ++ ys) = st' ← for_each body st xs; for_each body st' ys.
Proof.
  revert st. induction xs as [|x xs IH]; intros st; [done|].
  simpl. destruct (body st x) as [st'|e]; [apply IH|done].
Qed.

(** An element on which the body raises from every state aborts the loop. *)
Lemma for_each_raises x xs :
  x ∈ xs -> (forall st, exists e, body st x = Raise e) ->
  forall st, exists e, for_each body st xs = Raise e.
Proof.
  intros Hin Hx. induction xs as [|y xs IH]; intros st.
  - by apply elem_of_nil in Hin.
  - simpl. destruct (body st y) as [st'|e] eqn:Hy; [|by exists e].
    apply elem_of_cons in Hin as [->|Hin].
    + destruct (Hx st) as [e He]. congruence.
    + by apply IH.
Qed.

End ForEach.

(** The rows are read one by one, each from its own element. *)
Lemma collect_rows_spec {A B} (f : A -> result B) xs : forall acc out,
  for_each (fun rows x => v ← f x; Ok (rows ++ [v])) acc xs = Ok out ->
  exists vs, out = acc ++ vs /\ Forall2 (fun x v => f x = Ok v) xs vs.
Proof.
  induction xs as [|x xs IH]; intros acc out H; simpl in H.
  - injection H as <-. exists []. by rewrite app_nil_r.
  - destruct (f x) as [v|e] eqn:Hx; [|done]. simpl in H.
    destruct (IH _ _ H) as (vs & -> & Hvs).
    exists (v :: vs). rewrite <- app_assoc. split; [done|by constructor].
Qed.

Lemma collect_rows_ok {A B} (f : A -> result B) xs vs :
  Forall2 (fun x v => f x = Ok v) xs vs -> forall acc,
  for_each (fun rows x => v ← f x; Ok (rows ++ [v])) acc xs = Ok (acc ++ vs).
Proof.
  induction 1 as [|x v xs vs Hx _ IH]; intros acc; simpl.
  - by rewrite app_nil_r.
  - rewrite Hx. simpl. rewrite IH, <- app_assoc. done.
Qed.

Lemma parse_rows_spec shared_strings sheet_root rows :
  parse_rows shared_strings sheet_root = Ok rows <->
  Forall2 (fun row values => parse_row shared_strings row = Ok values)
          (sheet_rows sheet_root) rows.
Proof.
  unfold parse_rows. split.
  - intros H. by destruct (collect_rows_spec _ _ _ _ H) as (vs & -> & Hvs).
  - intros H. by rewrite (collect_rows_ok _ _ _ H).
Qed.

Lemma parse_rows_length shared_strings sheet_root rows :
  parse_rows shared_strings sheet_root = Ok rows ->
  length rows = length (sheet_rows sheet_root).
Proof.
  intros H. apply parse_rows_spec in H. symmetry. by eapply Forall2_length.
Qed.

(** ** Indexing *)

Lemma getitem_nonneg {A} (l : list A) i x :
  0 <= i -> l !! Z.to_nat i = Some x -> Py.getitem l i = Ok x.
Proof.
  intros Hi Hx. unfold Py.getitem.
  pose proof (lookup_lt_Some _ _ _ Hx) as Hlt.
  destruct (Z.ltb_spec i 0); [lia|].
  destruct (Z.leb_spec 0 i); [|lia].
  destruct (Z.ltb_spec i (Z.of_nat (length l))); [|lia].
  simpl. by rewrite Hx.
Qed.

Lemma getitem_negative {A} (l : list A) k x :
  1 <= k -> reverse l !! Z.to_nat (k - 1) = Some x -> Py.getitem l (- k) = Ok x.
Proof.
  intros Hk Hx. unfold Py.getitem.
  pose proof (lookup_lt_Some _ _ _ Hx) as Hlt. rewrite length_reverse in Hlt.
  rewrite reverse_lookup in Hx by done.
  destruct (Z.ltb_spec (- k) 0); [|lia].
  destruct (Z.leb_spec 0 (- k + Z.of_nat (length l))); [|lia].
  destruct (Z.ltb_spec (- k + Z.of_nat (length l)) (Z.of_nat (length l))); [|lia].
  simpl.
  replace (Z.to_nat (- k + Z.of_nat (length l)))
    with (length l - S (Z.to_nat (k - 1)))%nat by lia.
  by rewrite Hx.
Qed.

Lemma getitem_out_of_range {A} (l : list A) i :
  Z.of_nat (length l) <= i \/ i < - Z.of_nat (length l) ->
  Py.getitem l i = Raise IndexError.
Proof.
  intros H. unfold Py.getitem.
  destruct (Z.ltb_spec i 0).
  - destruct (Z.leb_spec 0 (i + Z.of_nat (length l))); [|done].
    destruct (Z.ltb_spec (i + Z.of_nat (length l)) (Z.of_nat (length l))); [lia|done].
  - destruct (Z.leb_spec 0 i); [|done].
    destruct (Z.ltb_spec i (Z.of_nat (length l))); [lia|done].
Qed.

Lemma getitem_raise_inv {A} (l : list A) i e :
  Py.getitem l i = Raise e ->
  e = IndexError
  /\ (i < - Z.of_nat (length l) \/ Z.of_nat (length l) <= i).
Proof.
  destruct (decide (- Z.of_nat (length l) <= i < Z.of_nat (length l)))
    as [Hin|Hout].
  - destruct (decide (0 <= i)) as [Hi|Hi].
    + destruct (lookup_lt_is_Some_2 l (Z.to_nat i)) as [x Hx]; [lia|].
      by rewrite (getitem_nonneg l i x).
    + destruct (lookup_lt_is_Some_2 (reverse l) (Z.to_nat (- i - 1))) as [x Hx].
      { rewrite length_reverse. lia. }
      replace i with (- - i) by lia.
      by rewrite (getitem_negative l (- i) x) by (done || lia).
  - rewrite getitem_out_of_range by lia. intros [= <-]. split; [done|lia].
Qed.

(** ** The structural check *)

Lemma assemble_table_short rows :
  (length rows < 4)%nat -> assemble_table rows = Raise ValueError_structure.
Proof.
  intros H. unfold assemble_table.
  by destruct (Nat.ltb_spec (length rows) 4); [|lia].
Qed.

Lemma assemble_table_long rows :
  (4 <= length rows)%nat ->
  exists header_row question_row max_col,
    rows !! 0%nat = Some header_row /\ rows !! 1%nat = Some question_row
    /\ Py.max (row_max_key <$> rows) = Ok max_col
    /\ assemble_table rows
       = Ok ((build_schema header_row question_row max_col).1,
             make_record (build_schema header_row question_row max_col).1
               <$> drop 3 rows,
             (build_schema header_row question_row max_col).2).
Proof.
  intros H. unfold assemble_table.
  destruct (Nat.ltb_spec (length rows) 4); [lia|].
  destruct rows as [|r0 [|r1 rows]]; try (simpl in H; lia).
  exists r0, r1, (foldl N.max (row_max_key r0) (row_max_key <$> r1 :: rows)).
  repeat split.
  rewrite (getitem_nonneg _ 0 r0), (getitem_nonneg _ 1 r1) by done.
  cbn -[build_schema make_record drop].
  by destruct (build_schema _ _ _).
Qed.

(** C5: with fewer than 4 rows read from the worksheet the parse raises the
    structural [ValueError] and returns nothing (and a worksheet with fewer
    than 4 row elements never yields a result); with 4 rows or more the
    check passes and the parse returns columns, records and questions. *)
Theorem structural_check_spec :
  (forall rows, (length rows < 4)%nat ->
     assemble_table rows = Raise ValueError_structure)
  /\ (forall rows, (4 <= length rows)%nat ->
        exists out, assemble_table rows = Ok out)
  /\ (forall shared_root sheet_root rows,
        parse_rows (load_shared_strings shared_root) sheet_root = Ok rows ->
        if (length rows <? 4)%nat
        then parse_xlsx shared_root sheet_root = Raise ValueError_structure
        else exists out, parse_xlsx shared_root sheet_root = Ok out)
  /\ (forall shared_root sheet_root,
        (length (sheet_rows sheet_root) < 4)%nat ->
        exists e, parse_xlsx shared_root sheet_root = Raise e).
Proof.
  split; [apply assemble_table_short|]. split.
  { intros rows H.
    destruct (assemble_table_long rows H) as (h & q & m & _ & _ & _ & ->). eauto. }
  split.
  - intros shared_root sheet_root rows H. unfold parse_xlsx. rewrite H. simpl.
    destruct (Nat.ltb_spec (length rows) 4) as [Hlt|Hge].
    + by apply assemble_table_short.
    + destruct (assemble_table_long rows Hge) as (h & q & m & _ & _ & _ & ->). eauto.
  - intros shared_root sheet_root Hlen. unfold parse_xlsx.
    destruct (parse_rows _ _) as [rows|e] eqn:H; [|by exists e].
    apply parse_rows_length in H. simpl.
    exists ValueError_structure. apply assemble_table_short. lia.
Qed.

(** ** Cells *)

Section Cells.

Implicit Types (cell node row : element) (values : gmap N string).

Lemma cell_value_inline shared_strings cell :
  ET.attrib cell !! "t" = Some "inlineStr" ->
  cell_value shared_strings cell
  = Ok (match ET.find_child_child "is" "t" cell with
        | Some node => default EmptyString (ET.text node)
        | None => EmptyString
        end).
Proof.
  intros Ht. unfold cell_value. rewrite Ht.
  destruct (decide _) as [_|Hne]; [|done].
  by destruct (ET.find_child_child _ _ _).
Qed.

Lemma cell_value_shared shared_strings cell node raw :
  ET.attrib cell !! "t" = Some "s" ->
  ET.find_child "v" cell = Some node -> ET.text node = Some raw ->
  cell_value shared_strings cell
  = i ← Py.int raw; Py.getitem shared_strings i.
Proof.
  intros Ht Hv Hraw. unfold cell_value. rewrite Ht, Hv.
  destruct (decide (Some "s" = Some "inlineStr")) as [?|_]; [done|].
  destruct node as [? ? x ?]. simpl in Hraw. subst x.
  by destruct (decide _).
Qed.

Lemma cell_value_literal shared_strings cell node raw :
  ET.attrib cell !! "t" <> Some "inlineStr" ->
  ET.attrib cell !! "t" <> Some "s" ->
  ET.find_child "v" cell = Some node -> ET.text node = Some raw ->
  cell_value shared_strings cell = Ok raw.
Proof.
  intros Hi Hs Hv Hraw. unfold cell_value. rewrite Hv.
  destruct (decide _) as [?|_]; [done|].
  destruct node as [? ? x ?]. simpl in Hraw. subst x.
  by destruct (decide _).
Qed.

Lemma cell_value_missing shared_strings cell :
  ET.attrib cell !! "t" <> Some "inlineStr" ->
  match ET.find_child "v" cell with
  | Some node => ET.text node = None
  | None => True
  end ->
  cell_value shared_strings cell = Ok EmptyString.
Proof.
  intros Hi Hv. unfold cell_value.
  destruct (decide _) as [?|_]; [done|].
  destruct (ET.find_child "v" cell) as [[? ? x ?]|]; [|done].
  simpl in Hv. by subst x.
Qed.

Lemma parse_cell_skip shared_strings values cell :
  cell_ref_letters cell = EmptyString ->
  parse_cell shared_strings values cell = Ok values.
Proof. intros H. unfold parse_cell. by rewrite H. Qed.

Lemma parse_cell_store shared_strings values cell :
  cell_ref_letters cell <> EmptyString ->
  parse_cell shared_strings values cell
  = value ← cell_value shared_strings cell;
    Ok (<[Z.to_N (col_to_index (cell_ref_letters cell))
          := PyStr.strip value]> values).
Proof. intros H. unfold parse_cell. by destruct (decide _). Qed.

Lemma take_while_all p s : PyStr.all_chars p (PyStr.take_while p s) = true.
Proof.
  induction s as [|c s IH]; [done|]. simpl.
  destruct (p c) eqn:Hc; [|done]. simpl. by rewrite Hc.
Qed.

(** The column index stored is the decoder's result itself. *)
Lemma cell_col_idx_exact cell :
  cell_ref_letters cell <> EmptyString ->
  Z.of_N (Z.to_N (col_to_index (cell_ref_letters cell)))
  = col_to_index (cell_ref_letters cell).
Proof.
  intros H. apply Z2N.id, col_to_index_nonneg. split; [done|].
  apply take_while_all.
Qed.

Lemma parse_cell_keeps shared_strings init cell st k :
  parse_cell shared_strings init cell = Ok st ->
  is_Some (init !! k) -> is_Some (st !! k).
Proof.
  intros Hc Hk. destruct (decide (cell_ref_letters cell = EmptyString)) as [He|Hne].
  - rewrite parse_cell_skip in Hc by done. by injection Hc as <-.
  - rewrite parse_cell_store in Hc by done.
    destruct (cell_value shared_strings cell) as [value|]; [|done].
    injection Hc as <-. rewrite lookup_insert. by case_decide.
Qed.

Lemma parse_cells_keep shared_strings cells : forall init values k,
  for_each (parse_cell shared_strings) init cells = Ok values ->
  is_Some (init !! k) -> is_Some (values !! k).
Proof.
  induction cells as [|c cells IH]; intros init values k H Hk; simpl in H.
  - by injection H as <-.
  - destruct (parse_cell shared_strings init c) as [st|e] eqn:Hc; [|done].
    eapply IH; [done|]. by eapply parse_cell_keeps.
Qed.

(** Where every entry of a parsed row comes from, and that every cell
    that is not skipped leaves an entry at its column. *)
Lemma parse_row_entries shared_strings cells : forall init values,
  for_each (parse_cell shared_strings) init cells = Ok values ->
  (forall k v, values !! k = Some v ->
     init !! k = Some v
     \/ exists cell value,
          cell ∈ cells /\ cell_ref_letters cell <> EmptyString
          /\ k = Z.to_N (col_to_index (cell_ref_letters cell))
          /\ cell_value shared_strings cell = Ok value
          /\ v = PyStr.strip value)
  /\ (forall cell, cell ∈ cells -> cell_ref_letters cell <> EmptyString ->
        is_Some (values !! Z.to_N (col_to_index (cell_ref_letters cell)))).
Proof.
  induction cells as [|c cells IH]; intros init values H; simpl in H.
  - injection H as <-. split; [by left|]. by intros ? ?%elem_of_nil.
  - destruct (parse_cell shared_strings init c) as [st|e] eqn:Hc; [|done].
    simpl in H. destruct (IH _ _ H) as [Hsound Hcompl]. split.
    + intros k v Hk. destruct (Hsound k v Hk) as [Hst|(cell & value & Hin & ?)].
      * destruct (decide (cell_ref_letters c = EmptyString)) as [He|Hne].
        { rewrite parse_cell_skip in Hc by done. injection Hc as ->. by left. }
        rewrite parse_cell_store in Hc by done.
        destruct (cell_value shared_strings c) as [value|] eqn:Hv; [|done].
        injection Hc as <-.
        destruct (decide (Z.to_N (col_to_index (cell_ref_letters c)) = k)) as [<-|Hk'].
        -- rewrite lookup_insert_eq in Hst. injection Hst as <-.
           right. exists c, value. repeat split; try done. apply list_elem_of_here.
        -- rewrite lookup_insert_ne in Hst by done. by left.
      * right. exists cell, value. split; [by apply list_elem_of_further|done].
    + intros cell [->|Hin]%elem_of_cons Hne; [|by apply Hcompl].
      rewrite parse_cell_store in Hc by done.
      destruct (cell_value shared_strings c) as [value|] eqn:Hv; [|done].
      injection Hc as <-.
      eapply parse_cells_keep; [done|]. rewrite lookup_insert_eq. by eexists.
Qed.

(** An exception raised while resolving a cell that is not skipped ends
    the whole parse. *)
Lemma cell_failure_aborts shared_root sheet_root row cell e :
  row ∈ sheet_rows sheet_root -> cell ∈ ET.findall_children "c" row ->
  cell_ref_letters cell <> EmptyString ->
  cell_value (load_shared_strings shared_root) cell = Raise e ->
  exists e', parse_xlsx shared_root sheet_root = Raise e'.
Proof.
  intros Hrow Hcell Hne Hv. unfold parse_xlsx.
  set (pool := load_shared_strings shared_root) in *.
  destruct (for_each_raises (parse_cell pool) cell _ Hcell) with (st := (∅ : gmap N string))
    as [e1 He1].
  { intros st. exists e. by rewrite parse_cell_store, Hv. }
  destruct (for_each_raises
              (fun rows row => values ← parse_row pool row; Ok (rows ++ [values]))
              row _ Hrow) with (st := ([] : list (gmap N string))) as [e2 He2].
  { intros st. exists e1. unfold parse_row. by rewrite He1. }
  exists e2. unfold parse_rows. by rewrite He2.
Qed.

End Cells.

(** C3: the pool loaded from a shared-strings document has one entry per
    [si] item, in document order; entry [i] is the concatenation of the
    texts of all [t] elements nested under item [i]; and a shared-string
    cell whose value text is an integer [i] with [0 <= i <= N-1] resolves
    to exactly that entry. *)
Theorem shared_strings_roundtrip (shared_root : element) :
  let items := ET.findall_children "si" shared_root in
  let pool := load_shared_strings (Some shared_root) in
  length pool = length items
  /\ (forall i si, items !! i = Some si ->
        pool !! i
        = Some (Py.join_empty
                  ((fun node => default EmptyString (ET.text node))
                     <$> ET.findall_descendants "t" si)))
  /\ (forall cell node raw i,
        ET.attrib cell !! "t" = Some "s" ->
        ET.find_child "v" cell = Some node -> ET.text node = Some raw ->
        Py.int_opt raw = Some i -> 0 <= i <= Z.of_nat (length items) - 1 ->
        exists si, items !! Z.to_nat i = Some si
                   /\ pool !! Z.to_nat i = Some (si_text si)
                   /\ cell_value pool cell = Ok (si_text si)).
Proof.
  intros items pool. subst pool. cbn [load_shared_strings]. fold items.
  split; [by rewrite length_fmap|]. split.
  - intros i si Hi. by rewrite list_lookup_fmap, Hi.
  - intros cell node raw i Ht Hv Hraw Hint Hi.
    destruct (lookup_lt_is_Some_2 items (Z.to_nat i)) as [si Hsi]; [lia|].
    exists si. split; [done|].
    assert ((si_text <$> items) !! Z.to_nat i = Some (si_text si)) as Hp
      by (by rewrite list_lookup_fmap, Hsi).
    split; [done|].
    rewrite (cell_value_shared _ cell node raw Ht Hv Hraw).
    unfold Py.int. rewrite Hint. simpl. apply getitem_nonneg; [lia|done].
Qed.

Example shared_strings_sample :
  load_shared_strings (Some Sample.pool_doc)
  = ["Finished"; "Q35_1"; "Rank the courses - Tax Law"; " 1 "]
  /\ load_shared_strings None = [].
Proof. split; reflexivity. Qed.

(** ** Trimming *)

Section Strip.

Variable ws : ascii -> bool.

Lemma lstrip_first s c :
  PyStr.first_char (PyStr.lstrip_with ws s) = Some c -> ws c = false.
Proof.
  induction s as [|a s IH]; [done|]. simpl.
  destruct (ws a) eqn:Ha; [done|]. simpl. congruence.
Qed.

Lemma rstrip_last s c :
  PyStr.last_char (PyStr.rstrip_with ws s) = Some c -> ws c = false.
Proof.
  induction s as [|a s IH]; [done|]. simpl.
  destruct (PyStr.rstrip_with ws s) as [|b r] eqn:E.
  - destruct (ws a) eqn:Ha; [done|]. simpl. congruence.
  - done.
Qed.

Lemma rstrip_first s c :
  PyStr.first_char (PyStr.rstrip_with ws s) = Some c ->
  PyStr.first_char s = Some c.
Proof.
  destruct s as [|a s]; [done|]. simpl.
  destruct (PyStr.rstrip_with ws s); [|done]. by destruct (ws a).
Qed.

Lemma lstrip_decomp s :
  exists l, s = l +:+ PyStr.lstrip_with ws s /\ PyStr.all_chars ws l = true.
Proof.
  induction s as [|a s (l & Hl & Hws)]; [by exists EmptyString|]. simpl.
  destruct (ws a) eqn:Ha; [|by exists EmptyString].
  exists (String a l). rewrite append_cons, <- Hl. simpl. by rewrite Ha.
Qed.

Lemma rstrip_decomp s :
  exists r, s = PyStr.rstrip_with ws s +:+ r /\ PyStr.all_chars ws r = true.
Proof.
  induction s as [|a s (r & Hr & Hws)]; [by exists EmptyString|]. simpl.
  destruct (PyStr.rstrip_with ws s) as [|b t] eqn:E.
  - destruct (ws a) eqn:Ha.
    + exists (String a r). rewrite append_nil_l in *. subst s.
      simpl. by rewrite Ha.
    + exists r. rewrite append_cons. by rewrite append_nil_l in *; subst.
  - exists r. rewrite append_cons. by rewrite <- Hr.
Qed.

End Strip.

(** [strip] removes a run of white space at each end and leaves a text
    that neither starts nor ends with white space. *)
Lemma strip_spec s :
  (exists l r, s = l +:+ PyStr.strip s +:+ r
               /\ PyStr.all_chars PyStr.isspace l = true
               /\ PyStr.all_chars PyStr.isspace r = true)
  /\ (forall c, PyStr.first_char (PyStr.strip s) = Some c -> PyStr.isspace c = false)
  /\ (forall c, PyStr.last_char (PyStr.strip s) = Some c -> PyStr.isspace c = false).
Proof.
  unfold PyStr.strip. split; [|split].
  - destruct (lstrip_decomp PyStr.isspace s) as (l & Hl & Hlw).
    destruct (rstrip_decomp PyStr.isspace (PyStr.lstrip_with PyStr.isspace s))
      as (r & Hr & Hrw).
    exists l, r. by rewrite <- Hr, <- Hl.
  - intros c Hc. apply rstrip_first in Hc. by apply lstrip_first in Hc.
  - intros c Hc. by apply rstrip_last in Hc.
Qed.

Lemma lstrip_fixed ws s :
  (forall c, PyStr.first_char s = Some c -> ws c = false) ->
  PyStr.lstrip_with ws s = s.
Proof. destruct s as [|a s]; [done|]. simpl. intros H. by rewrite (H a). Qed.

Lemma rstrip_fixed ws s :
  (forall c, PyStr.last_char s = Some c -> ws c = false) ->
  PyStr.rstrip_with ws s = s.
Proof.
  induction s as [|a s IH]; [done|]. intros H. cbn [PyStr.rstrip_with].
  destruct s as [|b s].
  - simpl. by rewrite (H a).
  - rewrite IH by (intros c Hc; by apply H). done.
Qed.

Lemma strip_idem s : PyStr.strip (PyStr.strip s) = PyStr.strip s.
Proof.
  destruct (strip_spec s) as (_ & Hfirst & Hlast).
  unfold PyStr.strip at 1. by rewrite lstrip_fixed, rstrip_fixed.
Qed.

Lemma strip_rstrip_app_ws t r :
  PyStr.all_chars PyStr.isspace r = true ->
  PyStr.rstrip_with PyStr.isspace (t +:+ r) = PyStr.rstrip_with PyStr.isspace t.
Proof.
  intros Hr. induction t as [|a t IH].
  - rewrite append_nil_l. induction r as [|b r IHr]; [done|].
    cbn [PyStr.all_chars] in Hr. apply andb_prop in Hr as [Hb Hr].
    cbn [PyStr.rstrip_with]. by rewrite IHr, Hb.
  - rewrite append_cons. cbn [PyStr.rstrip_with]. by rewrite IH.
Qed.

Lemma strip_app_ws l s r :
  PyStr.all_chars PyStr.isspace l = true ->
  PyStr.all_chars PyStr.isspace r = true ->
  PyStr.strip (l +:+ s +:+ r) = PyStr.strip s.
Proof.
  intros Hl Hr. unfold PyStr.strip.
  induction l as [|a l IH].
  - rewrite append_nil_l. clear Hl. induction s as [|c s IHs].
    + rewrite append_nil_l.
      assert (PyStr.lstrip_with PyStr.isspace r = EmptyString) as ->; [|done].
      clear -Hr. induction r as [|b r IHr]; [done|].
      cbn [PyStr.all_chars] in Hr. apply andb_prop in Hr as [Hb Hr].
      simpl. rewrite Hb. by apply IHr.
    + rewrite append_cons. cbn [PyStr.lstrip_with].
      destruct (PyStr.isspace c); [done|].
      rewrite <- append_cons. by apply strip_rstrip_app_ws.
  - cbn [PyStr.all_chars] in Hl. apply andb_prop in Hl as [Ha Hl].
    rewrite append_cons. cbn [PyStr.lstrip_with]. rewrite Ha. by apply IH.
Qed.

Lemma last_char_app s t :
  t <> EmptyString -> PyStr.last_char (s +:+ t) = PyStr.last_char t.
Proof.
  intros Ht. induction s as [|a s IH]; [done|].
  rewrite append_cons. cbn [PyStr.last_char]. rewrite IH.
  destruct (s +:+ t) eqn:E; [|done].
  destruct s; [by rewrite append_nil_l in E|by rewrite append_cons in E].
Qed.

Lemma last_char_all p s c :
  PyStr.all_chars p s = true -> PyStr.last_char s = Some c -> p c = true.
Proof.
  induction s as [|a s IH]; [done|]. cbn [PyStr.all_chars PyStr.last_char].
  intros [Ha Hs]%andb_prop. destruct s; [by intros [= <-]|by apply IH].
Qed.

(** ** Trimming, declaratively *)

Lemma isspace_iff c : PyStr.isspace c = true <-> white_space c.
Proof. unfold PyStr.isspace, white_space, PyStr.ord. cbn zeta. lia. Qed.

Lemma all_isspace_iff s :
  PyStr.all_chars PyStr.isspace s = true
  <-> Forall white_space (list_ascii_of_string s).
Proof.
  induction s as [|c s IH]; simpl.
  - split; [constructor|done].
  - rewrite andb_true_iff, Forall_cons, IH. by rewrite isspace_iff.
Qed.

Lemma last_char_snoc s c :
  PyStr.last_char s = Some c <-> exists init, s = init +:+ String c EmptyString.
Proof.
  split.
  - induction s as [|a s IH]; [done|]. cbn [PyStr.last_char].
    destruct s as [|b s].
    + intros [= <-]. by exists EmptyString.
    + intros [init ->]%IH. exists (String a init). by rewrite append_cons.
  - intros [init ->]. by rewrite last_char_app.
Qed.

(** [str.strip()] is trimming: it removes the white space at both ends and
    nothing else, so the trimmed text is determined by the text. *)
Lemma strip_trimmed_iff s name :
  PyStr.strip s = name <-> trimmed_from s name.
Proof.
  split.
  - intros <-. destruct (strip_spec s) as ((l & r & Hs & Hl & Hr) & Hfirst & Hlast).
    split; [|split].
    + exists l, r. by rewrite <- !all_isspace_iff.
    + intros c rest Hname Hc%isspace_iff.
      rewrite (Hfirst c) in Hc; [done|]. by rewrite Hname.
    + intros init c Hname Hc%isspace_iff.
      rewrite (Hlast c) in Hc; [done|]. apply last_char_snoc. by exists init.
  - intros ((l & r & -> & Hl%all_isspace_iff & Hr%all_isspace_iff) & Hfirst & Hlast).
    rewrite strip_app_ws by done. unfold PyStr.strip.
    rewrite lstrip_fixed, rstrip_fixed; [done|..].
    + intros c [init ->]%last_char_snoc.
      destruct (PyStr.isspace c) eqn:E; [|done].
      apply isspace_iff in E. by destruct (Hlast init c).
    + intros c Hc. destruct name as [|a rest]; [done|]. injection Hc as ->.
      destruct (PyStr.isspace c) eqn:E; [|done].
      apply isspace_iff in E. by destruct (Hfirst c rest).
Qed.

(** C8: a question text that contains " - " (that is, has the form
    [pre - post]) gives the trimmed last segment of its split on " - ", a
    segment that follows an occurrence of the separator and contains none;
    a text without the separator gives the whole trimmed text, and the
    sentinel "Unknown Course" when that is empty.  Trimmed means: white
    space (code points 9-13, 28-32, 133, 160) removed at both ends and
    nothing else, which is what [strip] computes.  "Some Prefix - Tax Law"
    gives "Tax Law", and so does "  Q35 - Core -  Tax Law  "; "  Audit "
    gives "Audit", a blank text the sentinel, and "Core - " the empty
    name. *)
Theorem parse_course_name_spec (question_text : string) :
  (forall s name, PyStr.strip s = name <-> trimmed_from s name)
  /\ (PyStr.contains " - " question_text = true
      <-> exists pre post, question_text = pre +:+ " - " +:+ post)
  /\ (if PyStr.contains " - " question_text then
        exists pre seg,
          question_text = pre +:+ " - " +:+ seg
          /\ PyStr.contains " - " seg = false
          /\ List.last (split " - " question_text) EmptyString = seg
          /\ parse_course_name question_text = PyStr.strip seg
          /\ trimmed_from seg (parse_course_name question_text)
      else
        split " - " question_text = [question_text]
        /\ parse_course_name question_text
           = (if decide (PyStr.strip question_text = EmptyString)
              then "Unknown Course" else PyStr.strip question_text)
        /\ exists whole,
             trimmed_from question_text whole
             /\ parse_course_name question_text
                = if decide (whole = EmptyString)
                  then "Unknown Course" else whole)
  /\ parse_course_name "Some Prefix - Tax Law" = "Tax Law"
  /\ parse_course_name "  Q35 - Core -  Tax Law  " = "Tax Law"
  /\ parse_course_name "  Audit " = "Audit"
  /\ parse_course_name "   " = "Unknown Course"
  /\ parse_course_name "Core - " = EmptyString.
Proof.
  split; [apply strip_trimmed_iff|].
  split; [by apply contains_iff|].
  split; [|by vm_compute].
  unfold parse_course_name.
  destruct (PyStr.contains " - " question_text) eqn:Hc.
  - destruct (split_loop_last " - " ltac:(done) _ question_text EmptyString
                (Nat.le_refl _) Hc) as (pre & seg & Hq & Hseg & Hlast).
    exists pre, seg. unfold split. rewrite Hlast.
    do 4 (split; [done|]). by apply strip_trimmed_iff.
  - split; [unfold split; by rewrite split_loop_absent|]. split; [done|].
    exists (PyStr.strip question_text). split; [by apply strip_trimmed_iff|done].
Qed.

(** ** Integer literals *)

Lemma pretty_N_char_digit x :
  (x < 10)%N ->
  PyStr.is_digit (pretty_N_char x) = true
  /\ PyStr.ord (pretty_N_char x) - 48 = Z.of_N x.
Proof.
  intros H.
  assert (x = 0 \/ x = 1 \/ x = 2 \/ x = 3 \/ x = 4 \/ x = 5 \/ x = 6
          \/ x = 7 \/ x = 8 \/ x = 9)%N as Hx by lia.
  repeat destruct Hx as [->|Hx]; try subst x; by vm_compute.
Qed.

Lemma all_chars_app p s t :
  PyStr.all_chars p (s +:+ t) = PyStr.all_chars p s && PyStr.all_chars p t.
Proof.
  induction s as [|a s IH]; [done|].
  rewrite append_cons. cbn [PyStr.all_chars]. by rewrite IH, andb_assoc.
Qed.

(** The decimal digits of [x], as [pretty] writes them, and how [int()]
    reads them back. *)
Lemma pretty_N_go_digits (x : N) :
  exists (t : string) (k : nat),
    (forall s, pretty_N_go x s = t +:+ s)
    /\ PyStr.all_chars PyStr.is_digit t = true
    /\ (x = 0%N -> k = 0%nat)
    /\ (0 < x -> t <> EmptyString)%N
    /\ Z.of_N x < 10 ^ Z.of_nat k
    /\ ((0 < x)%N -> 10 ^ Z.of_nat k <= 10 * Z.of_N x)
    /\ forall acc d rest,
         Py.int_digits acc d false (t +:+ rest)
         = Py.int_digits (acc * 10 ^ Z.of_nat k + Z.of_N x) (d + N.of_nat k)
             false rest.
Proof.
  induction (N.lt_wf_0 x) as [x _ IH].
  destruct (decide (x = 0%N)) as [->|Hx].
  { exists EmptyString, 0%nat. repeat split; try done; try lia.
    intros acc d rest. rewrite append_nil_l. f_equal; [simpl; lia|lia]. }
  assert (0 < x)%N as Hpos by lia.
  destruct (IH (x `div` 10)%N) as (t & k & Hgo & Hdig & Hz & Hnz & Hlt & Hge & Hint).
  { by apply N.div_lt. }
  destruct (pretty_N_char_digit (x `mod` 10)%N) as [Hc Hv].
  { by apply N.mod_lt. }
  pose proof (N.div_mod x 10 ltac:(done)) as Hdm.
  pose proof (N.mod_lt x 10 ltac:(done)) as Hmod.
  exists (t +:+ String (pretty_N_char (x `mod` 10)) EmptyString), (S k).
  rewrite Nat2Z.inj_succ, Z.pow_succ_r by lia.
  split; [|split; [|split; [|split; [|split; [|split]]]]].
  - intros s. by rewrite pretty_N_go_step, Hgo, append_assoc by done.
  - rewrite all_chars_app, Hdig. cbn [PyStr.all_chars]. by rewrite Hc.
  - done.
  - intros _. by destruct t.
  - lia.
  - intros _. destruct (decide (x `div` 10 = 0)%N) as [H0|H0].
    + rewrite (Hz H0). simpl. lia.
    + specialize (Hge ltac:(lia)).
      assert (Z.of_N x = 10 * Z.of_N (x `div` 10) + Z.of_N (x `mod` 10)) by lia.
      generalize dependent (10 ^ Z.of_nat k). intros.
      pose proof (N2Z.is_nonneg (x `mod` 10)). clear -H H1 Hge.
      generalize dependent (Z.of_N (x `div` 10)).
      generalize dependent (Z.of_N (x `mod` 10)). intros. lia.
  - intros acc d rest. rewrite append_assoc, Hint, append_cons, append_nil_l.
    cbn [Py.int_digits]. rewrite Hc, Hv. f_equal; lia.
Qed.

Lemma first_char_all p s c :
  PyStr.all_chars p s = true -> PyStr.first_char s = Some c -> p c = true.
Proof. destruct s; [done|]. simpl. by intros [? _]%andb_prop [= <-]. Qed.

Lemma int_unsigned_digits t k x :
  t <> EmptyString -> PyStr.all_chars PyStr.is_digit t = true ->
  (forall acc d rest,
     Py.int_digits acc d false (t +:+ rest)
     = Py.int_digits (acc * 10 ^ Z.of_nat k + x) (d + N.of_nat k) false rest) ->
  (k <= 4300)%nat ->
  Py.int_unsigned t = Some x.
Proof.
  intros Hne Hdig Hint Hk. destruct t as [|c t]; [done|].
  unfold Py.int_unsigned.
  rewrite (first_char_all _ _ c Hdig eq_refl).
  specialize (Hint 0 0%N EmptyString). rewrite append_nil_r in Hint.
  rewrite Hint. cbn [Py.int_digits].
  destruct (N.leb_spec (0 + N.of_nat k) Py.int_max_str_digits) as [_|Hgt].
  - f_equal; lia.
  - unfold Py.int_max_str_digits in Hgt. lia.
Qed.

(** A number below [10 ^ n] has at most [n] digits. *)
Lemma digits_bound (n : Z) (k : nat) (x : Z) :
  0 <= n -> x < 10 ^ n -> 10 ^ Z.of_nat k <= 10 * x -> Z.of_nat k <= n.
Proof.
  intros Hn Hx Hk.
  assert (10 ^ Z.of_nat k < 10 ^ (n + 1)) as Hp.
  { rewrite Z.pow_add_r, Z.pow_1_r by lia.
    generalize dependent (10 ^ n). generalize dependent (10 ^ Z.of_nat k).
    intros. lia. }
  apply Z.pow_lt_mono_r_iff in Hp; lia.
Qed.

Lemma int_unsigned_pretty (x : N) :
  Z.of_N x < 10 ^ 4300 -> Py.int_unsigned (pretty x) = Some (Z.of_N x).
Proof.
  intros Hx. unfold pretty, pretty_N. case_decide as H0; [by subst|].
  destruct (pretty_N_go_digits x) as (t & k & Hgo & Hdig & _ & Hnz & _ & Hge & Hint).
  assert (0 < x)%N as Hpos by (clear -H0; lia).
  rewrite Hgo, append_nil_r.
  apply (int_unsigned_digits t k); [by apply Hnz|exact Hdig|exact Hint|].
  pose proof (digits_bound 4300 k (Z.of_N x) ltac:(discriminate) Hx (Hge Hpos))
    as Hk.
  clear -Hk. lia.
Qed.

Lemma int_opt_cases s :
  Py.int_opt s
  = let t := PyStr.rstrip_with Py.int_space (PyStr.lstrip_with Py.int_space s) in
    match t with
    | String c body =>
        if Ascii.eqb c "+" then Py.int_unsigned body
        else if Ascii.eqb c "-" then Z.opp <$> Py.int_unsigned body
        else Py.int_unsigned t
    | EmptyString => Py.int_unsigned t
    end.
Proof.
  unfold Py.int_opt. cbn zeta.
  destruct (PyStr.rstrip_with _ _) as [|c body]; [done|].
  by destruct c as [[] [] [] [] [] [] [] []].
Qed.

Lemma digit_not_int_space c :
  PyStr.is_digit c = true -> Py.int_space c = false.
Proof. unfold PyStr.is_digit, Py.int_space. cbn zeta. lia. Qed.

Lemma digit_not_sign c :
  PyStr.is_digit c = true -> Ascii.eqb c "+" = false /\ Ascii.eqb c "-" = false.
Proof.
  intros H. split; apply Ascii.eqb_neq; intros ->; by vm_compute in H.
Qed.

(** [int(str(i))] is [i], up to the limit on the number of digits. *)
Lemma int_opt_pretty (i : Z) :
  Z.abs i < 10 ^ 4300 -> Py.int_opt (pretty i) = Some i.
Proof.
  intros Hi. destruct i as [|p|p]; [done|..].
  - change (pretty (Z.pos p)) with (pretty (N.pos p)).
    pose proof (int_unsigned_pretty (N.pos p) Hi) as Hu.
    unfold pretty, pretty_N in *. case_decide; [done|].
    destruct (pretty_N_go_digits (N.pos p))
      as (t & k & Hgo & Hdig & _ & Hnz & _).
    rewrite Hgo, append_nil_r in *. specialize (Hnz ltac:(done)).
    rewrite int_opt_cases. cbn zeta.
    rewrite lstrip_fixed, rstrip_fixed.
    + destruct t as [|c t]; [done|].
      destruct (digit_not_sign c) as [-> ->]; [|done].
      by apply (first_char_all _ _ c Hdig).
    + intros c Hc. apply digit_not_int_space. by apply (last_char_all _ t).
    + intros c Hc. apply digit_not_int_space. by apply (first_char_all _ t).
  - change (pretty (Z.neg p)) with ("-" +:+ pretty (N.pos p)).
    pose proof (int_unsigned_pretty (N.pos p) Hi) as Hu.
    unfold pretty, pretty_N in *. case_decide; [done|].
    destruct (pretty_N_go_digits (N.pos p))
      as (t & k & Hgo & Hdig & _ & Hnz & _).
    rewrite Hgo, append_nil_r in *. specialize (Hnz ltac:(done)).
    rewrite int_opt_cases. cbn zeta. rewrite append_cons, append_nil_l.
    rewrite lstrip_fixed, rstrip_fixed.
    + change (Z.opp <$> Py.int_unsigned t = Some (Z.neg p)). by rewrite Hu.
    + intros c Hc. apply digit_not_int_space.
      apply (last_char_all _ t); [done|].
      by rewrite <- Hc, <- (last_char_app "-" t).
    + by intros c [= <-].
Qed.

Lemma lstrip_keeps ws l c r :
  ws c = false ->
  exists l', PyStr.lstrip_with ws (l +:+ String c r) = l' +:+ String c r.
Proof.
  intros Hc. induction l as [|a l [l' IH]].
  - exists EmptyString. rewrite !append_nil_l. simpl. by rewrite Hc.
  - rewrite append_cons. cbn [PyStr.lstrip_with].
    destruct (ws a); [by exists l'|]. exists (String a l). by rewrite append_cons.
Qed.

Lemma rstrip_keeps ws l c r :
  ws c = false ->
  exists r', PyStr.rstrip_with ws (l +:+ String c r) = l +:+ String c r'.
Proof.
  intros Hc. induction l as [|a l [r' IH]].
  - exists (PyStr.rstrip_with ws r). rewrite !append_nil_l.
    cbn [PyStr.rstrip_with]. destruct (PyStr.rstrip_with ws r); [by rewrite Hc|done].
  - exists r'. rewrite !append_cons. cbn [PyStr.rstrip_with]. rewrite IH.
    by destruct l.
Qed.

Lemma int_digits_bad l c r : forall acc d p,
  PyStr.is_digit c = false -> Ascii.eqb c "_" = false ->
  Py.int_digits acc d p (l +:+ String c r) = None.
Proof.
  induction l as [|a l IH]; intros acc d p Hd Hu.
  - rewrite append_nil_l. cbn [Py.int_digits]. by rewrite Hd, Hu.
  - rewrite append_cons. cbn [Py.int_digits].
    destruct (PyStr.is_digit a); [by apply IH|].
    destruct (Ascii.eqb a "_"); [|done]. destruct p; [done|by apply IH].
Qed.

Lemma int_unsigned_bad l c r :
  PyStr.is_digit c = false -> Ascii.eqb c "_" = false ->
  Py.int_unsigned (l +:+ String c r) = None.
Proof.
  intros Hd Hu. unfold Py.int_unsigned.
  destruct (l +:+ String c r) as [|a s] eqn:E; [done|].
  destruct (PyStr.is_digit a) eqn:Ha; [|done].
  by rewrite <- E, int_digits_bad.
Qed.

(** A character that is no digit, sign, underscore or white space makes
    [int()] raise. *)
Lemma int_opt_bad_char l c r :
  PyStr.is_digit c = false -> Py.int_space c = false ->
  c <> "+"%char -> c <> "-"%char -> c <> "_"%char ->
  Py.int_opt (l +:+ String c r) = None.
Proof.
  intros Hd Hs Hplus%Ascii.eqb_neq Hminus%Ascii.eqb_neq Hu%Ascii.eqb_neq.
  rewrite int_opt_cases. cbn zeta.
  destruct (lstrip_keeps Py.int_space l c r Hs) as [l' ->].
  destruct (rstrip_keeps Py.int_space l' c r Hs) as [r' ->].
  destruct l' as [|a l'].
  - rewrite append_nil_l, Hplus, Hminus.
    by apply (int_unsigned_bad EmptyString).
  - rewrite append_cons, <- append_cons.
    rewrite !int_unsigned_bad by done. by repeat case_match.
Qed.

(** ** Shared-string indices *)

(** C10 (amended): a processed cell of shared-string type whose value node
    has text [raw] resolves to [shared_strings[int(raw)]] with no bounds
    check: a text that is no integer literal, an index at or beyond the
    pool size or below its negation, and any index into an empty pool
    raise, and the whole parse ends with an exception; an index [-k] with
    [1 <= k <= N] resolves to the [k]-th string from the end.  A cell of
    shared-string type without a value node, or whose value node has no
    text, resolves to the empty string whatever the pool.  What [int()]
    accepts: the decimal writing of every integer of at most 4300 digits
    is read back as that integer, and a text with a character that is no
    digit, sign, underscore or white space is rejected. *)
Theorem shared_string_index_unchecked
    shared_root sheet_root row cell :
  row ∈ sheet_rows sheet_root -> cell ∈ ET.findall_children "c" row ->
  cell_ref_letters cell <> EmptyString ->
  ET.attrib cell !! "t" = Some "s" ->
  let pool := load_shared_strings shared_root in
  let N := Z.of_nat (length pool) in
  (forall node raw,
     ET.find_child "v" cell = Some node -> ET.text node = Some raw ->
     cell_value pool cell = (i ← Py.int raw; Py.getitem pool i)
     /\ (Py.int_opt raw = None ->
         cell_value pool cell = Raise ValueError_int
         /\ exists e, parse_xlsx shared_root sheet_root = Raise e)
     /\ (forall i, Py.int_opt raw = Some i -> N <= i \/ i < - N ->
         cell_value pool cell = Raise IndexError
         /\ exists e, parse_xlsx shared_root sheet_root = Raise e)
     /\ (pool = [] -> exists e, parse_xlsx shared_root sheet_root = Raise e)
     /\ (forall k, Py.int_opt raw = Some (- k) -> 1 <= k <= N ->
         exists s, reverse pool !! Z.to_nat (k - 1) = Some s
                   /\ cell_value pool cell = Ok s))
  /\ (match ET.find_child "v" cell with
      | Some node => ET.text node = None
      | None => True
      end -> cell_value pool cell = Ok EmptyString)
  /\ (forall i : Z, Z.abs i < 10 ^ 4300 -> Py.int_opt (pretty i) = Some i)
  /\ (forall l c r,
        PyStr.is_digit c = false -> Py.int_space c = false ->
        c <> "+"%char -> c <> "-"%char -> c <> "_"%char ->
        Py.int_opt (l +:+ String c r) = None).
Proof.
  intros Hrow Hcell Hne Ht pool N.
  assert (forall e, cell_value pool cell = Raise e ->
                    exists e', parse_xlsx shared_root sheet_root = Raise e') as Habort
    by (intros e; by apply cell_failure_aborts with row).
  split; [|split; [|split; [apply int_opt_pretty|apply int_opt_bad_char]]].
  - intros node raw Hv Hraw.
    pose proof (cell_value_shared pool cell node raw Ht Hv Hraw) as Hcv.
    split; [done|]. split; [|split; [|split]].
    + intros Hint. assert (cell_value pool cell = Raise ValueError_int) as H.
      { rewrite Hcv. unfold Py.int. by rewrite Hint. }
      eauto.
    + intros i Hint Hi. assert (cell_value pool cell = Raise IndexError) as H.
      { rewrite Hcv. unfold Py.int. rewrite Hint. simpl.
        by apply getitem_out_of_range. }
      eauto.
    + intros Hpool. destruct (Py.int_opt raw) as [i|] eqn:Hint.
      * apply (Habort IndexError). rewrite Hcv. unfold Py.int. rewrite Hint. simpl.
        rewrite Hpool. apply getitem_out_of_range. simpl. lia.
      * apply (Habort ValueError_int). rewrite Hcv. unfold Py.int. by rewrite Hint.
    + intros k Hint Hk.
      destruct (lookup_lt_is_Some_2 (reverse pool) (Z.to_nat (k - 1))) as [s Hs].
      { rewrite length_reverse. lia. }
      exists s. split; [done|]. rewrite Hcv. unfold Py.int. rewrite Hint. simpl.
      apply getitem_negative; [lia|done].
  - apply cell_value_missing. by rewrite Ht.
Qed.

Lemma shared_string_index_unchecked_witness :
  (exists e, parse_xlsx (Some Sample.pool_doc) (Sample.index_sheet "4") = Raise e)
  /\ (exists e, parse_xlsx (Some Sample.pool_doc) (Sample.index_sheet "-5") = Raise e)
  /\ (exists e, parse_xlsx (Some Sample.pool_doc) (Sample.index_sheet "x") = Raise e)
  /\ (exists e, parse_xlsx None (Sample.index_sheet "0") = Raise e)
  /\ cell_value (load_shared_strings (Some Sample.pool_doc))
       (Sample.index_cell "-1") = Ok " 1 ".
Proof.
  assert (forall raw,
            Sample.row [Sample.index_cell raw]
              ∈ sheet_rows (Sample.index_sheet raw)
            /\ Sample.index_cell raw
                 ∈ ET.findall_children "c" (Sample.row [Sample.index_cell raw])
            /\ cell_ref_letters (Sample.index_cell raw) <> EmptyString
            /\ ET.attrib (Sample.index_cell raw) !! "t" = Some "s"
            /\ ET.find_child "v" (Sample.index_cell raw)
               = Some (Sample.elem "v" ∅ (Some raw) []))
    as Hin.
  { intros raw. split; [vm_compute; left|]. split; [vm_compute; left|].
    split; [vm_compute; discriminate|]. split; by vm_compute. }
  pose (use := fun pool raw =>
    match Hin raw with
    | conj Hrow (conj Hcell (conj Hne (conj Ht Hv))) =>
        proj1 (shared_string_index_unchecked pool (Sample.index_sheet raw)
                 _ _ Hrow Hcell Hne Ht) _ raw Hv eq_refl
    end).
  split; [|split; [|split; [|split]]].
  - destruct (use (Some Sample.pool_doc) "4") as (_ & _ & Hout & _).
    apply (Hout 4); [reflexivity|]. left. vm_compute. discriminate.
  - destruct (use (Some Sample.pool_doc) "-5") as (_ & _ & Hout & _).
    apply (Hout (-5)); [reflexivity|]. right. vm_compute. reflexivity.
  - destruct (use (Some Sample.pool_doc) "x") as (_ & Hbad & _).
    apply Hbad. reflexivity.
  - destruct (use None "0") as (_ & _ & _ & Hempty & _).
    apply Hempty. reflexivity.
  - destruct (use (Some Sample.pool_doc) "-1") as (_ & _ & _ & _ & Hneg).
    destruct (Hneg 1) as (s & Hs & Hv); [reflexivity|vm_compute; split; discriminate|].
    vm_compute in Hs. injection Hs as <-. exact Hv.
Defined.

(** With no shared-strings table the pool is empty, and yet a worksheet
    whose cells are all of shared-string type parses: its cells have no
    value text, so no index is read. *)
Lemma shared_cell_without_text_returns :
  load_shared_strings None = []
  /\ (row ← sheet_rows Sample.valueless_sheet; ET.findall_children "c" row)
     = Sample.valueless_cells
  /\ Forall (fun cell => cell_ref_letters cell <> EmptyString
                         /\ ET.attrib cell !! "t" = Some "s")
       Sample.valueless_cells
  /\ parse_xlsx None Sample.valueless_sheet
     = Ok ([""; ""], [{[ "" := "" ]}], [("", "")]).
Proof.
  split; [reflexivity|]. split; [by vm_compute|].
  split; [|by vm_compute].
  repeat constructor; by vm_compute.
Qed.

(** ** Document order *)

Section DocumentOrder.

Lemma iter_unfold e : ET.iter e = e :: (c ← ET.children e; ET.iter c).
Proof.
  destruct e as [t a x cs]. reflexivity.
Qed.

Lemma filter_sublist_of {A} (p : A -> bool) l : List.filter p l `sublist_of` l.
Proof.
  induction l as [|x l IH]; simpl; [constructor|].
  destruct (p x); by constructor.
Qed.

Lemma filter_none {A} (p : A -> bool) l :
  (forall x, x ∈ l -> p x = false) -> List.filter p l = [].
Proof.
  induction l as [|x l IH]; intros H; simpl; [done|].
  rewrite (H x) by apply list_elem_of_here.
  apply IH. intros y Hy. apply H. by apply list_elem_of_further.
Qed.

Lemma children_sublist_iter (l : list element) :
  l `sublist_of` (c ← l; ET.iter c).
Proof.
  induction l as [|x l IH]; [constructor|].
  rewrite bind_cons, iter_unfold. simpl. constructor.
  by apply sublist_inserts_l.
Qed.

Lemma rows_sublist_iter (cs : list element) :
  (forall c d, c ∈ cs -> d ∈ (x ← ET.children c; ET.iter x) ->
               ET.has_tag "sheetData" d = false) ->
  ET.child_step "row"
    (List.filter (ET.has_tag "sheetData") (c ← cs; ET.iter c))
  `sublist_of` (c ← cs; ET.iter c).
Proof.
  induction cs as [|c cs IH]; intros H; [constructor|].
  rewrite bind_cons, iter_unfold. cbn [app List.filter].
  rewrite List.filter_app, (filter_none _ (x ← ET.children c; ET.iter x))
    by (intros d Hd; apply (H c d); [apply list_elem_of_here|done]).
  rewrite app_nil_l.
  assert (ET.child_step "row"
            (List.filter (ET.has_tag "sheetData") (c0 ← cs; ET.iter c0))
          `sublist_of` (c0 ← cs; ET.iter c0)) as Hrest.
  { apply IH. intros c' d Hc'. apply H. by apply list_elem_of_further. }
  destruct (ET.has_tag "sheetData" c).
  - unfold ET.child_step in *. rewrite bind_cons.
    apply sublist_cons. apply sublist_app; [|done].
    etrans; [apply filter_sublist_of|apply children_sublist_iter].
  - apply sublist_cons. by apply sublist_inserts_l.
Qed.

(** With the layout of the format the rows are read in document order:
    they form a subsequence of the document's elements. *)
Lemma sheet_rows_document_order sheet_root :
  sheet_data_at_top sheet_root ->
  sheet_rows sheet_root `sublist_of` ET.iter sheet_root.
Proof.
  intros H. unfold sheet_rows, ET.findall_descendants_children.
  unfold ET.descendant_step at 1. rewrite bind_singleton.
  rewrite iter_unfold. apply sublist_cons. by apply rows_sublist_iter.
Qed.

End DocumentOrder.

(** C2: the parser yields one mapping per row element, in the order in
    which the path finds the row elements, which for the layout of the
    format is document order.  A cell whose reference has no leading capital letters
    is skipped; any other cell stores, at the column its letters decode to,
    the trimmed value it resolves to: the text of its [is/t] node for an
    inline string, the pool entry at the integer of its [v] node for a
    shared string, the text of its [v] node verbatim otherwise, and the
    empty string when that node or its text is missing.  Every entry of a
    row comes from such a cell, every such cell leaves an entry, and a row
    without cells gives the empty mapping at its position. *)
Theorem worksheet_row_parser_spec shared_strings sheet_root rows :
  parse_rows shared_strings sheet_root = Ok rows ->
  Forall2
    (fun row values =>
       let cells := ET.findall_children "c" row in
       for_each (parse_cell shared_strings) ∅ cells = Ok values
       /\ (cells = [] -> values = ∅)
       /\ (forall k v, values !! k = Some v ->
             exists cell value,
               cell ∈ cells /\ cell_ref_letters cell <> EmptyString
               /\ Z.of_N k = col_to_index (cell_ref_letters cell)
               /\ cell_value shared_strings cell = Ok value
               /\ v = PyStr.strip value)
       /\ (forall cell, cell ∈ cells -> cell_ref_letters cell <> EmptyString ->
             is_Some (values !! Z.to_N (col_to_index (cell_ref_letters cell)))))
    (sheet_rows sheet_root) rows
  /\ (sheet_data_at_top sheet_root ->
      sheet_rows sheet_root `sublist_of` ET.iter sheet_root)
  /\ (forall values cell,
        parse_cell shared_strings values cell
        = if decide (cell_ref_letters cell = EmptyString) then Ok values
          else value ← cell_value shared_strings cell;
               Ok (<[Z.to_N (col_to_index (cell_ref_letters cell))
                     := PyStr.strip value]> values))
  /\ (forall cell,
        ET.attrib cell !! "t" = Some "inlineStr" ->
        cell_value shared_strings cell
        = Ok (match ET.find_child_child "is" "t" cell with
              | Some node => default EmptyString (ET.text node)
              | None => EmptyString
              end))
  /\ (forall cell node raw,
        ET.attrib cell !! "t" = Some "s" ->
        ET.find_child "v" cell = Some node -> ET.text node = Some raw ->
        cell_value shared_strings cell
        = i ← Py.int raw; Py.getitem shared_strings i)
  /\ (forall cell node raw,
        ET.attrib cell !! "t" <> Some "inlineStr" ->
        ET.attrib cell !! "t" <> Some "s" ->
        ET.find_child "v" cell = Some node -> ET.text node = Some raw ->
        cell_value shared_strings cell = Ok raw)
  /\ (forall cell,
        ET.attrib cell !! "t" <> Some "inlineStr" ->
        match ET.find_child "v" cell with
        | Some node => ET.text node = None
        | None => True
        end ->
        cell_value shared_strings cell = Ok EmptyString)
  /\ (forall s,
        (exists l r, s = l +:+ PyStr.strip s +:+ r
                     /\ PyStr.all_chars PyStr.isspace l = true
                     /\ PyStr.all_chars PyStr.isspace r = true)
        /\ (forall c, PyStr.first_char (PyStr.strip s) = Some c ->
                      PyStr.isspace c = false)
        /\ (forall c, PyStr.last_char (PyStr.strip s) = Some c ->
                      PyStr.isspace c = false)).
Proof.
  intros H. apply parse_rows_spec in H.
  split; [|split; [apply sheet_rows_document_order|]];
    [|split; [|split; [|split; [|split; [|split]]]]].
  - eapply Forall2_impl; [exact H|]. intros row values Hrow. cbn zeta.
    unfold parse_row in Hrow. split; [done|].
    destruct (parse_row_entries _ _ _ _ Hrow) as [Hsound Hcompl].
    split; [|split; [|done]].
    + intros Hnil. rewrite Hnil in Hrow. simpl in Hrow. by injection Hrow.
    + intros k v Hk. destruct (Hsound k v Hk) as [Hinit|(cell & value & ? & Hne & -> & ? & ?)].
      * by rewrite lookup_empty in Hinit.
      * exists cell, value. by rewrite cell_col_idx_exact.
  - intros values cell. unfold parse_cell. by destruct (decide _).
  - apply cell_value_inline.
  - apply cell_value_shared.
  - apply cell_value_literal.
  - apply cell_value_missing.
  - apply strip_spec.
Qed.

Lemma worksheet_row_parser_spec_witness :
  exists rows,
    parse_rows (load_shared_strings (Some Sample.pool_doc)) Sample.survey_sheet
    = Ok rows
    /\ rows
       = [ {[ 0%N := "Finished"; 1%N := "Q35_1" ]};
           {[ 0%N := "Finished"; 1%N := "Rank the courses - Tax Law" ]};
           ∅;
           {[ 0%N := "1"; 1%N := "8" ]};
           {[ 0%N := "1"; 1%N := "1" ]} ]
    /\ forall s c, PyStr.first_char (PyStr.strip s) = Some c ->
                   PyStr.isspace c = false.
Proof.
  eexists. split; [vm_compute; reflexivity|]. split; [vm_compute; reflexivity|].
  intros s.
  destruct (worksheet_row_parser_spec
              (load_shared_strings (Some Sample.pool_doc)) Sample.survey_sheet _
              ltac:(vm_compute; reflexivity)) as (_ & _ & _ & _ & _ & _ & _ & Hs).
  exact (proj1 (proj2 (Hs s))).
Defined.

(** ** The table assembler *)

Section Assembler.

Lemma foldl_max_spec xs : forall x,
  (x <= foldl N.max x xs)%N
  /\ (forall y, y ∈ xs -> (y <= foldl N.max x xs)%N)
  /\ (foldl N.max x xs = x \/ foldl N.max x xs ∈ xs).
Proof.
  induction xs as [|a xs IH]; intros x; simpl.
  - split; [lia|]. split; [by intros ? ?%elem_of_nil|by left].
  - destruct (IH (N.max x a)) as (Hx & Hall & Hin). split; [lia|]. split.
    + intros y [->|Hy]%elem_of_cons; [lia|by apply Hall].
    + destruct Hin as [Heq|Hin]; [|right; by apply list_elem_of_further].
      rewrite Heq. destruct (N.max_spec x a) as [[_ ->]|[_ ->]];
        [right; apply list_elem_of_here|by left].
Qed.

Lemma row_max_key_spec (row : gmap N string) :
  (forall k, is_Some (row !! k) -> (k <= row_max_key row)%N)
  /\ (row_max_key row = 0%N \/ is_Some (row !! row_max_key row)).
Proof.
  unfold row_max_key, Py.max_default.
  destruct (elements (dom row)) as [|x xs] eqn:E.
  - split; [|by left]. intros k Hk%elem_of_dom%elem_of_elements.
    rewrite E in Hk. by apply elem_of_nil in Hk.
  - destruct (foldl_max_spec xs x) as (Hx & Hall & Hin). split.
    + intros k Hk%elem_of_dom%elem_of_elements. rewrite E in Hk.
      apply elem_of_cons in Hk as [->|Hk]; [done|by apply Hall].
    + right. apply elem_of_dom, elem_of_elements. rewrite E.
      destruct Hin as [->|Hin]; [apply list_elem_of_here|by apply list_elem_of_further].
Qed.

Lemma max_col_spec rows max_col :
  Py.max (row_max_key <$> rows) = Ok max_col -> observed_max rows max_col.
Proof.
  destruct rows as [|r rows]; [done|]. rewrite fmap_cons.
  unfold Py.max. intros [= <-].
  destruct (foldl_max_spec (row_max_key <$> rows) (row_max_key r))
    as (Hx & Hall & Hin).
  assert (forall row, row ∈ r :: rows ->
            (row_max_key row <= foldl N.max (row_max_key r) (row_max_key <$> rows))%N)
    as Hle.
  { intros row [->|Hrow]%elem_of_cons; [done|].
    apply Hall. by apply list_elem_of_fmap_2. }
  split.
  - intros row k Hrow Hk.
    destruct (row_max_key_spec row) as [Hub _]. specialize (Hub k Hk).
    exact (N.le_trans _ _ _ Hub (Hle row Hrow)).
  - destruct Hin as [Heq|Hin].
    + rewrite Heq. destruct (row_max_key_spec r) as [_ [?|?]]; [by left|].
      right. exists r. split; [apply list_elem_of_here|done].
    + apply list_elem_of_fmap in Hin as (row & Heq & Hrow). rewrite Heq.
      destruct (row_max_key_spec row) as [_ [?|?]]; [by left|].
      right. exists row. split; [by apply list_elem_of_further|done].
Qed.

Lemma py_range_succ n : py_range (N.succ n) = py_range n ++ [n].
Proof.
  unfold py_range. rewrite N2Nat.inj_succ, seq_S, fmap_app. simpl.
  by rewrite N2Nat.id.
Qed.

Lemma dict_get_set {V} k k' (v : V) d :
  Dict.get k (Dict.set k' v d) = if decide (k' = k) then Some v else Dict.get k d.
Proof.
  induction d as [|[k0 v0] d IH]; simpl.
  - by destruct (decide (k' = k)).
  - destruct (decide (k0 = k')) as [->|Hne]; simpl.
    + by destruct (decide (k' = k)).
    + destruct (decide (k0 = k)) as [->|Hk]; [by rewrite decide_False|].
      by rewrite IH.
Qed.

Lemma last_index_snoc l c name i :
  last_index (l ++ [c]) name i <->
  (c = name /\ i = length l) \/ (c <> name /\ last_index l name i).
Proof.
  unfold last_index. split.
  - intros [Hi Hlast]. destruct (decide (c = name)) as [->|Hne].
    + left. split; [done|].
      destruct (decide (i < length l)%nat) as [Hlt|Hge].
      * exfalso. apply (Hlast (length l) Hlt).
        by rewrite lookup_app_r, Nat.sub_diag by lia.
      * apply lookup_lt_Some in Hi. rewrite length_app in Hi. simpl in Hi. lia.
    + right. split; [done|].
      assert (i < length l)%nat as Hlt.
      { destruct (decide (i < length l)%nat) as [|Hge]; [done|].
        rewrite lookup_app_r in Hi by lia.
        by apply list_lookup_singleton_Some in Hi as [_ ?]. }
      split; [by rewrite lookup_app_l in Hi|].
      intros j Hj Hl. apply (Hlast j Hj).
      apply lookup_lt_Some in Hl as Hjl. by rewrite lookup_app_l.
  - intros [[-> ->]|[Hne [Hi Hlast]]].
    + split; [by rewrite lookup_app_r, Nat.sub_diag by lia|].
      intros j Hj Hl. apply lookup_lt_Some in Hl.
      rewrite length_app in Hl. simpl in Hl. lia.
    + apply lookup_lt_Some in Hi as Hlt.
      split; [by rewrite lookup_app_l|].
      intros j Hj Hl. destruct (decide (j < length l)%nat) as [Hjl|Hjl].
      * rewrite lookup_app_l in Hl by done. by apply (Hlast j).
      * rewrite lookup_app_r in Hl by lia.
        by apply list_lookup_singleton_Some in Hl as [_ ?].
Qed.

Lemma last_index_exists l name : name ∈ l -> exists i, last_index l name i.
Proof.
  induction l as [|c l IH] using rev_ind; [by intros ?%elem_of_nil|].
  intros Hin. destruct (decide (c = name)) as [->|Hne].
  - exists (length l). apply last_index_snoc. by left.
  - apply elem_of_app in Hin as [Hin|Hin%list_elem_of_singleton]; [|done].
    destruct (IH Hin) as [i Hi]. exists i. apply last_index_snoc. by right.
Qed.

Lemma last_index_NoDup l name i :
  NoDup l -> l !! i = Some name -> last_index l name i.
Proof.
  intros Hnd Hi. split; [done|]. intros j Hj Hl.
  pose proof (NoDup_lookup _ _ _ _ Hnd Hi Hl). lia.
Qed.

Variables header_row question_row : gmap N string.

#[local] Abbreviation schema_upto :=
  (build_schema_upto header_row question_row).

Lemma schema_upto_succ n :
  schema_upto (N.succ n)
  = schema_step header_row question_row (schema_upto n) n.
Proof. unfold build_schema_upto. by rewrite py_range_succ, foldl_snoc. Qed.

Lemma schema_upto_spec n :
  length (schema_upto n).1 = N.to_nat n
  /\ (forall i, (i < N.to_nat n)%nat ->
        (schema_upto n).1 !! i
        = Some (default (synthetic_name (N.of_nat i)) (header_row !! N.of_nat i)))
  /\ (forall name i, last_index (schema_upto n).1 name i ->
        Dict.get name (schema_upto n).2
        = Some (default EmptyString (question_row !! N.of_nat i)))
  /\ (forall name, is_Some (Dict.get name (schema_upto n).2) ->
        name ∈ (schema_upto n).1).
Proof.
  induction n as [|n (Hlen & Hnames & Hq & Hdom)] using N.peano_ind.
  - split; [done|]. split; [intros i; simpl; lia|].
    split; [by intros name i [? _]|]. by intros name [? ?].
  - rewrite schema_upto_succ. unfold schema_step. cbn [fst snd].
    set (col_name := default (synthetic_name n) (header_row !! n)).
    split; [rewrite length_app, Hlen; simpl; lia|]. split; [|split].
    + intros i Hi. destruct (decide (i < N.to_nat n)%nat) as [Hlt|Hge].
      * rewrite lookup_app_l by lia. by apply Hnames.
      * assert (i = N.to_nat n) as -> by lia.
        rewrite lookup_app_r, Hlen, Nat.sub_diag by lia.
        by rewrite N2Nat.id.
    + intros name i Hi. rewrite dict_get_set.
      apply last_index_snoc in Hi as [[-> ->]|[Hne Hi]].
      * rewrite decide_True by done. by rewrite Hlen, N2Nat.id.
      * rewrite decide_False by done. by apply Hq.
    + intros name. rewrite dict_get_set. destruct (decide (col_name = name)) as [<-|Hne].
      * intros _. apply elem_of_app. right. apply list_elem_of_here.
      * intros H. apply elem_of_app. left. by apply Hdom.
Qed.

Lemma make_record_snoc columns c row :
  make_record (columns ++ [c]) row
  = <[c := default EmptyString (row !! N.of_nat (length columns))]>
      (make_record columns row).
Proof.
  unfold make_record. rewrite imap_app, foldl_app. simpl.
  by rewrite Nat.add_0_r.
Qed.

Lemma make_record_spec columns row :
  (forall name i, last_index columns name i ->
     make_record columns row !! name
     = Some (default EmptyString (row !! N.of_nat i)))
  /\ (forall name, is_Some (make_record columns row !! name) <-> name ∈ columns).
Proof.
  induction columns as [|c columns [Hval Hdom]] using rev_ind.
  - split; [by intros name i [? _]|].
    intros name. unfold make_record. simpl. rewrite lookup_empty.
    split; [by intros [? ?]|by intros ?%elem_of_nil].
  - rewrite make_record_snoc. split.
    + intros name i [[-> ->]|[Hne Hi]]%last_index_snoc.
      * by rewrite lookup_insert_eq.
      * rewrite lookup_insert_ne by done. by apply Hval.
    + intros name. rewrite elem_of_app, list_elem_of_singleton, lookup_insert.
      case_decide as Hc; [subst; split; [by right|by eexists]|].
      rewrite Hdom. split; [by left|]. by intros [?|?].
Qed.

End Assembler.

Lemma synthetic_name_inj i j : synthetic_name i = synthetic_name j -> i = j.
Proof.
  unfold synthetic_name. intros H.
  assert (pretty i = pretty j) as Hp by (by simplify_eq/=).
  by apply (inj pretty) in Hp.
Qed.

(** C1 (amended): for at least 4 raw rows the assembler returns
    [max_col + 1] column names, [max_col] being the greatest column index
    present in any row (0 when there is none); the name at index [i] is
    row 0's value at [i], or the synthetic name "COL_i", which determines
    [i]; the question mapping gives each column name row 1's value at the
    last index that carries the name (the empty string if absent), which
    is the column's own index when the names are distinct; there is one
    record per row from index 3 on, row 2 feeding none, each record having
    exactly the column names as keys and holding the row's value at the
    last index of the name (the empty string if absent); five rows give
    two records. *)
Theorem table_assembler_spec (rows : list (gmap N string)) :
  (4 <= length rows)%nat ->
  exists header_row question_row max_col columns records questions,
    rows !! 0%nat = Some header_row /\ rows !! 1%nat = Some question_row
    /\ observed_max rows max_col
    /\ assemble_table rows = Ok (columns, records, questions)
    /\ length columns = (N.to_nat max_col + 1)%nat
    /\ (forall i, (i < length columns)%nat ->
          columns !! i
          = Some (default (synthetic_name (N.of_nat i))
                          (header_row !! N.of_nat i)))
    /\ (forall i j, synthetic_name i = synthetic_name j -> i = j)
    /\ (forall name i, last_index columns name i ->
          Dict.get name questions
          = Some (default EmptyString (question_row !! N.of_nat i)))
    /\ (forall name, is_Some (Dict.get name questions) -> name ∈ columns)
    /\ length records = (length rows - 3)%nat
    /\ (forall j record, records !! j = Some record ->
          exists row, rows !! (3 + j)%nat = Some row
            /\ (forall name, is_Some (record !! name) <-> name ∈ columns)
            /\ (forall name i, last_index columns name i ->
                  record !! name
                  = Some (default EmptyString (row !! N.of_nat i))))
    /\ (length rows = 5%nat -> length records = 2%nat)
    /\ (NoDup columns -> assembler_positional rows).
Proof.
  intros Hlen.
  destruct (assemble_table_long rows Hlen)
    as (header_row & question_row & max_col & H0 & H1 & Hmax & Hasm).
  change (build_schema header_row question_row max_col)
    with (build_schema_upto header_row question_row (max_col + 1)) in Hasm.
  rewrite N.add_1_r in Hasm.
  destruct (schema_upto_spec header_row question_row (N.succ max_col))
    as (Hclen & Hnames & Hq & Hdom).
  set (columns := (build_schema_upto header_row question_row (N.succ max_col)).1) in *.
  set (questions := (build_schema_upto header_row question_row (N.succ max_col)).2) in *.
  assert (length columns = (N.to_nat max_col + 1)%nat) as Hclen' by lia.
  assert (forall j record, (make_record columns <$> drop 3 rows) !! j = Some record ->
            exists row, rows !! (3 + j)%nat = Some row
              /\ (forall name, is_Some (record !! name) <-> name ∈ columns)
              /\ (forall name i, last_index columns name i ->
                    record !! name
                    = Some (default EmptyString (row !! N.of_nat i)))) as Hrec.
  { intros j record Hj. rewrite list_lookup_fmap, lookup_drop in Hj.
    destruct (rows !! (3 + j)%nat) as [row|]; [|done]. injection Hj as <-.
    exists row. split; [done|]. destruct (make_record_spec columns row). by split. }
  assert (forall i, (i < length columns)%nat ->
            columns !! i
            = Some (default (synthetic_name (N.of_nat i)) (header_row !! N.of_nat i)))
    as Hnames' by (intros i Hi; apply Hnames; lia).
  assert (length (make_record columns <$> drop 3 rows) = (length rows - 3)%nat)
    as Hrlen by (by rewrite length_fmap, length_drop).
  exists header_row, question_row, max_col, columns,
    (make_record columns <$> drop 3 rows), questions.
  do 4 (split; [by auto using max_col_spec|]).
  split; [done|]. split; [done|]. split; [apply synthetic_name_inj|].
  split; [done|]. split; [done|]. split; [done|]. split; [done|].
  split; [rewrite Hrlen; lia|].
  intros Hnd.
  exists header_row, question_row, max_col, columns,
    (make_record columns <$> drop 3 rows), questions.
  do 4 (split; [by auto using max_col_spec|]).
  split; [done|]. split; [done|].
  split; [intros i name Hi; by apply Hq, last_index_NoDup|].
  split; [done|].
  intros j record Hj. destruct (Hrec j record Hj) as (row & Hrow & _ & Hval).
  exists row. split; [done|]. intros i name Hi. by apply Hval, last_index_NoDup.
Qed.

Lemma table_assembler_spec_witness :
  exists columns records questions,
    assemble_table Sample.five_rows = Ok (columns, records, questions)
    /\ columns = ["Finished"; "COL_1"; "Q35_1"]
    /\ length records = 2%nat.
Proof.
  destruct (table_assembler_spec Sample.five_rows ltac:(vm_compute; lia))
    as (h & q & m & columns & records & questions
        & _ & _ & _ & Hasm & _ & _ & _ & _ & _ & _ & _ & Hfive & _).
  exists columns, records, questions. split; [exact Hasm|].
  split; [|exact (Hfive eq_refl)].
  vm_compute in Hasm. by injection Hasm as <- _ _.
Defined.

(** With two header cells of the same name the question mapping holds,
    for that name, row 1's value at the later index: read position by
    position the contract fails at index 0. *)
Lemma assembler_positional_fails :
  (4 <= length Sample.duplicate_header_rows)%nat
  /\ ~ assembler_positional Sample.duplicate_header_rows.
Proof.
  split; [vm_compute; lia|].
  intros (h & q & m & columns & records & questions
          & _ & Hq' & _ & Hasm & _ & _ & Hq & _).
  vm_compute in Hasm. injection Hasm as <- _ <-.
  injection Hq' as <-.
  specialize (Hq 0%nat "X" eq_refl). vm_compute in Hq. discriminate.
Qed.

(** ** Normalized scores *)

Section Scores.

(** The two formulas are exact in binary64 on their valid inputs. *)
Lemma norm_core_binary64 rank :
  1 <= rank <= 8 ->
  exists q, float_value (norm_core_float rank) = Some q
            /\ (q == norm_core rank)%Q.
Proof.
  intros H.
  assert (rank = 1 \/ rank = 2 \/ rank = 3 \/ rank = 4
          \/ rank = 5 \/ rank = 6 \/ rank = 7 \/ rank = 8) as Hcases by lia.
  repeat destruct Hcases as [->|Hcases]; try subst rank;
    (eexists; split; [vm_compute; reflexivity|reflexivity]).
Qed.

Lemma norm_elective_binary64 rating :
  1 <= rating <= 5 ->
  exists q, float_value (norm_elective_float rating) = Some q
            /\ (q == norm_elective rating)%Q.
Proof.
  intros H.
  assert (rating = 1 \/ rating = 2 \/ rating = 3 \/ rating = 4 \/ rating = 5)
    as Hcases by lia.
  repeat destruct Hcases as [->|Hcases]; try subst rating;
    (eexists; split; [vm_compute; reflexivity|reflexivity]).
Qed.

Lemma score_field_spec kind questions row respondent_id st field :
  score_field kind questions row respondent_id st field
  = match clean_numeric (default EmptyString (row !! field)) with
    | Raise e => Raise e
    | Ok None => Ok st
    | Ok (Some v) =>
        if bool_decide (1 <= v <= match kind with Core => 8 | Elective => 5 end)
        then Ok (record_score kind respondent_id
                   (parse_course_name
                      (default EmptyString (Dict.get field questions)))
                   v
                   (match kind with
                    | Core => norm_core v
                    | Elective => norm_elective v
                    end) st)
        else Ok st
    end.
Proof.
  unfold score_field.
  destruct (clean_numeric _) as [[v|]|e]; simpl; [|done..].
  case_bool_decide as Hv.
  - destruct (Z.ltb_spec v 1); [lia|]. simpl.
    destruct kind; [destruct (Z.ltb_spec 8 v)|destruct (Z.ltb_spec 5 v)];
      (lia || done).
  - destruct (Z.ltb_spec v 1); [done|]. simpl.
    destruct kind; [destruct (Z.ltb_spec 8 v)|destruct (Z.ltb_spec 5 v)];
      (done || lia).
Qed.

(** Integer literals below 2^53 are read exactly; larger ones give a value
    of at least 2^53 or the infinity. *)
Lemma round_binary64_small n : n < 2 ^ 53 -> round_binary64 n = Some n.
Proof. intros H. unfold round_binary64. by destruct (Z.ltb_spec n (2 ^ 53)); [|lia]. Qed.

Lemma round_binary64_large n v :
  2 ^ 53 <= n -> round_binary64 n = Some v -> 2 ^ 53 <= v.
Proof.
  intros Hn. unfold round_binary64.
  destruct (Z.ltb_spec n (2 ^ 53)); [lia|]. cbn zeta.
  set (shift := Z.log2 n - 52).
  assert (53 <= Z.log2 n) as Hlog by (apply (Z.log2_le_mono (2 ^ 53)) in Hn; done).
  assert (1 <= shift) as Hshift by lia.
  set (q := Z.shiftr n shift).
  assert (2 ^ 52 <= q) as Hq.
  { subst q. rewrite Z.shiftr_div_pow2 by lia.
    apply Z.div_le_lower_bound; [apply Z.pow_pos_nonneg; lia|].
    rewrite Z.mul_comm, <- Z.pow_add_r by lia.
    replace (52 + shift) with (Z.log2 n) by lia.
    apply Z.log2_spec. lia. }
  set (q' := if _ : bool then q + 1 else q).
  assert (q <= q') as Hq' by (subst q'; destruct (_ || _); lia).
  destruct (Z.ltb_spec (Z.shiftl q' shift) (2 ^ 1024)); [|done].
  intros [= <-]. rewrite Z.shiftl_mul_pow2 by lia.
  assert (2 ^ 1 <= 2 ^ shift) by (apply Z.pow_le_mono_r; lia).
  change (2 ^ 53) with (2 ^ 52 * 2 ^ 1). nia.
Qed.

End Scores.

(** C7 (amended): on a finished record a core ranking field with value "1"
    gives the normalized score 100.0 exactly, and the value "8" gives 12.5
    exactly, both as rationals and as binary64 floats. *)
Theorem core_rank_extremes questions row respondent_id st field :
  let course :=
    parse_course_name (default EmptyString (Dict.get field questions)) in
  score_field Core questions (<[field := "1"]> row) respondent_id st field
  = Ok (record_score Core respondent_id course 1 (norm_core 1) st)
  /\ (norm_core 1 == 100)%Q /\ norm_core_float 1 = 100%float
  /\ score_field Core questions (<[field := "8"]> row) respondent_id st field
     = Ok (record_score Core respondent_id course 8 (norm_core 8) st)
  /\ (norm_core 8 == 25 # 2)%Q /\ norm_core_float 8 = 12.5%float.
Proof.
  cbn zeta. rewrite !score_field_spec, !lookup_insert_eq.
  repeat split.
Qed.

(** A finished record whose only core field holds "8": the course gets the
    single score 12.5, which is not 0. *)
Lemma core_rank_8_not_zero :
  exists st x,
    process_record Sample.rank_questions (AggState [] []) Sample.rank_8_record
    = Ok st
    /\ course_scores st = [("Tax Law", ([x], []))]
    /\ (x == 25 # 2)%Q /\ ~ (x == 0)%Q
    /\ PrimFloat.eqb (norm_core_float 8) 0%float = false.
Proof.
  eexists _, _. split; [vm_compute; reflexivity|].
  split; [reflexivity|]. split; [reflexivity|]. split; [|reflexivity].
  intros H. vm_compute in H. discriminate.
Qed.

(** What the loop body does with a field, by the outcome of
    [clean_numeric] on its value. *)
Lemma field_scoring_cases kind questions row respondent_id st field :
  let raw := default EmptyString (row !! field) in
  let hi := match kind with Core => 8 | Elective => 5 end in
  let course :=
    parse_course_name (default EmptyString (Dict.get field questions)) in
  let norm := match kind with Core => norm_core | Elective => norm_elective end in
  (forall v, clean_numeric raw = Ok (Some v) -> 1 <= v <= hi ->
     score_field kind questions row respondent_id st field
     = Ok (record_score kind respondent_id course v (norm v) st))
  /\ (forall v, clean_numeric raw = Ok (Some v) -> ~ 1 <= v <= hi ->
        score_field kind questions row respondent_id st field = Ok st)
  /\ (clean_numeric raw = Ok None ->
        score_field kind questions row respondent_id st field = Ok st)
  /\ (forall e, clean_numeric raw = Raise e ->
        score_field kind questions row respondent_id st field = Raise e).
Proof.
  cbn zeta. rewrite score_field_spec. repeat split.
  - intros v -> Hv. rewrite bool_decide_eq_true_2 by done. by destruct kind.
  - intros v -> Hv. by rewrite bool_decide_eq_false_2.
  - by intros ->.
  - by intros e ->.
Qed.

Lemma process_record_unfinished questions st row :
  is_finished row = false -> process_record questions st row = Ok st.
Proof. intros H. unfold process_record. by rewrite H. Qed.

Example field_scoring_samples questions row respondent_id st field :
  score_field Core questions (<[field := "9"]> row) respondent_id st field = Ok st
  /\ score_field Elective questions (<[field := "0"]> row) respondent_id st field
     = Ok st
  /\ score_field Core questions (<[field := "n/a"]> row) respondent_id st field
     = Ok st
  /\ (norm_elective 5 == 100)%Q /\ (norm_elective 1 == 0)%Q
  /\ norm_elective_float 5 = 100%float /\ norm_elective_float 1 = 0%float.
Proof. rewrite !score_field_spec, !lookup_insert_eq. repeat split. Qed.

(** C6: on a finished record the loop body discards a field whose value is
    not numeric or is out of range and scores the others by the two
    formulas; but a digit string denoting 2^1024 - 2^970 or more makes
    [clean_numeric] raise [OverflowError], which ends the run: here for
    the rank 1 followed by 309 zeros. *)
Theorem huge_rank_aborts :
  clean_numeric Sample.huge_number = Raise OverflowError
  /\ is_finished Sample.huge_rank_record = true
  /\ aggregate Sample.rank_questions [Sample.huge_rank_record]
     = Raise OverflowError.
Proof. repeat split; vm_compute; reflexivity. Qed.

(** ** The order on names and on sort keys *)

Section Order.

Lemma ord_inj a b : PyStr.ord a = PyStr.ord b -> a = b.
Proof.
  unfold PyStr.ord. intros H%(inj Z.of_N).
  rewrite <- (ascii_N_embedding a), <- (ascii_N_embedding b). by rewrite H.
Qed.

Lemma str_ltb_trichotomy s : forall t,
  (PyStr.ltb s t = true /\ PyStr.ltb t s = false)
  \/ (s = t /\ PyStr.ltb s t = false)
  \/ (PyStr.ltb t s = true /\ PyStr.ltb s t = false).
Proof.
  induction s as [|a s IH]; intros [|b t]; simpl; auto.
  destruct (Z.ltb_spec (PyStr.ord a) (PyStr.ord b)) as [Hab|Hab],
           (Z.ltb_spec (PyStr.ord b) (PyStr.ord a)) as [Hba|Hba];
    try lia; auto.
  - destruct (Z.eqb_spec (PyStr.ord b) (PyStr.ord a)); [lia|auto].
  - destruct (Z.eqb_spec (PyStr.ord a) (PyStr.ord b)); [lia|auto].
  - assert (PyStr.ord a = PyStr.ord b) as Heq by lia.
    rewrite Heq, Z.eqb_refl. apply ord_inj in Heq as ->.
    destruct (IH t) as [?|[[-> ?]|?]]; auto.
Qed.

Lemma str_ltb_trans s : forall t u,
  PyStr.ltb s t = true -> PyStr.ltb t u = true -> PyStr.ltb s u = true.
Proof.
  induction s as [|a s IH]; intros [|b t] [|c u]; simpl; try done.
  destruct (Z.ltb_spec (PyStr.ord a) (PyStr.ord b)),
           (Z.ltb_spec (PyStr.ord b) (PyStr.ord c)),
           (Z.ltb_spec (PyStr.ord a) (PyStr.ord c));
    try done; try lia;
    destruct (Z.eqb_spec (PyStr.ord a) (PyStr.ord b)),
             (Z.eqb_spec (PyStr.ord b) (PyStr.ord c)),
             (Z.eqb_spec (PyStr.ord a) (PyStr.ord c));
    try done; try lia.
  apply IH.
Qed.

Lemma key_lt_iff a b : key_lt a b = true <-> ranks_before a b.
Proof.
  unfold key_lt, ranks_before, Qltb.
  destruct (Qeq_bool _ _) eqn:Hq; simpl.
  - apply Qeq_bool_iff in Hq.
    destruct (Z.eqb_spec (- num_responses a) (- num_responses b)) as [Hn|Hn]; simpl.
    + split; [intros H; right; split; [lra|right; split; [lia|done]]|].
      intros [?|[_ [?|[_ ?]]]]; [lra|lia|done].
    + rewrite Z.ltb_lt. split; [intros H; right; split; [lra|left; lia]|].
      intros [?|[_ [?|[? _]]]]; [lra|lia|lia].
  - apply Qeq_bool_neq in Hq. rewrite negb_true_iff.
    split.
    + intros H. left.
      destruct (Qlt_le_dec (overall_score b) (overall_score a)) as [|Hle]; [done|].
      assert (- overall_score b <= - overall_score a)%Q as Hle' by lra.
      apply Qle_bool_iff in Hle'. congruence.
    + intros [Hlt|[Heq _]]; [|lra].
      destruct (Qle_bool _ _) eqn:Hle; [|done].
      apply Qle_bool_iff in Hle. lra.
Qed.

Lemma ranks_before_asym a b : ranks_before a b -> ~ ranks_before b a.
Proof.
  unfold ranks_before.
  destruct (str_ltb_trichotomy (course a) (course b)) as [[? ?]|[[? ?]|[? ?]]];
    intros [?|[? [?|[? ?]]]] [?|[? [?|[? ?]]]]; try lra; try lia; congruence.
Qed.

Lemma ranks_before_neg_trans a b c :
  ~ ranks_before b a -> ~ ranks_before c b -> ~ ranks_before c a.
Proof.
  unfold ranks_before. intros Hba Hcb Hca.
  destruct (Q_dec (overall_score a) (overall_score b)) as [[?|?]|?],
           (Q_dec (overall_score b) (overall_score c)) as [[?|?]|?];
    try (apply Hba; left; lra); try (apply Hcb; left; lra);
    try (destruct Hca as [?|[? _]]; lra).
  destruct (Z.lt_total (num_responses a) (num_responses b)) as [?|[?|?]],
           (Z.lt_total (num_responses b) (num_responses c)) as [?|[?|?]];
    try (apply Hba; right; split; [lra|left; lia]);
    try (apply Hcb; right; split; [lra|left; lia]);
    try (destruct Hca as [?|[? [?|[? _]]]]; (lra || lia)).
  destruct Hca as [?|[? [?|[? Hs]]]]; [lra|lia|].
  destruct (str_ltb_trichotomy (course b) (course a)) as [[? ?]|[[Heq ?]|[? ?]]].
  - apply Hba. right. split; [lra|right; split; [lia|done]].
  - apply Hcb. right. split; [lra|right; split; [lia|]]. by rewrite Heq.
  - apply Hcb. right. split; [lra|right; split; [lia|]].
    by apply str_ltb_trans with (course a).
Qed.

Lemma ranks_before_total a b :
  course a <> course b -> ranks_before a b \/ ranks_before b a.
Proof.
  unfold ranks_before. intros Hne.
  destruct (Q_dec (overall_score a) (overall_score b)) as [[?|?]|?]; auto.
  destruct (Z.lt_total (num_responses a) (num_responses b)) as [?|[?|?]];
    [right; right; split; [lra|auto]| |left; right; split; [lra|auto]].
  destruct (str_ltb_trichotomy (course a) (course b)) as [[? ?]|[[? ?]|[? ?]]];
    [left|done|right]; right; (split; [lra|right; split; [lia|done]]).
Qed.

End Order.

(** ** Sorting *)

Section Sorting.

Lemma key_le_trans a b c : key_le a b -> key_le b c -> key_le a c.
Proof.
  unfold key_le. intros Hab Hbc.
  destruct (key_lt c a) eqn:Hca; [|done]. exfalso.
  apply key_lt_iff in Hca.
  apply (ranks_before_neg_trans a b c); [| |done]; rewrite <- key_lt_iff; congruence.
Qed.

Lemma key_lt_le a b : key_lt a b = true -> key_le a b.
Proof.
  unfold key_le. intros H%key_lt_iff%ranks_before_asym.
  destruct (key_lt b a) eqn:E; [|done]. by apply key_lt_iff in E.
Qed.

Lemma sort_insert_perm x l : sort_insert x l ≡ₚ x :: l.
Proof.
  induction l as [|y l IH]; simpl; [done|].
  destruct (key_lt y x); [|done]. by rewrite IH, Permutation_swap.
Qed.

Lemma py_sort_perm l : py_sort l ≡ₚ l.
Proof.
  induction l as [|x l IH]; simpl; [done|].
  by rewrite sort_insert_perm, IH.
Qed.

Lemma sort_insert_sorted x l :
  StronglySorted key_le l -> StronglySorted key_le (sort_insert x l).
Proof.
  induction 1 as [|y l Hs IH Hall]; simpl; [by repeat constructor|].
  destruct (key_lt y x) eqn:Hyx.
  - constructor; [done|]. rewrite sort_insert_perm.
    constructor; [by apply key_lt_le|done].
  - constructor; [by constructor|]. constructor; [done|].
    eapply Forall_impl; [done|]. intros z Hz. by apply key_le_trans with y.
Qed.

Lemma py_sort_sorted l : StronglySorted key_le (py_sort l).
Proof.
  induction l as [|x l IH]; simpl; [constructor|by apply sort_insert_sorted].
Qed.

Lemma StronglySorted_lookup_lt {A} (R : relation A) l i j a b :
  StronglySorted R l -> (i < j)%nat ->
  l !! i = Some a -> l !! j = Some b -> R a b.
Proof.
  intros Hs. revert i j. induction Hs as [|x l Hs IH Hall]; intros i j Hij Hi Hj.
  - done.
  - destruct j as [|j]; [lia|]. simpl in Hj.
    destruct i as [|i]; simpl in Hi.
    + injection Hi as <-. rewrite Forall_forall in Hall.
      apply Hall. by eapply list_elem_of_lookup_2.
    + apply (IH i j); [lia|done..].
Qed.

End Sorting.

(** ** Aggregation *)

Section Aggregation.

Lemma dict_keys_set {V} k (v : V) d :
  Dict.keys (Dict.set k v d)
  = if decide (k ∈ Dict.keys d) then Dict.keys d else Dict.keys d ++ [k].
Proof.
  unfold Dict.keys. induction d as [|[k0 v0] d IH]; [done|]. cbn [Dict.set].
  destruct (decide (k0 = k)) as [->|Hne]; rewrite !fmap_cons; cbn [fst].
  - rewrite decide_True; [done|]. apply list_elem_of_here.
  - rewrite IH. destruct (decide (k ∈ d.*1)) as [Hin|Hin].
    + rewrite decide_True; [done|]. by apply list_elem_of_further.
    + rewrite decide_False; [done|]. by intros [?|?]%elem_of_cons.
Qed.

Lemma dict_keys_set_NoDup {V} k (v : V) d :
  NoDup (Dict.keys d) -> NoDup (Dict.keys (Dict.set k v d)).
Proof.
  intros Hnd. rewrite dict_keys_set. case_decide as Hk; [done|].
  apply NoDup_app. split; [done|]. split; [|apply NoDup_singleton].
  intros x Hx ->%list_elem_of_singleton. done.
Qed.

Lemma dict_get_elem {V} k (v : V) d :
  NoDup (Dict.keys d) -> (k, v) ∈ d <-> Dict.get k d = Some v.
Proof.
  unfold Dict.keys. induction d as [|[k0 v0] d IH]; intros Hnd.
  - split; [by intros ?%elem_of_nil|done].
  - rewrite fmap_cons in Hnd. cbn [fst Dict.get] in *.
    apply NoDup_cons in Hnd as [Hk0 Hnd]. rewrite elem_of_cons.
    destruct (decide (k0 = k)) as [->|Hne].
    + split; [|intros [= ->]; by left].
      intros [[= ->]|Hin]; [done|]. exfalso. apply Hk0.
      apply list_elem_of_fmap. by exists (k, v).
    + rewrite <- IH by done. split; [intros [[= ? ?]|?]; done|by right].
Qed.

Lemma contributions_snoc kind name rows lr :
  contributions kind name (rows ++ [lr])
  = contributions kind name rows
    ++ (if decide (long_course lr = name /\ source_type lr = kind)
        then [normalized_score lr] else []).
Proof.
  unfold contributions. rewrite filter_app, fmap_app. f_equal.
  rewrite filter_cons, filter_nil. by case_decide.
Qed.

Lemma record_score_inv kind rid name v x st :
  agg_inv st -> agg_inv (record_score kind rid name v x st).
Proof.
  intros [Hnd Hget]. unfold record_score, append_score. cbn [course_scores long_rows].
  pose proof (Hget name) as Hname.
  destruct (default ([], []) (Dict.get name (course_scores st))) as [core elec] eqn:Hd.
  assert (core = contributions Core name (long_rows st)
          /\ elec = contributions Elective name (long_rows st)) as [-> ->].
  { rewrite Hname in Hd. unfold pooled_scores in Hd.
    destruct (contributions Core name (long_rows st)) as [|q core'] eqn:Hc;
      destruct (contributions Elective name (long_rows st)) as [|q' elec'] eqn:He;
      simpl in Hd; by injection Hd as <- <-. }
  split; [by apply dict_keys_set_NoDup|].
  intros c. cbn [course_scores long_rows].
  rewrite dict_get_set. unfold pooled_scores.
  rewrite !contributions_snoc. cbn [long_course source_type normalized_score].
  destruct (decide (name = c)) as [<-|Hne].
  - destruct kind.
    + rewrite decide_True by done. rewrite (decide_False (P := _ /\ Core = Elective)) by (by intros [_ ?]).
      rewrite app_nil_r.
      by destruct (contributions Core name (long_rows st)).
    + rewrite (decide_False (P := _ /\ Elective = Core)) by (by intros [_ ?]).
      rewrite decide_True by done. rewrite app_nil_r.
      destruct (contributions Core name (long_rows st)); [|done].
      by destruct (contributions Elective name (long_rows st)).
  - rewrite !decide_False by (by intros [? _]). rewrite !app_nil_r. apply Hget.
Qed.

Lemma for_each_inv {S A} (P : S -> Prop) (body : S -> A -> result S) xs :
  (forall st x st', P st -> body st x = Ok st' -> P st') ->
  forall st st', P st -> for_each body st xs = Ok st' -> P st'.
Proof.
  intros Hbody. induction xs as [|x xs IH]; intros st st' HP H; simpl in H.
  - by injection H as <-.
  - destruct (body st x) as [st1|e] eqn:Hx; [|done]. simpl in H.
    eapply IH; [|done]. by eapply Hbody.
Qed.

Lemma score_field_inv kind questions row rid st field st' :
  agg_inv st -> score_field kind questions row rid st field = Ok st' ->
  agg_inv st'.
Proof.
  intros Hinv. rewrite score_field_spec.
  destruct (clean_numeric _) as [[v|]|e]; [|by intros [= <-]|done].
  case_bool_decide; intros [= <-]; [by apply record_score_inv|done].
Qed.

Lemma aggregate_inv questions rows st :
  aggregate questions rows = Ok st -> agg_inv st.
Proof.
  unfold aggregate. apply for_each_inv.
  - intros st0 row st' Hinv. unfold process_record.
    destruct (is_finished row); cbn [negb]; [|by intros [= <-]].
    destruct (for_each _ st0 (core_fields questions)) as [st1|e] eqn:Hcore;
      [|done].
    change (for_each (score_field Elective questions row
                        (default EmptyString (row !! "ResponseId")))
              st1 elective_fields = Ok st' -> agg_inv st').
    apply for_each_inv; [intros ????; by apply score_field_inv|].
    revert Hcore. apply for_each_inv; [intros ????; by apply score_field_inv|done].
  - split; [constructor|]. by intros name.
Qed.

End Aggregation.

(** ** The ranking *)

Section RankingProperties.

Variable float_round : Q -> Q.

Implicit Types (scores : list (string * (list Q * list Q))) (row : ranking_row).

Lemma ranking_rows_cons name core elec scores :
  ranking_rows_of float_round ((name, (core, elec)) :: scores)
  = match core ++ elec with
    | [] => []
    | _ =>
        [ {| course := name;
             overall_score := fmean float_round (core ++ elec);
             num_responses := Z.of_nat (length (core ++ elec));
             core_pref_score := fmean_or_none float_round core;
             core_n := Z.of_nat (length core);
             elective_rating_score := fmean_or_none float_round elec;
             elective_n := Z.of_nat (length elec) |} ]
    end ++ ranking_rows_of float_round scores.
Proof. reflexivity. Qed.

Lemma elem_ranking_rows scores row :
  row ∈ ranking_rows_of float_round scores <->
  exists core elec,
    (course row, (core, elec)) ∈ scores /\ core ++ elec <> []
    /\ overall_score row = fmean float_round (core ++ elec)
    /\ num_responses row = Z.of_nat (length (core ++ elec))
    /\ core_pref_score row = fmean_or_none float_round core
    /\ core_n row = Z.of_nat (length core)
    /\ elective_rating_score row = fmean_or_none float_round elec
    /\ elective_n row = Z.of_nat (length elec).
Proof.
  induction scores as [|[name [core elec]] scores IH].
  - split; [by intros ?%elem_of_nil|]. by intros (? & ? & ?%elem_of_nil & _).
  - rewrite ranking_rows_cons, elem_of_app, IH. split.
    + intros [Hrow|(c & e & Hin & ?)].
      * destruct (core ++ elec) eqn:E; [by apply elem_of_nil in Hrow|].
        apply list_elem_of_singleton in Hrow as ->. cbn.
        exists core, elec. rewrite E. repeat split; [apply list_elem_of_here|done].
      * exists c, e. split; [by apply list_elem_of_further|done].
    + intros (c & e & [Heq|Hin]%elem_of_cons & Hne & Ho & Hn & Hcp & Hcn & Hep & Hen).
      * left. injection Heq as <- <- <-.
        destruct (c ++ e) eqn:E; [done|]. apply list_elem_of_singleton.
        destruct row. cbn in *. by subst.
      * right. exists c, e. by repeat split.
Qed.

Lemma ranking_rows_NoDup scores :
  NoDup (Dict.keys scores) ->
  NoDup (course <$> ranking_rows_of float_round scores).
Proof.
  unfold Dict.keys. induction scores as [|[name [core elec]] scores IH]; intros Hnd.
  - constructor.
  - rewrite fmap_cons in Hnd. apply NoDup_cons in Hnd as [Hname Hnd].
    rewrite ranking_rows_cons, fmap_app. apply NoDup_app.
    split; [|split; [|by apply IH]].
    + destruct (core ++ elec); [constructor|apply NoDup_singleton].
    + intros c Hc Hin. apply Hname.
      assert (c = name) as ->.
      { destruct (core ++ elec); [by apply elem_of_nil in Hc|].
        by apply list_elem_of_singleton in Hc. }
      apply list_elem_of_fmap in Hin as (row & -> & Hrow).
      apply elem_ranking_rows in Hrow as (c & e & Hin & _).
      apply list_elem_of_fmap. by exists (course row, (c, e)).
Qed.

Lemma ranking_lookup scores i a :
  ranking float_round scores !! i = Some a <->
  py_sort (ranking_rows_of float_round scores) !! i = Some a.2
  /\ a.1 = Z.of_nat i + 1.
Proof.
  unfold ranking. rewrite list_lookup_imap.
  destruct (py_sort _ !! i) as [row|]; simpl.
  - destruct a as [rank row']. simpl. split; [by intros [= <- <-]|].
    by intros [[= <-] ->].
  - split; [done|by intros [? _]].
Qed.

Lemma elem_ranking scores rank row :
  (rank, row) ∈ ranking float_round scores ->
  row ∈ ranking_rows_of float_round scores.
Proof.
  intros (i & [Hi _]%ranking_lookup)%list_elem_of_lookup.
  rewrite <- (py_sort_perm (ranking_rows_of float_round scores)).
  by eapply list_elem_of_lookup_2.
Qed.

Lemma ranking_sorted scores i j a b :
  NoDup (Dict.keys scores) -> (i < j)%nat ->
  ranking float_round scores !! i = Some a ->
  ranking float_round scores !! j = Some b ->
  course a.2 <> course b.2 /\ ranks_before a.2 b.2.
Proof.
  intros Hnd Hij [Ha _]%ranking_lookup [Hb _]%ranking_lookup.
  pose proof (StronglySorted_lookup_lt key_le _ i j _ _
                (py_sort_sorted _) Hij Ha Hb) as Hle.
  assert (course a.2 <> course b.2) as Hne.
  { apply ranking_rows_NoDup in Hnd.
    rewrite <- (py_sort_perm (ranking_rows_of float_round scores)) in Hnd.
    intros Heq.
    assert (i = j); [|lia].
    eapply NoDup_lookup; [exact Hnd|by rewrite list_lookup_fmap, Ha|].
    by rewrite list_lookup_fmap, Hb, Heq. }
  split; [done|].
  destruct (ranks_before_total _ _ Hne) as [|Hba]; [done|].
  apply key_lt_iff in Hba. unfold key_le in Hle. congruence.
Qed.

End RankingProperties.

(** C9: after the records are aggregated, the ranking lists exactly the
    courses with at least one pooled score; each row holds the mean of the
    course's pooled core and elective scores and their number; a row that
    comes earlier has the higher score, or the same score and more
    responses, or the same score and count and the earlier name, and no
    two rows compare equal; the row at position [i] has rank [i + 1].  The
    mean is [statistics.fmean], whose rounding is the parameter
    [float_round]; without rounding it is the sum divided by the count. *)
Theorem ranking_spec (float_round : Q -> Q) questions records st :
  aggregate questions records = Ok st ->
  let rk := ranking float_round (course_scores st) in
  let pooled name := pooled_scores name (long_rows st) in
  (forall name,
     (exists rank row, (rank, row) ∈ rk /\ course row = name)
     <-> pooled name <> [])
  /\ (forall rank row, (rank, row) ∈ rk ->
        overall_score row = fmean float_round (pooled (course row))
        /\ num_responses row = Z.of_nat (length (pooled (course row))))
  /\ (forall data,
        (fmean (fun q => q) data
         == Qsum data / inject_Z (Z.of_nat (length data)))%Q)
  /\ (forall i j a b, (i < j)%nat -> rk !! i = Some a -> rk !! j = Some b ->
        course a.2 <> course b.2
        /\ ranks_before a.2 b.2 /\ ~ ranks_before b.2 a.2
        /\ ((overall_score a.2 == overall_score b.2)%Q ->
            num_responses a.2 = num_responses b.2 ->
            PyStr.ltb (course a.2) (course b.2) = true))
  /\ (forall a b, key_lt a b = true <-> ranks_before a b)
  /\ (forall i a, rk !! i = Some a -> a.1 = Z.of_nat i + 1).
Proof.
  intros Hagg rk pooled. destruct (aggregate_inv _ _ _ Hagg) as [Hnd Hget].
  assert (forall rank row, (rank, row) ∈ rk ->
            pooled (course row) <> []
            /\ overall_score row = fmean float_round (pooled (course row))
            /\ num_responses row = Z.of_nat (length (pooled (course row))))
    as Hrows.
  { intros rank row Hin%elem_ranking.
    apply elem_ranking_rows in Hin as (core & elec & Hin & Hne & Ho & Hn & _).
    apply dict_get_elem in Hin; [|done]. rewrite Hget in Hin.
    fold (pooled (course row)) in Hin. unfold pooled, pooled_scores in *.
    destruct (contributions Core _ _ ++ contributions Elective _ _) eqn:E; [done|].
    injection Hin as <- <-. by rewrite <- E. }
  split; [|split; [|split; [|split; [|split]]]].
  - intros name. split.
    + intros (rank & row & Hin & <-). by apply (Hrows rank row).
    + intros Hne. specialize (Hget name). fold (pooled name) in Hget.
      destruct (pooled name) as [|q qs] eqn:E; [done|].
      apply dict_get_elem in Hget; [|done].
      set (core := contributions Core name (long_rows st)) in *.
      set (elec := contributions Elective name (long_rows st)) in *.
      assert ({| course := name;
                 overall_score := fmean float_round (core ++ elec);
                 num_responses := Z.of_nat (length (core ++ elec));
                 core_pref_score := fmean_or_none float_round core;
                 core_n := Z.of_nat (length core);
                 elective_rating_score := fmean_or_none float_round elec;
                 elective_n := Z.of_nat (length elec) |}
              ∈ py_sort (ranking_rows_of float_round (course_scores st))) as Hin.
      { rewrite py_sort_perm. apply elem_ranking_rows. exists core, elec. cbn.
        repeat split; [done|]. change (pooled name <> []). by rewrite E. }
      apply list_elem_of_lookup in Hin as [i Hi].
      eexists (Z.of_nat i + 1), _.
      split; [apply list_elem_of_lookup; exists i; by apply ranking_lookup|].
      reflexivity.
  - intros rank row Hin. by destruct (Hrows rank row Hin) as (_ & ? & ?).
  - intros data. reflexivity.
  - intros i j a b Hij Ha Hb.
    pose proof (ranking_sorted float_round _ i j a b Hnd Hij Ha Hb) as [Hne Hab].
    split; [done|]. split; [done|]. split; [by apply ranks_before_asym|].
    intros Heq Hn. destruct Hab as [?|[_ [?|[_ ?]]]]; [lra|lia|done].
  - apply key_lt_iff.
  - intros i a [_ ?]%ranking_lookup. done.
Qed.

Lemma ranking_spec_witness :
  exists st,
    aggregate Sample.survey_questions Sample.survey_records = Ok st
    /\ (fun a : Z * ranking_row =>
          (a.1, course a.2, overall_score a.2, num_responses a.2))
         <$> ranking (fun q => Qred q) (course_scores st)
       = [ (1, "Tax Law", (100 # 1)%Q, 2); (2, "Audit", (175 # 2)%Q, 2) ]
    /\ forall i a,
         ranking (fun q => Qred q) (course_scores st) !! i = Some a ->
         a.1 = Z.of_nat i + 1.
Proof.
  eexists. split; [vm_compute; reflexivity|]. split; [vm_compute; reflexivity|].
  destruct (ranking_spec (fun q => Qred q)
              Sample.survey_questions Sample.survey_records _
              ltac:(vm_compute; reflexivity)) as (_ & _ & _ & _ & _ & H).
  exact H.
Defined.

(** ** Instances on the sample documents *)

Lemma col_to_index_spec_witness :
  col_to_index "AZ" < col_to_index "BA" /\ 0 <= col_to_index "XFD".
Proof.
  destruct col_to_index_spec as (_ & _ & _ & _ & _ & _ & Hnonneg & Hmono).
  split.
  - apply Hmono; [by split|by split|]. right. split; reflexivity.
  - apply Hnonneg. by split.
Defined.

Lemma shared_strings_roundtrip_witness :
  cell_value (load_shared_strings (Some Sample.pool_doc))
    (Sample.cell "B2" (Some "s") "2")
  = Ok "Rank the courses - Tax Law".
Proof.
  destruct (shared_strings_roundtrip Sample.pool_doc) as (_ & _ & H).
  destruct (H (Sample.cell "B2" (Some "s") "2")
              (Sample.elem "v" ∅ (Some "2") []) "2" 2)
    as (si & Hsi & _ & Hcell);
    [vm_compute; reflexivity..|vm_compute; split; discriminate|].
  rewrite Hcell. vm_compute in Hsi. injection Hsi as <-. reflexivity.
Defined.

Lemma structural_check_spec_witness :
  parse_xlsx None (Sample.worksheet [Sample.row []; Sample.row []])
  = Raise ValueError_structure
  /\ exists out,
       parse_xlsx (Some Sample.pool_doc) Sample.survey_sheet = Ok out.
Proof.
  destruct structural_check_spec as (_ & _ & H & _). split.
  - exact (H None (Sample.worksheet [Sample.row []; Sample.row []]) [∅; ∅]
             ltac:(vm_compute; reflexivity)).
  - pose proof (H (Some Sample.pool_doc) Sample.survey_sheet _
                  ltac:(vm_compute; reflexivity)) as Hok.
    exact Hok.
Defined.

Example survey_sheet_layout : sheet_data_at_top Sample.survey_sheet.
Proof.
  assert (Forall (fun c =>
            Forall (fun d => ET.has_tag "sheetData" d = false)
                   (x ← ET.children c; ET.iter x))
            (ET.children Sample.survey_sheet)) as HF.
  { vm_compute. repeat constructor. }
  intros c d Hc Hd. rewrite Forall_forall in HF.
  specialize (HF c Hc). rewrite Forall_forall in HF. by apply HF.
Qed.

(** * Further properties of the code *)

(** ** The decoder is one-to-one and its range grows with the length *)

Lemma shortlex_trichotomy s t : shortlex_lt s t \/ s = t \/ shortlex_lt t s.
Proof.
  unfold shortlex_lt.
  destruct (Nat.lt_trichotomy (String.length s) (String.length t)) as [?|[Hlen|?]];
    [auto|..|auto].
  destruct (str_ltb_trichotomy s t) as [[? _]|[[? _]|[? _]]]; auto.
Qed.

(** X1: two references of capital letters that decode to the same column
    index are the same reference. *)
Theorem col_to_index_injective s t :
  col_ref_valid s -> col_ref_valid t ->
  col_to_index s = col_to_index t -> s = t.
Proof.
  intros [_ Hs] [_ Ht] Heq.
  destruct (shortlex_trichotomy s t) as [Hlt|[?|Hlt]]; [|done|].
  - pose proof (col_to_index_shortlex s t Hs Ht Hlt). lia.
  - pose proof (col_to_index_shortlex t s Ht Hs Hlt). lia.
Qed.

Lemma col_to_index_injective_witness :
  col_to_index "BA" <> col_to_index "AZ".
Proof.
  intros H.
  apply (col_to_index_injective "BA" "AZ") in H; [discriminate|by split..].
Defined.

(** X2: a reference of [n] capital letters decodes into the window
    [(26^n - 26)/25 .. (26^(n+1) - 26)/25 - 1]: 0..25 for one letter,
    26..701 for two, 702..18277 for three. *)
Theorem col_to_index_range r :
  col_ref_valid r ->
  let n := Z.of_nat (String.length r) in
  26 ^ n - 26 <= 25 * col_to_index r <= 26 ^ (n + 1) - 51.
Proof.
  intros [_ Hup] n. unfold col_to_index.
  pose proof (loop_bounds r 0 Hup) as [Hlo Hhi]. cbn zeta in Hlo, Hhi.
  subst n. rewrite Z.pow_add_r, Z.pow_1_r by lia.
  rewrite total_min_pow. lia.
Qed.

Lemma col_to_index_range_witness :
  26 <= col_to_index "QX" <= 701.
Proof.
  pose proof (col_to_index_range "QX" ltac:(by split)) as H.
  cbn zeta in H. change (Z.of_nat (String.length "QX")) with 2 in H.
  change (26 ^ 2) with 676 in H. change (26 ^ (2 + 1)) with 17576 in H. lia.
Defined.

(** ** Parsed values are trimmed *)

Section Trimmed.

Lemma parse_rows_elem shared_strings sheet_root rows values :
  parse_rows shared_strings sheet_root = Ok rows -> values ∈ rows ->
  exists row, row ∈ sheet_rows sheet_root
              /\ parse_row shared_strings row = Ok values.
Proof.
  intros H%parse_rows_spec Hin.
  apply list_elem_of_lookup in Hin as [i Hi].
  destruct (Forall2_lookup_r _ _ _ _ _ H Hi) as (row & Hrow & Hok).
  exists row. split; [by eapply list_elem_of_lookup_2|done].
Qed.

Lemma parsed_row_trimmed shared_strings sheet_root rows values k v :
  parse_rows shared_strings sheet_root = Ok rows -> values ∈ rows ->
  values !! k = Some v -> PyStr.strip v = v.
Proof.
  intros H Hin Hk.
  destruct (parse_rows_elem _ _ _ _ H Hin) as (row & _ & Hrow).
  destruct (parse_row_entries _ _ _ _ Hrow) as [Hsound _].
  destruct (Hsound k v Hk) as [Hinit|(cell & value & _ & _ & _ & _ & ->)].
  - by rewrite lookup_empty in Hinit.
  - apply strip_idem.
Qed.

Lemma parse_xlsx_inv shared_root sheet_root out :
  parse_xlsx shared_root sheet_root = Ok out ->
  exists rows,
    parse_rows (load_shared_strings shared_root) sheet_root = Ok rows
    /\ (4 <= length rows)%nat /\ assemble_table rows = Ok out.
Proof.
  unfold parse_xlsx. destruct (parse_rows _ _) as [rows|e]; [|done].
  intros H. exists rows. split; [done|]. split; [|done].
  destruct (decide (4 <= length rows)%nat) as [|Hlt]; [done|].
  change (assemble_table rows = Ok out) in H.
  rewrite assemble_table_short in H by lia. done.
Qed.

End Trimmed.

(** X3: in the result of [parse_xlsx] every value of every record and
    every question text is already trimmed: stripping it again changes
    nothing. *)
Theorem parsed_values_trimmed
    shared_root sheet_root columns records questions :
  parse_xlsx shared_root sheet_root = Ok (columns, records, questions) ->
  (forall record name v,
     record ∈ records -> record !! name = Some v -> PyStr.strip v = v)
  /\ (forall name q, Dict.get name questions = Some q -> PyStr.strip q = q).
Proof.
  intros (rows & Hrows & Hlen & Hasm)%parse_xlsx_inv.
  destruct (assemble_table_long rows Hlen)
    as (header_row & question_row & max_col & H0 & H1 & _ & Hasm').
  rewrite Hasm' in Hasm. injection Hasm as <- <- <-.
  assert (forall (row : gmap N string) i, row ∈ rows ->
            PyStr.strip (default EmptyString (row !! i))
            = default EmptyString (row !! i)) as Hdef.
  { intros row i Hrow. destruct (row !! i) as [v|] eqn:Hv; [|done].
    by eapply parsed_row_trimmed. }
  change (build_schema header_row question_row max_col)
    with (build_schema_upto header_row question_row (max_col + 1)).
  destruct (schema_upto_spec header_row question_row (max_col + 1))
    as (_ & _ & Hq & Hdom).
  split.
  - intros record name v (row & -> & Hrow)%list_elem_of_fmap Hv.
    destruct (make_record_spec
                (build_schema_upto header_row question_row (max_col + 1)).1 row)
      as [Hval Hkeys].
    destruct (last_index_exists _ name (proj1 (Hkeys name) (mk_is_Some _ _ Hv)))
      as [i Hi].
    rewrite (Hval name i Hi) in Hv. injection Hv as <-.
    apply list_elem_of_lookup in Hrow as [j Hj]. rewrite lookup_drop in Hj.
    apply Hdef. by eapply list_elem_of_lookup_2.
  - intros name q Hget.
    destruct (last_index_exists _ name (Hdom name (mk_is_Some _ _ Hget))) as [i Hi].
    rewrite (Hq name i Hi) in Hget. injection Hget as <-.
    apply Hdef. by eapply list_elem_of_lookup_2.
Qed.

Lemma parsed_values_trimmed_witness :
  exists columns records questions,
    parse_xlsx (Some Sample.pool_doc) Sample.survey_sheet
    = Ok (columns, records, questions)
    /\ forall name q, Dict.get name questions = Some q -> PyStr.strip q = q.
Proof.
  eexists _, _, _. split; [vm_compute; reflexivity|].
  eapply (proj2 (parsed_values_trimmed (Some Sample.pool_doc)
                   Sample.survey_sheet _ _ _ ltac:(vm_compute; reflexivity))).
Defined.

(** ** Cells of one row, and when the parse returns *)

Section RowsAndErrors.

Implicit Types (cell row : element) (values : gmap N string).

(** Cells at other columns, and skipped cells, leave a column alone. *)
Lemma parse_cells_other_columns shared_strings cells k : forall init values,
  for_each (parse_cell shared_strings) init cells = Ok values ->
  (forall cell, cell ∈ cells -> cell_ref_letters cell <> EmptyString ->
     Z.to_N (col_to_index (cell_ref_letters cell)) <> k) ->
  values !! k = init !! k.
Proof.
  induction cells as [|c cells IH]; intros init values H Hother; simpl in H.
  - by injection H as <-.
  - destruct (parse_cell shared_strings init c) as [st|e] eqn:Hc; [|done].
    simpl in H. rewrite (IH st values H)
      by (intros cell ?; apply Hother; by apply list_elem_of_further).
    destruct (decide (cell_ref_letters c = EmptyString)) as [He|Hne].
    + rewrite parse_cell_skip in Hc by done. by injection Hc as <-.
    + rewrite parse_cell_store in Hc by done.
      destruct (cell_value shared_strings c) as [value|]; [|done].
      injection Hc as <-. apply lookup_insert_ne.
      apply Hother; [apply list_elem_of_here|done].
Qed.

Lemma for_each_ext {S A} (body1 body2 : S -> A -> result S) xs :
  (forall st x, x ∈ xs -> body1 st x = body2 st x) ->
  forall st, for_each body1 st xs = for_each body2 st xs.
Proof.
  induction xs as [|x xs IH]; intros Hext st; [done|]. simpl.
  rewrite Hext by apply list_elem_of_here.
  destruct (body2 st x) as [st'|e]; [|done]. simpl.
  apply IH. intros st0 y Hy. apply Hext. by apply list_elem_of_further.
Qed.

Lemma for_each_raise_inv {S A} (body : S -> A -> result S) xs e :
  forall st, for_each body st xs = Raise e ->
  exists st' x, x ∈ xs /\ body st' x = Raise e.
Proof.
  induction xs as [|x xs IH]; intros st H; simpl in H; [done|].
  destruct (body st x) as [st1|e1] eqn:Hx.
  - destruct (IH _ H) as (st' & y & Hy & Hraise).
    exists st', y. split; [by apply list_elem_of_further|done].
  - injection H as ->. exists st, x. split; [apply list_elem_of_here|done].
Qed.

Lemma for_each_total {S A} (body : S -> A -> result S) xs :
  (forall st x, x ∈ xs -> exists st', body st x = Ok st') ->
  forall st, exists st', for_each body st xs = Ok st'.
Proof.
  induction xs as [|x xs IH]; intros Hok st; [by exists st|]. simpl.
  destruct (Hok st x) as [st1 ->]; [apply list_elem_of_here|]. simpl.
  apply IH. intros st0 y Hy. apply Hok. by apply list_elem_of_further.
Qed.

(** Only a shared-string cell can fail to resolve. *)
Lemma cell_value_raise shared_strings cell e :
  cell_value shared_strings cell = Raise e ->
  ET.attrib cell !! "t" = Some "s" /\ (e = ValueError_int \/ e = IndexError).
Proof.
  unfold cell_value. destruct (decide _) as [|_].
  { by destruct (ET.find_child_child "is" "t" cell). }
  destruct (ET.find_child "v" cell) as [[? ? [raw|] ?]|]; [|done..].
  destruct (decide _) as [Hs|]; [|done].
  unfold Py.int. destruct (Py.int_opt raw) as [i|]; simpl.
  - unfold Py.getitem. destruct (_ && _); [|by intros [= <-]; auto].
    destruct (shared_strings !! _); [done|by intros [= <-]; auto].
  - intros [= <-]. auto.
Qed.

(** Which value text makes the resolution fail, and how. *)
Lemma cell_value_raise_origin shared_strings cell e :
  cell_value shared_strings cell = Raise e ->
  ET.attrib cell !! "t" = Some "s"
  /\ exists node raw,
       ET.find_child "v" cell = Some node /\ ET.text node = Some raw
       /\ ((e = ValueError_int /\ Py.int_opt raw = None)
           \/ (e = IndexError
               /\ exists i, Py.int_opt raw = Some i
                    /\ (i < - Z.of_nat (length shared_strings)
                        \/ Z.of_nat (length shared_strings) <= i))).
Proof.
  unfold cell_value. destruct (decide _) as [|_].
  { by destruct (ET.find_child_child "is" "t" cell). }
  destruct (ET.find_child "v" cell) as [[? ? [raw|] ?]|]; [|done..].
  destruct (decide _) as [Hs|]; [|done].
  intros H. split; [done|]. eexists _, raw. split; [done|]. split; [done|].
  unfold Py.int in H. destruct (Py.int_opt raw) as [i|]; simpl in H.
  - apply getitem_raise_inv in H as [-> Hi]. right. split; [done|]. by exists i.
  - injection H as <-. by left.
Qed.

Lemma cell_value_pool_indep shared_strings shared_strings' cell :
  ET.attrib cell !! "t" <> Some "s" ->
  cell_value shared_strings cell = cell_value shared_strings' cell.
Proof.
  intros Hs. unfold cell_value. destruct (decide _); [done|].
  destruct (ET.find_child "v" cell) as [[? ? [raw|] ?]|]; [|done..].
  by destruct (decide _).
Qed.

Lemma parse_cell_cases shared_strings values cell :
  parse_cell shared_strings values cell
  = if decide (cell_ref_letters cell = EmptyString) then Ok values
    else value ← cell_value shared_strings cell;
         Ok (<[Z.to_N (col_to_index (cell_ref_letters cell))
               := PyStr.strip value]> values).
Proof. unfold parse_cell. by destruct (decide _). Qed.

Lemma parse_xlsx_raise_inv shared_root sheet_root e :
  parse_xlsx shared_root sheet_root = Raise e ->
  (e = ValueError_structure
   /\ exists rows,
        parse_rows (load_shared_strings shared_root) sheet_root = Ok rows
        /\ (length rows < 4)%nat)
  \/ exists row cell,
       row ∈ sheet_rows sheet_root /\ cell ∈ ET.findall_children "c" row
       /\ cell_ref_letters cell <> EmptyString
       /\ cell_value (load_shared_strings shared_root) cell = Raise e.
Proof.
  unfold parse_xlsx. set (pool := load_shared_strings shared_root).
  destruct (parse_rows pool sheet_root) as [rows|e'] eqn:Hrows.
  - intros H. change (assemble_table rows = Raise e) in H. left.
    destruct (decide (4 <= length rows)%nat) as [Hge|Hlt].
    + destruct (assemble_table_long rows Hge) as (? & ? & ? & _ & _ & _ & Hok).
      congruence.
    + rewrite assemble_table_short in H by lia. injection H as <-.
      split; [done|]. exists rows. split; [done|lia].
  - intros [= ->]. right. unfold parse_rows in Hrows.
    apply for_each_raise_inv in Hrows as (acc & row & Hrow & Hraise).
    exists row. unfold parse_row in Hraise.
    destruct (for_each _ ∅ _) as [values|e'] eqn:Hcells; [done|].
    injection Hraise as ->.
    apply for_each_raise_inv in Hcells as (st & cell & Hcell & Hraise).
    exists cell. rewrite parse_cell_cases in Hraise.
    destruct (decide _) as [|Hne]; [done|].
    destruct (cell_value pool cell) as [v|e'] eqn:Hv; [done|].
    by injection Hraise as ->.
Qed.

End RowsAndErrors.

(** X4: when several cells of a row carry the same column, the last one
    wins: the row holds, at that column, the trimmed value of a cell that
    no later processed cell of the row shares its column with. *)
Theorem parse_row_last_cell_wins shared_strings row before cell after values :
  ET.findall_children "c" row = before ++ cell :: after ->
  parse_row shared_strings row = Ok values ->
  cell_ref_letters cell <> EmptyString ->
  (forall later, later ∈ after -> cell_ref_letters later <> EmptyString ->
     col_to_index (cell_ref_letters later)
     <> col_to_index (cell_ref_letters cell)) ->
  exists value,
    cell_value shared_strings cell = Ok value
    /\ values !! Z.to_N (col_to_index (cell_ref_letters cell))
       = Some (PyStr.strip value).
Proof.
  intros Hcells Hrow Hne Hlater. unfold parse_row in Hrow.
  rewrite Hcells, for_each_app in Hrow.
  destruct (for_each _ ∅ before) as [st|]; [|done]. cbn in Hrow.
  rewrite parse_cell_store in Hrow by done.
  destruct (cell_value shared_strings cell) as [value|]; [|done].
  cbn in Hrow. exists value. split; [done|].
  rewrite (parse_cells_other_columns _ _ _ _ _ Hrow), lookup_insert_eq; [done|].
  intros later Hin Hl Heq. apply (Hlater later Hin Hl).
  rewrite <- (cell_col_idx_exact later), <- (cell_col_idx_exact cell) by done.
  by rewrite Heq.
Qed.

Lemma parse_row_last_cell_wins_witness :
  exists values,
    parse_row []
      (Sample.row [Sample.cell "B1" None " first ";
                   Sample.cell "B9" None " second "; Sample.cell "C1" None "x"])
    = Ok values
    /\ values !! 1%N = Some "second".
Proof.
  eexists. split; [vm_compute; reflexivity|].
  destruct (parse_row_last_cell_wins []
              (Sample.row [Sample.cell "B1" None " first ";
                           Sample.cell "B9" None " second ";
                           Sample.cell "C1" None "x"])
              [Sample.cell "B1" None " first "]
              (Sample.cell "B9" None " second ")
              [Sample.cell "C1" None "x"] _
              ltac:(vm_compute; reflexivity) ltac:(vm_compute; reflexivity)
              ltac:(vm_compute; discriminate))
    as (value & Hvalue & Hlookup).
  - intros later ->%list_elem_of_singleton _. vm_compute. discriminate.
  - vm_compute in Hvalue. injection Hvalue as <-. exact Hlookup.
Defined.

(** X5: a worksheet none of whose processed cells is of shared-string type
    parses to the same result whatever the shared-strings table, present
    or absent. *)
Theorem parse_without_shared_cells shared_root shared_root' sheet_root :
  (forall row cell,
     row ∈ sheet_rows sheet_root -> cell ∈ ET.findall_children "c" row ->
     cell_ref_letters cell <> EmptyString ->
     ET.attrib cell !! "t" <> Some "s") ->
  parse_xlsx shared_root sheet_root = parse_xlsx shared_root' sheet_root.
Proof.
  intros Hcells. unfold parse_xlsx.
  assert (parse_rows (load_shared_strings shared_root) sheet_root
          = parse_rows (load_shared_strings shared_root') sheet_root) as ->; [|done].
  unfold parse_rows. apply for_each_ext. intros rows row Hrow.
  assert (parse_row (load_shared_strings shared_root) row
          = parse_row (load_shared_strings shared_root') row) as ->; [|done].
  unfold parse_row. apply for_each_ext. intros values cell Hcell.
  rewrite !parse_cell_cases. destruct (decide _) as [|Hne]; [done|].
  by rewrite (cell_value_pool_indep _ (load_shared_strings shared_root'))
    by (by apply (Hcells row)).
Qed.

Lemma parse_without_shared_cells_witness :
  parse_xlsx (Some Sample.pool_doc)
    (Sample.worksheet [Sample.row [Sample.inline_cell "A1" "x"]])
  = parse_xlsx None
      (Sample.worksheet [Sample.row [Sample.inline_cell "A1" "x"]]).
Proof.
  apply parse_without_shared_cells.
  intros row cell Hrow Hcell _.
  vm_compute in Hrow. apply list_elem_of_singleton in Hrow. subst row.
  vm_compute in Hcell. apply list_elem_of_singleton in Hcell. subst cell.
  vm_compute. discriminate.
Defined.

(** X6: [parse_xlsx] returns a result exactly when the worksheet has at
    least four row elements and every processed cell resolves; a cell that
    is not of shared-string type always resolves. *)
Theorem parse_xlsx_returns_iff shared_root sheet_root :
  ((exists out, parse_xlsx shared_root sheet_root = Ok out) <->
   (4 <= length (sheet_rows sheet_root))%nat
   /\ forall row cell,
        row ∈ sheet_rows sheet_root -> cell ∈ ET.findall_children "c" row ->
        cell_ref_letters cell <> EmptyString ->
        exists value,
          cell_value (load_shared_strings shared_root) cell = Ok value)
  /\ (forall cell,
        ET.attrib cell !! "t" <> Some "s" ->
        exists value,
          cell_value (load_shared_strings shared_root) cell = Ok value).
Proof.
  set (pool := load_shared_strings shared_root). split; [split|].
  - intros [out Hout].
    destruct (parse_xlsx_inv _ _ _ Hout) as (rows & Hrows & Hlen & _).
    split; [by rewrite <- (parse_rows_length _ _ _ Hrows)|].
    intros row cell Hrow Hcell Hne.
    destruct (cell_value pool cell) as [value|e] eqn:Hv; [by exists value|].
    destruct (cell_failure_aborts shared_root sheet_root row cell e) as [e' He'];
      [done..|congruence].
  - intros [Hlen Hcells].
    destruct (parse_xlsx shared_root sheet_root) as [out|e] eqn:H; [by exists out|].
    exfalso. apply parse_xlsx_raise_inv in H
      as [(_ & rows & Hrows & Hlt)|(row & cell & Hrow & Hcell & Hne & Hv)].
    + rewrite (parse_rows_length _ _ _ Hrows) in Hlt. lia.
    + destruct (Hcells row cell Hrow Hcell Hne) as [value Hvalue].
      fold pool in Hv. congruence.
  - intros cell Hs.
    destruct (cell_value pool cell) as [value|e] eqn:Hv; [by exists value|].
    by apply cell_value_raise in Hv as [? _].
Qed.

(** X7: once both documents of the archive are read, an exception of the
    rest of [parse_xlsx] has one of two origins.  Either it is the
    structural [ValueError]: then every row parsed and the worksheet has
    fewer than four row elements.  Or it is the exception of a processed
    cell of shared-string type with value text [raw]: the [ValueError] of
    [int()] when [raw] is no integer literal, or the [IndexError] of the
    pool lookup when [int(raw)] lies outside [-N .. N-1].  In particular
    [max()] and the look-ups of rows 0 and 1 never raise. *)
Theorem parse_xlsx_errors shared_root sheet_root e :
  parse_xlsx shared_root sheet_root = Raise e ->
  let pool := load_shared_strings shared_root in
  (e = ValueError_structure
   /\ (exists rows, parse_rows pool sheet_root = Ok rows)
   /\ (length (sheet_rows sheet_root) < 4)%nat)
  \/ (exists row cell node raw,
        row ∈ sheet_rows sheet_root /\ cell ∈ ET.findall_children "c" row
        /\ cell_ref_letters cell <> EmptyString
        /\ ET.attrib cell !! "t" = Some "s"
        /\ ET.find_child "v" cell = Some node /\ ET.text node = Some raw
        /\ cell_value pool cell = Raise e
        /\ ((e = ValueError_int /\ Py.int_opt raw = None)
            \/ (e = IndexError
                /\ exists i, Py.int_opt raw = Some i
                     /\ (i < - Z.of_nat (length pool)
                         \/ Z.of_nat (length pool) <= i)))).
Proof.
  intros [(-> & rows & Hrows & Hlt)|(row & cell & Hrow & Hcell & Hne & Hv)]%parse_xlsx_raise_inv
    pool.
  - left. split; [done|]. split; [by exists rows|].
    by rewrite <- (parse_rows_length _ _ _ Hrows).
  - right. destruct (cell_value_raise_origin _ _ _ Hv)
      as (Hs & node & raw & Hnode & Hraw & He).
    by exists row, cell, node, raw.
Qed.

Lemma parse_xlsx_errors_witness :
  parse_xlsx (Some Sample.pool_doc) (Sample.index_sheet "7") = Raise IndexError
  /\ exists row cell,
       row ∈ sheet_rows (Sample.index_sheet "7")
       /\ cell ∈ ET.findall_children "c" row
       /\ cell_value (load_shared_strings (Some Sample.pool_doc)) cell
          = Raise IndexError.
Proof.
  assert (parse_xlsx (Some Sample.pool_doc) (Sample.index_sheet "7")
          = Raise IndexError) as H by (vm_compute; reflexivity).
  split; [exact H|].
  destruct (parse_xlsx_errors _ _ _ H)
    as [(Hs & _)|(row & cell & _ & _ & Hrow & Hcell & _ & _ & _ & _ & Hv & _)];
    [discriminate|].
  by exists row, cell.
Defined.

(** ** More on the table assembler *)

Section AssemblerMore.

Lemma first_occurrences_snoc l c :
  first_occurrences (l ++ [c])
  = if decide (c ∈ l) then first_occurrences l else first_occurrences l ++ [c].
Proof.
  unfold first_occurrences. rewrite reverse_snoc. cbn [remove_dups].
  destruct (decide_rel elem_of c (reverse l)) as [Hin|Hin];
    rewrite elem_of_reverse in Hin.
  - by rewrite decide_True.
  - by rewrite decide_False, reverse_cons.
Qed.

Lemma elem_of_first_occurrences l x : x ∈ first_occurrences l <-> x ∈ l.
Proof.
  unfold first_occurrences.
  by rewrite elem_of_reverse, elem_of_remove_dups, elem_of_reverse.
Qed.

Lemma schema_keys header_row question_row n :
  Dict.keys (build_schema_upto header_row question_row n).2
  = first_occurrences (build_schema_upto header_row question_row n).1.
Proof.
  induction n as [|n IH] using N.peano_ind; [done|].
  rewrite schema_upto_succ. unfold schema_step. cbn [fst snd].
  rewrite dict_keys_set, first_occurrences_snoc, IH.
  destruct (decide (_ ∈ first_occurrences _)) as [Hin|Hin];
    rewrite elem_of_first_occurrences in Hin.
  - by rewrite decide_True.
  - by rewrite decide_False.
Qed.

Lemma elem_of_list_filter {A} (p : A -> bool) l x :
  x ∈ List.filter p l <-> x ∈ l /\ p x = true.
Proof. by rewrite !list_elem_of_In, List.filter_In. Qed.

Lemma NoDup_list_filter {A} (p : A -> bool) l :
  NoDup l -> NoDup (List.filter p l).
Proof.
  induction 1 as [|x l Hx Hnd IH]; simpl; [constructor|].
  destruct (p x); [|done]. constructor; [|done].
  by intros [? _]%elem_of_list_filter.
Qed.

Lemma assemble_table_inv rows columns records questions :
  assemble_table rows = Ok (columns, records, questions) ->
  exists header_row question_row max_col,
    rows !! 0%nat = Some header_row /\ rows !! 1%nat = Some question_row
    /\ observed_max rows max_col
    /\ columns = (build_schema_upto header_row question_row (N.succ max_col)).1
    /\ questions = (build_schema_upto header_row question_row (N.succ max_col)).2
    /\ records = make_record columns <$> drop 3 rows.
Proof.
  intros H.
  assert (4 <= length rows)%nat as Hlen.
  { destruct (decide (4 <= length rows)%nat) as [|Hlt]; [done|].
    rewrite assemble_table_short in H by lia. done. }
  destruct (assemble_table_long rows Hlen)
    as (header_row & question_row & max_col & H0 & H1 & Hmax & Hasm).
  rewrite Hasm in H.
  change (build_schema header_row question_row max_col)
    with (build_schema_upto header_row question_row (max_col + 1)) in H.
  rewrite N.add_1_r in H. injection H as <- <- <-.
  exists header_row, question_row, max_col.
  split; [done|]. split; [done|]. split; [by apply max_col_spec|]. done.
Qed.

End AssemblerMore.

(** X8: row 2, the separator, feeds no record, but its column indices
    count toward the table's width: replacing it by a row with the same
    set of column indices does not change the result, and every column
    index it has lies within the declared columns. *)
Theorem separator_row_counts_only_by_columns
    (header_row question_row separator separator' : gmap N string) rest :
  dom separator = dom separator' ->
  assemble_table (header_row :: question_row :: separator :: rest)
  = assemble_table (header_row :: question_row :: separator' :: rest)
  /\ forall columns records questions k,
       assemble_table (header_row :: question_row :: separator :: rest)
       = Ok (columns, records, questions) ->
       is_Some (separator !! k) -> (N.to_nat k < length columns)%nat.
Proof.
  intros Hdom. split.
  - unfold assemble_table. cbn [length fmap list_fmap drop].
    assert (row_max_key separator = row_max_key separator') as ->
      by (unfold row_max_key; by rewrite Hdom).
    by rewrite !(getitem_nonneg _ 0 header_row), !(getitem_nonneg _ 1 question_row).
  - intros columns records questions k Hasm Hk.
    destruct (assemble_table_inv _ _ _ _ Hasm)
      as (h & q & max_col & _ & _ & [Hub _] & -> & _ & _).
    destruct (schema_upto_spec h q (N.succ max_col)) as (-> & _).
    assert (k <= max_col)%N; [|lia].
    apply (Hub separator); [|done].
    do 2 apply list_elem_of_further. apply list_elem_of_here.
Qed.

Lemma separator_row_counts_only_by_columns_witness :
  assemble_table (Sample.wide_separator_rows "-")
  = assemble_table (Sample.wide_separator_rows "=====")
  /\ assemble_table (Sample.wide_separator_rows "-")
     = Ok (["A"; "COL_1"; "COL_2"],
           [ {[ "A" := ""; "COL_1" := ""; "COL_2" := "" ]} ],
           [("A", ""); ("COL_1", ""); ("COL_2", "")]).
Proof.
  split; [|vm_compute; reflexivity].
  apply (separator_row_counts_only_by_columns
           {[ 0%N := "A" ]} ∅ {[ 2%N := "-" ]} {[ 2%N := "=====" ]} [∅]).
  by rewrite !dom_singleton_L.
Defined.

(** X9: the question mapping lists every distinct column name once, in the
    order of first occurrence among the columns; so the core fields, the
    names starting with "Q35_", are distinct column names. *)
Theorem questions_keys_first_occurrence rows columns records questions :
  assemble_table rows = Ok (columns, records, questions) ->
  Dict.keys questions = first_occurrences columns
  /\ NoDup (Dict.keys questions)
  /\ NoDup (core_fields questions)
  /\ (forall field, field ∈ core_fields questions ->
        field ∈ columns /\ PyStr.startswith "Q35_" field = true).
Proof.
  intros (h & q & m & _ & _ & _ & -> & -> & _)%assemble_table_inv.
  pose proof (schema_keys h q (N.succ m)) as Hkeys.
  assert (NoDup (Dict.keys (build_schema_upto h q (N.succ m)).2)) as Hnd.
  { rewrite Hkeys. unfold first_occurrences.
    rewrite reverse_Permutation. apply NoDup_remove_dups. }
  split; [done|]. split; [done|]. split.
  - unfold core_fields. by apply NoDup_list_filter.
  - intros field Hf. unfold core_fields in Hf.
    apply elem_of_list_filter in Hf as [Hin Hstart].
    split; [|done].
    rewrite Hkeys in Hin. exact (proj1 (elem_of_first_occurrences _ _) Hin).
Qed.

Lemma questions_keys_first_occurrence_witness :
  exists columns records questions,
    assemble_table Sample.repeated_core_rows = Ok (columns, records, questions)
    /\ columns = ["Q35_1"; "Id"; "Q35_1"]
    /\ Dict.keys questions = ["Q35_1"; "Id"]
    /\ NoDup (core_fields questions).
Proof.
  eexists _, _, _. split; [vm_compute; reflexivity|].
  split; [reflexivity|]. split; [reflexivity|].
  exact (proj1 (proj2 (proj2
    (questions_keys_first_occurrence Sample.repeated_core_rows
       _ _ _ ltac:(vm_compute; reflexivity))))).
Defined.

(** ** Numeric cleaning *)

Section CleanNumeric.

Lemma fullmatch_numeric_cons c rest :
  fullmatch_numeric (String c rest)
  = if PyStr.is_digit c then
      match rest with
      | EmptyString => Some (String c EmptyString)
      | String a zeros =>
          if Ascii.eqb a "." then
            if decide (zeros = EmptyString) then None
            else if all_zeros zeros then Some (String c EmptyString) else None
          else String c <$> fullmatch_numeric rest
      end
    else None.
Proof.
  destruct rest as [|a zeros]; [reflexivity|].
  destruct a as [[] [] [] [] [] [] [] []]; reflexivity.
Qed.

Lemma digit_not_dot c : PyStr.is_digit c = true -> Ascii.eqb c "." = false.
Proof.
  intros Hc. destruct (Ascii.eqb_spec c ".") as [->|]; [|done].
  by vm_compute in Hc.
Qed.

Lemma fullmatch_numeric_elim value : forall ds,
  fullmatch_numeric value = Some ds ->
  ds <> EmptyString /\ PyStr.all_chars PyStr.is_digit ds = true
  /\ (value = ds
      \/ exists zeros, zeros <> EmptyString /\ all_zeros zeros = true
                       /\ value = ds +:+ "." +:+ zeros).
Proof.
  induction value as [|c rest IH]; intros ds H; [done|].
  rewrite fullmatch_numeric_cons in H.
  destruct (PyStr.is_digit c) eqn:Hc; [|done].
  destruct rest as [|a zeros].
  - injection H as <-. cbn. rewrite Hc. auto.
  - destruct (Ascii.eqb_spec a ".") as [->|Hdot].
    + destruct (decide (zeros = EmptyString)) as [|Hz]; [done|].
      destruct (all_zeros zeros) eqn:Hall; [|done]. injection H as <-.
      cbn. rewrite Hc. split; [done|]. split; [done|].
      right. by exists zeros.
    + destruct (fullmatch_numeric (String a zeros)) as [ds'|] eqn:Hrest; [|done].
      injection H as <-. destruct (IH ds' eq_refl) as (Hne & Hall & Hval).
      split; [done|]. split; [cbn; by rewrite Hc, Hall|].
      destruct Hval as [->|(zs & ? & ? & ->)]; [by left|].
      right. by exists zs.
Qed.

Lemma fullmatch_numeric_intro ds : forall value,
  ds <> EmptyString -> PyStr.all_chars PyStr.is_digit ds = true ->
  (value = ds
   \/ exists zeros, zeros <> EmptyString /\ all_zeros zeros = true
                    /\ value = ds +:+ "." +:+ zeros) ->
  fullmatch_numeric value = Some ds.
Proof.
  induction ds as [|c ds IH]; intros value Hne Hall Hval; [done|].
  cbn [PyStr.all_chars] in Hall. apply andb_prop in Hall as [Hc Hall].
  destruct ds as [|d ds'].
  - destruct Hval as [->|(zs & Hz & Hzs & ->)];
      rewrite ?append_cons, ?append_nil_l, fullmatch_numeric_cons, Hc; [done|].
    cbn. rewrite decide_False by done. by rewrite Hzs.
  - assert (PyStr.is_digit d = true) as Hd
      by (cbn [PyStr.all_chars] in Hall; by apply andb_prop in Hall as [? _]).
    assert (exists rest, value = String c (String d rest)
                         /\ fullmatch_numeric (String d rest)
                            = Some (String d ds')) as (rest & -> & Hrest).
    { destruct Hval as [->|(zs & Hz & Hzs & ->)].
      - exists ds'. split; [done|]. apply IH; [done|done|by left].
      - exists (ds' +:+ "." +:+ zs). split; [by rewrite !append_cons|].
        apply IH; [done|done|]. right. exists zs. by rewrite append_cons. }
    rewrite fullmatch_numeric_cons, Hc, (digit_not_dot d Hd), Hrest. done.
Qed.

Lemma digits_value_bounds ds : forall acc,
  PyStr.all_chars PyStr.is_digit ds = true -> 0 <= acc ->
  acc * 10 ^ Z.of_nat (String.length ds) <= digits_value acc ds
  /\ digits_value acc ds < (acc + 1) * 10 ^ Z.of_nat (String.length ds).
Proof.
  induction ds as [|c ds IH]; intros acc Hall Hacc.
  - simpl. lia.
  - cbn [PyStr.all_chars] in Hall. apply andb_prop in Hall as [Hc Hall].
    assert (0 <= PyStr.ord c - 48 <= 9) as Hd by (unfold PyStr.is_digit in Hc; lia).
    cbn [digits_value String.length].
    destruct (IH (acc * 10 + (PyStr.ord c - 48)) Hall ltac:(lia)) as [Hlo Hhi].
    rewrite Nat2Z.inj_succ, Z.pow_succ_r by lia.
    assert (0 < 10 ^ Z.of_nat (String.length ds)) by (apply Z.pow_pos_nonneg; lia).
    nia.
Qed.

(** The infinity is reached only from 2^1024 - 2^970 on. *)
Lemma round_binary64_overflow n :
  0 <= n -> round_binary64 n = None -> 2 ^ 1024 - 2 ^ 970 <= n.
Proof.
  intros Hn. unfold round_binary64.
  destruct (Z.ltb_spec n (2 ^ 53)) as [|Hbig]; [done|]. cbn zeta.
  destruct (Z.le_gt_cases 1024 (Z.log2 n)) as [Hlog|Hlog].
  { intros _. pose proof (Z.log2_spec n ltac:(lia)) as [Hlo _].
    assert (2 ^ 1024 <= 2 ^ Z.log2 n) by (apply Z.pow_le_mono_r; lia). lia. }
  assert (53 <= Z.log2 n) as Hlog53
    by (apply (Z.log2_le_mono (2 ^ 53)) in Hbig; done).
  set (shift := Z.log2 n - 52).
  assert (1 <= shift <= 971) as Hshift by lia.
  rewrite !Z.shiftl_mul_pow2, Z.shiftr_div_pow2 by lia.
  rewrite Z.mul_1_l.
  pose proof (Z.log2_spec n ltac:(lia)) as [_ Hhi].
  set (P := 2 ^ shift) in *. set (h := 2 ^ (shift - 1)).
  assert (P = 2 * h) as HP
    by (subst P h; rewrite <- Z.pow_succ_r by lia; f_equal; lia).
  assert (0 < h) as Hh by (apply Z.pow_pos_nonneg; lia).
  assert (h <= 2 ^ 970) as Hh970 by (apply Z.pow_le_mono_r; lia).
  assert (2 ^ Z.succ (Z.log2 n) <= 2 ^ 1024) as Hcap
    by (apply Z.pow_le_mono_r; lia).
  pose proof (Z.div_mod n P ltac:(lia)) as Hdm.
  pose proof (Z.mod_pos_bound n P ltac:(lia)) as Hmod.
  set (q := n / P) in *. set (r := n - q * P).
  assert (r = n mod P) as Hr by (subst r; lia).
  destruct ((h <? r) || ((r =? h) && Z.odd q)) eqn:Hup.
  - destruct (Z.ltb_spec ((q + 1) * P) (2 ^ 1024)); [done|]. intros _.
    assert (h <= r).
    { apply orb_prop in Hup as [?%Z.ltb_lt|[?%Z.eqb_eq _]%andb_prop]; lia. }
    lia.
  - destruct (Z.ltb_spec (q * P) (2 ^ 1024)); [done|]. nia.
Qed.

Lemma digit_not_space c : PyStr.is_digit c = true -> PyStr.isspace c = false.
Proof. unfold PyStr.is_digit, PyStr.isspace. cbn zeta. lia. Qed.

End CleanNumeric.

(** X10: the pattern of [clean_numeric] accepts exactly a non-empty run of
    digits, optionally followed by a point and a non-empty run of zeros;
    the match keeps the digits before the point.  A sign, an exponent, a
    fraction other than zeros, or a blank inside make the value
    non-numeric. *)
Theorem fullmatch_numeric_iff value ds :
  fullmatch_numeric value = Some ds <->
  ds <> EmptyString /\ PyStr.all_chars PyStr.is_digit ds = true
  /\ (value = ds
      \/ exists zeros, zeros <> EmptyString /\ all_zeros zeros = true
                       /\ value = ds +:+ "." +:+ zeros).
Proof.
  split; [apply fullmatch_numeric_elim|].
  intros (Hne & Hall & Hval). by apply fullmatch_numeric_intro.
Qed.

(** X11: what [clean_numeric] returns.  A number: the trimmed value is
    numeric, the number is not negative, it is the decimal value of the
    digits when that is below 2^53 (so for up to 15 digits), and at least
    2^53 otherwise.  [None]: the trimmed value is empty or not numeric.
    An exception: it is [OverflowError] and the digits denote at least
    2^1024 - 2^970. *)
Theorem clean_numeric_cases value :
  match clean_numeric value with
  | Ok (Some n) =>
      exists ds,
        fullmatch_numeric (PyStr.strip value) = Some ds
        /\ 0 <= n
        /\ (digits_value 0 ds < 2 ^ 53 -> n = digits_value 0 ds)
        /\ ((String.length ds <= 15)%nat -> n = digits_value 0 ds)
        /\ (2 ^ 53 <= digits_value 0 ds -> 2 ^ 53 <= n)
  | Ok None =>
      PyStr.strip value = EmptyString
      \/ fullmatch_numeric (PyStr.strip value) = None
  | Raise e =>
      e = OverflowError
      /\ exists ds,
           fullmatch_numeric (PyStr.strip value) = Some ds
           /\ 2 ^ 1024 - 2 ^ 970 <= digits_value 0 ds
  end.
Proof.
  unfold clean_numeric.
  destruct (decide (PyStr.strip value = EmptyString)) as [|Hne]; [by left|].
  destruct (fullmatch_numeric (PyStr.strip value)) as [ds|] eqn:Hm; [|by right].
  destruct (fullmatch_numeric_elim _ _ Hm) as (_ & Hall & _).
  destruct (digits_value_bounds ds 0 Hall ltac:(lia)) as [Hlo Hhi].
  destruct (round_binary64 (digits_value 0 ds)) as [n|] eqn:Hr.
  - exists ds. split; [done|].
    destruct (Z.lt_ge_cases (digits_value 0 ds) (2 ^ 53)) as [Hsmall|Hbig].
    + rewrite round_binary64_small in Hr by done. injection Hr as <-.
      repeat split; (done || lia).
    + pose proof (round_binary64_large _ _ Hbig Hr).
      split; [lia|]. split; [lia|]. split; [|done].
      intros Hlen.
      assert (10 ^ Z.of_nat (String.length ds) <= 10 ^ 15)
        by (apply Z.pow_le_mono_r; lia).
      change (10 ^ 15) with 1000000000000000 in *.
      change (2 ^ 53) with 9007199254740992 in *. lia.
  - split; [done|]. exists ds. split; [done|].
    apply round_binary64_overflow; [lia|done].
Qed.

(** X12: white space around the value and a fraction of zeros do not
    change what [clean_numeric] returns. *)
Theorem clean_numeric_insensitive :
  (forall l value r,
     PyStr.all_chars PyStr.isspace l = true ->
     PyStr.all_chars PyStr.isspace r = true ->
     clean_numeric (l +:+ value +:+ r) = clean_numeric value)
  /\ (forall value, clean_numeric (PyStr.strip value) = clean_numeric value)
  /\ (forall ds zeros,
        ds <> EmptyString -> PyStr.all_chars PyStr.is_digit ds = true ->
        zeros <> EmptyString -> all_zeros zeros = true ->
        clean_numeric (ds +:+ "." +:+ zeros) = clean_numeric ds).
Proof.
  split; [|split].
  - intros l value r Hl Hr. unfold clean_numeric. by rewrite strip_app_ws.
  - intros value. unfold clean_numeric. by rewrite strip_idem.
  - intros ds zeros Hne Hall Hz Hzeros.
    assert (forall s, s <> EmptyString ->
              (forall c, PyStr.first_char s = Some c -> PyStr.isspace c = false) ->
              (forall c, PyStr.last_char s = Some c -> PyStr.isspace c = false) ->
              PyStr.strip s = s) as Hfix.
    { intros s _ Hf Hl. unfold PyStr.strip. by rewrite lstrip_fixed, rstrip_fixed. }
    assert (forall c, PyStr.first_char ds = Some c -> PyStr.isspace c = false)
      as Hfirst.
    { destruct ds as [|d ds']; [done|]. intros c [= <-].
      cbn [PyStr.all_chars] in Hall. apply andb_prop in Hall as [Hd _].
      by apply digit_not_space. }
    unfold clean_numeric. rewrite !Hfix; try done.
    + rewrite (fullmatch_numeric_intro ds (ds +:+ "." +:+ zeros)),
        (fullmatch_numeric_intro ds ds); try done; [|by left|right; by exists zeros].
      destruct (decide (ds +:+ "." +:+ zeros = EmptyString)) as [E|_].
      { destruct ds; [done|by rewrite append_cons in E]. }
      by rewrite decide_False.
    + intros c Hc. apply digit_not_space. by apply (last_char_all _ ds).
    + destruct ds; [done|by rewrite append_cons].
    + intros c Hc. apply Hfirst. by destruct ds.
    + intros c. rewrite last_char_app by done.
      change ("." +:+ zeros) with (String "." zeros).
      cbn [PyStr.last_char]. destruct zeros as [|z zs] eqn:E; [done|].
      rewrite <- E in *. intros Hc.
      pose proof (last_char_all _ _ _ Hzeros Hc) as Hc0.
      apply Ascii.eqb_eq in Hc0 as ->. reflexivity.
Qed.

Lemma clean_numeric_insensitive_witness :
  clean_numeric " 7.00 " = clean_numeric "7"
  /\ clean_numeric "7" = Ok (Some 7).
Proof.
  destruct clean_numeric_insensitive as (Hws & _ & Hz). split; [|reflexivity].
  change (clean_numeric (" " +:+ "7.00" +:+ " ") = clean_numeric "7").
  rewrite (Hws " " "7.00" " " eq_refl eq_refl).
  apply (Hz "7" "00"); done.
Defined.

(** ** What aggregation keeps *)

Section AggregationMore.

Implicit Types (scores : list (string * (list Q * list Q))) (st : agg_state).

Lemma score_count_set name (v : list Q * list Q) scores :
  (score_count (Dict.set name v scores)
   + match Dict.get name scores with
     | Some old => length old.1 + length old.2
     | None => 0
     end
   = score_count scores + (length v.1 + length v.2))%nat.
Proof.
  unfold score_count. induction scores as [|[k old] scores IH]; [simpl; lia|].
  cbn [Dict.set Dict.get]. destruct (decide (k = name)) as [->|Hne].
  - simpl. lia.
  - simpl in *. lia.
Qed.

Lemma score_count_append kind name x scores :
  score_count (append_score kind name x scores) = S (score_count scores).
Proof.
  unfold append_score.
  pose proof (score_count_set name) as Hset.
  destruct (Dict.get name scores) as [[core elec]|] eqn:Hget;
    cbn -[score_count Dict.set].
  - destruct kind;
      [specialize (Hset (core ++ [x], elec) scores)
      |specialize (Hset (core, elec ++ [x]) scores)];
      rewrite Hget in Hset; cbn [fst snd] in Hset;
      rewrite length_app in Hset; simpl in Hset; lia.
  - destruct kind;
      [specialize (Hset ([x], []) scores)
      |specialize (Hset ([], [x]) scores)];
      rewrite Hget in Hset; cbn [fst snd length] in Hset; lia.
Qed.

Lemma aggregate_step_inv (P : agg_state -> Prop) questions :
  (forall kind rid name v x st,
     1 <= v <= match kind with Core => 8 | Elective => 5 end ->
     x = match kind with Core => norm_core v | Elective => norm_elective v end ->
     P st -> P (record_score kind rid name v x st)) ->
  forall rows st st',
    P st -> for_each (process_record questions) st rows = Ok st' -> P st'.
Proof.
  intros Hstep rows.
  assert (forall kind row rid st field st',
            P st -> score_field kind questions row rid st field = Ok st' -> P st')
    as Hfield.
  { intros kind row rid st field st' HP. rewrite score_field_spec.
    destruct (clean_numeric _) as [[v|]|e]; [|by intros [= <-]|done].
    case_bool_decide as Hv; intros [= <-]; [|done]. by apply Hstep. }
  apply for_each_inv. intros st row st' HP. unfold process_record.
  destruct (is_finished row); cbn [negb]; [|by intros [= <-]].
  destruct (for_each _ st (core_fields questions)) as [st1|e] eqn:Hcore; [|done].
  change (for_each (score_field Elective questions row
                      (default EmptyString (row !! "ResponseId")))
            st1 elective_fields = Ok st' -> P st').
  apply for_each_inv; [intros ????; by apply Hfield|].
  revert Hcore. apply for_each_inv; [intros ????; by apply Hfield|done].
Qed.

Lemma ranking_rows_length float_round scores :
  Forall (fun entry => entry.2.1 ++ entry.2.2 <> []) scores ->
  length (ranking_rows_of float_round scores) = length scores.
Proof.
  induction 1 as [|[name [core elec]] scores Hne _ IH]; [done|].
  rewrite ranking_rows_cons, length_app, IH. cbn [fst snd] in Hne.
  by destruct (core ++ elec).
Qed.

Lemma norm_core_bounds v :
  1 <= v <= 8 -> (25 # 2 <= norm_core v <= 100)%Q.
Proof.
  intros H.
  assert (v = 1 \/ v = 2 \/ v = 3 \/ v = 4 \/ v = 5 \/ v = 6 \/ v = 7 \/ v = 8)
    as Hcases by lia.
  repeat destruct Hcases as [->|Hcases]; try subst v;
    split; vm_compute; discriminate.
Qed.

Lemma norm_elective_bounds v :
  1 <= v <= 5 -> (0 <= norm_elective v <= 100)%Q.
Proof.
  intros H.
  assert (v = 1 \/ v = 2 \/ v = 3 \/ v = 4 \/ v = 5) as Hcases by lia.
  repeat destruct Hcases as [->|Hcases]; try subst v;
    split; vm_compute; discriminate.
Qed.

End AggregationMore.

(** X13: after aggregation [course_scores] and [long_rows] tell the same
    story: a course is a key exactly when it has a long row, its two lists
    are the scores of its long rows by source and in order, no score is
    lost or counted twice, and, every course having a score, the ranking
    has one row per course. *)
Theorem aggregate_scores_match_long_rows
    (float_round : Q -> Q) questions records st :
  aggregate questions records = Ok st ->
  NoDup (Dict.keys (course_scores st))
  /\ (forall name core elec,
        (name, (core, elec)) ∈ course_scores st <->
        pooled_scores name (long_rows st) <> []
        /\ core = contributions Core name (long_rows st)
        /\ elec = contributions Elective name (long_rows st))
  /\ score_count (course_scores st) = length (long_rows st)
  /\ length (ranking float_round (course_scores st))
     = length (course_scores st).
Proof.
  intros Hagg. destruct (aggregate_inv _ _ _ Hagg) as [Hnd Hget].
  assert (forall name core elec,
            (name, (core, elec)) ∈ course_scores st <->
            pooled_scores name (long_rows st) <> []
            /\ core = contributions Core name (long_rows st)
            /\ elec = contributions Elective name (long_rows st)) as Hentries.
  { intros name core elec. rewrite dict_get_elem, Hget by done.
    destruct (pooled_scores name (long_rows st)); [by split; [|intros [? _]]|].
    split; [by intros [= -> ->]|by intros (_ & -> & ->)]. }
  split; [done|]. split; [done|]. split.
  - revert Hagg. unfold aggregate.
    apply (aggregate_step_inv
             (fun st => score_count (course_scores st) = length (long_rows st)));
      [|done].
    intros kind rid name v x st0 _ _ Hst0. unfold record_score.
    cbn [course_scores long_rows].
    rewrite score_count_append, length_app, Hst0. simpl. lia.
  - unfold ranking. rewrite length_imap, py_sort_perm.
    apply ranking_rows_length, Forall_forall. intros [name [core elec]] Hin.
    apply Hentries in Hin as (Hne & -> & ->). done.
Qed.

Lemma aggregate_scores_match_long_rows_witness :
  exists st,
    aggregate Sample.survey_questions Sample.survey_records = Ok st
    /\ score_count (course_scores st) = 4%nat
    /\ length (long_rows st) = 4%nat.
Proof.
  eexists. split; [vm_compute; reflexivity|].
  destruct (aggregate_scores_match_long_rows (fun q => q)
              Sample.survey_questions Sample.survey_records _
              ltac:(vm_compute; reflexivity)) as (_ & _ & Hcount & _).
  split; [reflexivity|]. rewrite <- Hcount. reflexivity.
Defined.

(** X14: every long row written by the aggregation has a value within the
    range of its source (1..8 for a core rank, 1..5 for an elective rating)
    and the score of that source's formula, which lies between 12.5 and
    100 for a core rank and between 0 and 100 for an elective rating. *)
Theorem long_rows_valid questions records st :
  aggregate questions records = Ok st -> Forall long_row_valid (long_rows st).
Proof.
  unfold aggregate.
  apply (aggregate_step_inv (fun st => Forall long_row_valid (long_rows st)));
    [|constructor].
  intros kind rid name v x st0 Hv -> Hst0. unfold record_score.
  cbn [long_rows]. apply Forall_app. split; [done|].
  apply Forall_singleton. unfold long_row_valid.
  cbn [source_type response_value normalized_score].
  destruct kind; (split; [done|]; split; [done|]);
    [by apply norm_core_bounds|by apply norm_elective_bounds].
Qed.

Lemma long_rows_valid_witness :
  exists st,
    aggregate Sample.survey_questions Sample.survey_records = Ok st
    /\ Forall long_row_valid (long_rows st).
Proof.
  eexists. split; [vm_compute; reflexivity|].
  exact (long_rows_valid Sample.survey_questions Sample.survey_records _
           ltac:(vm_compute; reflexivity)).
Defined.

(** X15: records that are not finished contribute nothing, not even an
    exception: aggregating all records gives what aggregating the finished
    ones gives. *)
Theorem aggregate_skips_unfinished questions records :
  aggregate questions records
  = aggregate questions (List.filter is_finished records).
Proof.
  unfold aggregate. generalize (AggState [] []).
  induction records as [|row records IH]; intros st; [done|].
  cbn [List.filter for_each]. destruct (is_finished row) eqn:Hfin.
  - cbn [for_each]. destruct (process_record questions st row); [apply IH|done].
  - rewrite process_record_unfinished by done. apply IH.
Qed.

(** ** More on the ranking *)

Section RankingMore.

Variable float_round : Q -> Q.

Lemma key_le_antisym_rows (l : list ranking_row) a b :
  NoDup (course <$> l) -> a ∈ l -> b ∈ l ->
  key_le a b -> key_le b a -> a = b.
Proof.
  intros Hnd Ha Hb Hab Hba.
  destruct (decide (course a = course b)) as [Heq|Hne].
  - apply list_elem_of_lookup in Ha as [i Hi].
    apply list_elem_of_lookup in Hb as [j Hj].
    assert (i = j) as ->; [|congruence].
    eapply NoDup_lookup; [exact Hnd|by rewrite list_lookup_fmap, Hi|].
    by rewrite list_lookup_fmap, Hj, Heq.
  - unfold key_le in *.
    destruct (ranks_before_total a b Hne) as [H%key_lt_iff|H%key_lt_iff];
      congruence.
Qed.

Lemma py_sort_order_independent (l1 l2 : list ranking_row) :
  NoDup (course <$> l1) -> l1 ≡ₚ l2 -> py_sort l1 = py_sort l2.
Proof.
  intros Hnd Hperm.
  apply (StronglySorted_unique_strong key_le);
    [|apply py_sort_sorted..|by rewrite !py_sort_perm].
  intros a b Ha Hb. rewrite py_sort_perm in Ha. rewrite py_sort_perm, <- Hperm in Hb.
  by apply (key_le_antisym_rows l1).
Qed.

End RankingMore.

(** X16: the ranking does not depend on the order in which the courses
    were first met: two score tables with the same entries, whose course
    names are distinct, give the same ranking. *)
Theorem ranking_order_independent (float_round : Q -> Q)
    (scores scores' : list (string * (list Q * list Q))) :
  NoDup (Dict.keys scores) -> scores ≡ₚ scores' ->
  ranking float_round scores = ranking float_round scores'.
Proof.
  intros Hnd Hperm. unfold ranking. f_equal.
  apply py_sort_order_independent; [by apply ranking_rows_NoDup|].
  unfold ranking_rows_of. by rewrite Hperm.
Qed.

Lemma ranking_order_independent_witness :
  ranking (fun q => q)
    [("Audit", ([75 # 1], []))%Q; ("Tax Law", ([75 # 1], [100 # 1]))%Q]
  = ranking (fun q => q)
      [("Tax Law", ([75 # 1], [100 # 1]))%Q; ("Audit", ([75 # 1], []))%Q].
Proof.
  apply ranking_order_independent.
  - unfold Dict.keys. cbn. apply NoDup_cons. split; [|apply NoDup_singleton].
    intros H%list_elem_of_singleton. discriminate.
  - apply Permutation_swap.
Defined.

(** X17: in every row of a ranking the response count is the core count
    plus the elective count and is at least 1; the core sub-score is
    missing exactly when there is no core score, likewise the elective
    one; and the rank is between 1 and the number of rows. *)
Theorem ranking_row_counts (float_round : Q -> Q)
    (scores : list (string * (list Q * list Q))) :
  Forall
    (fun a =>
       num_responses a.2 = core_n a.2 + elective_n a.2
       /\ 1 <= num_responses a.2
       /\ 0 <= core_n a.2 /\ 0 <= elective_n a.2
       /\ (core_pref_score a.2 = None <-> core_n a.2 = 0)
       /\ (elective_rating_score a.2 = None <-> elective_n a.2 = 0)
       /\ 1 <= a.1 <= Z.of_nat (length (ranking float_round scores)))
    (ranking float_round scores).
Proof.
  apply Forall_forall. intros [rank row] Hin.
  assert (1 <= rank <= Z.of_nat (length (ranking float_round scores))) as Hrank.
  { apply list_elem_of_lookup in Hin as [i Hi].
    pose proof (lookup_lt_Some _ _ _ Hi).
    apply ranking_lookup in Hi as [_ Hr]. simpl in Hr. lia. }
  apply elem_ranking, elem_ranking_rows in Hin
    as (core & elec & _ & Hne & _ & Hn & Hcp & Hcn & Hep & Hen).
  cbn [fst snd]. rewrite Hn, Hcp, Hcn, Hep, Hen, length_app.
  assert (length (core ++ elec) <> 0%nat) as Hlen
    by (by destruct (core ++ elec)).
  rewrite length_app in Hlen.
  repeat split; try lia.
  - destruct core; [done|discriminate].
  - destruct core; [done|simpl; lia].
  - destruct elec; [done|discriminate].
  - destruct elec; [done|simpl; lia].
Qed.

(** ** More on course names *)

Section CourseNameMore.

Lemma contains_strip p s :
  PyStr.contains p (PyStr.strip s) = true -> PyStr.contains p s = true.
Proof.
  intros H. destruct (strip_spec s) as ((l & r & Hs & _) & _).
  rewrite Hs. by apply contains_app_l, contains_app_r.
Qed.

End CourseNameMore.

(** X18: the course name is always trimmed and never contains the
    separator " - "; it is empty only for a text that contains the
    separator and whose last segment is blank: the sentinel is used only
    when the text has no separator. *)
Theorem parse_course_name_shape question_text :
  PyStr.strip (parse_course_name question_text)
  = parse_course_name question_text
  /\ PyStr.contains " - " (parse_course_name question_text) = false
  /\ (parse_course_name question_text = EmptyString <->
      PyStr.contains " - " question_text = true
      /\ PyStr.strip (List.last (split " - " question_text) EmptyString)
         = EmptyString)
  /\ (PyStr.contains " - " question_text = false ->
      parse_course_name question_text <> EmptyString).
Proof.
  unfold parse_course_name.
  destruct (PyStr.contains " - " question_text) eqn:Hc.
  - destruct (split_loop_last " - " ltac:(done) _ question_text EmptyString
                (Nat.le_refl _) Hc) as (pre & seg & _ & Hseg & Hlast).
    unfold split. rewrite Hlast.
    split; [apply strip_idem|]. split; [|split; [|done]].
    + destruct (PyStr.contains " - " (PyStr.strip seg)) eqn:E; [|done].
      apply contains_strip in E. congruence.
    + split; [by intros ->|by intros [_ ?]].
  - destruct (decide (PyStr.strip question_text = EmptyString)) as [He|Hne].
    + split; [reflexivity|]. split; [reflexivity|].
      split; [|done]. split; [done|by intros [? _]].
    + split; [apply strip_idem|]. split; [|split; [|done]].
      * destruct (PyStr.contains " - " (PyStr.strip question_text)) eqn:E; [|done].
        apply contains_strip in E. congruence.
      * split; [done|by intros [? _]].
Qed.

(** ** When the aggregation returns *)

Section AggregationReturns.

Implicit Types (st : agg_state) (row : gmap string string).

Lemma clean_numeric_raise value e :
  clean_numeric value = Raise e -> e = OverflowError.
Proof.
  unfold clean_numeric. destruct (decide _); [done|].
  destruct (fullmatch_numeric _); [|done].
  destruct (round_binary64 _); [done|]. by intros [= <-].
Qed.

Lemma score_field_result kind questions row rid st field :
  match clean_numeric (default EmptyString (row !! field)) with
  | Ok _ =>
      exists st', score_field kind questions row rid st field = Ok st'
                  /\ (length (long_rows st') <= S (length (long_rows st)))%nat
  | Raise e => score_field kind questions row rid st field = Raise e
  end.
Proof.
  rewrite score_field_spec.
  destruct (clean_numeric _) as [[v|]|e]; [|by exists st; split; [|lia]|done].
  case_bool_decide; [|by exists st; split; [|lia]].
  eexists. split; [done|]. unfold record_score. cbn [long_rows].
  rewrite length_app. simpl. lia.
Qed.

Lemma for_each_grows {S A} (size : S -> nat) (body : S -> A -> result S)
    (xs : list A) :
  (forall (s : S) x (s' : S), body s x = Ok s' -> (size s' <= 1 + size s)%nat) ->
  forall (s s' : S), for_each body s xs = Ok s' ->
                     (size s' <= size s + length xs)%nat.
Proof.
  intros Hbody. induction xs as [|x xs IH]; intros s s' H; simpl in H.
  - injection H as <-. simpl. lia.
  - destruct (body s x) as [s1|] eqn:Hx; [|done]. simpl in H.
    specialize (IH _ _ H). specialize (Hbody _ _ _ Hx). simpl. lia.
Qed.

Lemma score_fields_grow kind questions row rid fields st st' :
  for_each (score_field kind questions row rid) st fields = Ok st' ->
  (length (long_rows st') <= length (long_rows st) + length fields)%nat.
Proof.
  apply (for_each_grows (fun st => length (long_rows st))).
  intros st0 field st1 H.
  pose proof (score_field_result kind questions row rid st0 field) as Hr.
  destruct (clean_numeric _); [|congruence].
  destruct Hr as (st2 & Hst2 & Hlen).
  assert (st2 = st1) as -> by congruence. simpl. lia.
Qed.

Lemma process_record_finished questions st row :
  is_finished row = true ->
  process_record questions st row
  = st1 ← for_each (score_field Core questions row
                      (default EmptyString (row !! "ResponseId")))
             st (core_fields questions);
    for_each (score_field Elective questions row
                (default EmptyString (row !! "ResponseId")))
      st1 elective_fields.
Proof. intros H. unfold process_record. by rewrite H. Qed.

Lemma process_record_raises questions row field e :
  is_finished row = true ->
  field ∈ core_fields questions ++ elective_fields ->
  clean_numeric (default EmptyString (row !! field)) = Raise e ->
  forall st, exists e', process_record questions st row = Raise e'.
Proof.
  intros Hfin Hfield Hraise st. rewrite process_record_finished by done.
  assert (forall kind st0, exists e0,
            score_field kind questions row
              (default EmptyString (row !! "ResponseId")) st0 field = Raise e0)
    as Hbody.
  { intros kind st0. exists e.
    pose proof (score_field_result kind questions row
                  (default EmptyString (row !! "ResponseId")) st0 field) as Hr.
    by rewrite Hraise in Hr. }
  apply elem_of_app in Hfield as [Hcore|Helec].
  - destruct (for_each_raises _ field _ Hcore (Hbody Core) st) as [e' ->].
    by exists e'.
  - destruct (for_each _ st (core_fields questions)) as [st1|e']; [|by exists e'].
    apply (for_each_raises _ field _ Helec (Hbody Elective)).
Qed.

Lemma process_record_raise_inv questions st row e :
  process_record questions st row = Raise e ->
  is_finished row = true
  /\ exists field,
       field ∈ core_fields questions ++ elective_fields
       /\ clean_numeric (default EmptyString (row !! field)) = Raise e.
Proof.
  destruct (is_finished row) eqn:Hfin;
    [|by rewrite process_record_unfinished].
  rewrite process_record_finished by done. intros H. split; [done|].
  assert (forall kind st0 field,
            score_field kind questions row
              (default EmptyString (row !! "ResponseId")) st0 field = Raise e ->
            clean_numeric (default EmptyString (row !! field)) = Raise e)
    as Hbody.
  { intros kind st0 field Hf.
    pose proof (score_field_result kind questions row
                  (default EmptyString (row !! "ResponseId")) st0 field) as Hr.
    destruct (clean_numeric _); [|congruence].
    destruct Hr as (? & ? & _). congruence. }
  destruct (for_each _ st (core_fields questions)) as [st1|e'] eqn:Hcore.
  - apply for_each_raise_inv in H as (st0 & field & Hin & Hf).
    exists field. split; [apply elem_of_app; by right|by eapply Hbody].
  - injection H as ->.
    apply for_each_raise_inv in Hcore as (st0 & field & Hin & Hf).
    exists field. split; [apply elem_of_app; by left|by eapply Hbody].
Qed.

End AggregationReturns.

(** X19: the aggregation returns exactly when [clean_numeric] returns on
    every core and elective field of every finished record; otherwise it
    raises [OverflowError], whatever the other records hold. *)
Theorem aggregate_returns_iff questions records :
  ((exists st, aggregate questions records = Ok st) <->
   forall row field,
     row ∈ records -> is_finished row = true ->
     field ∈ core_fields questions ++ elective_fields ->
     exists v, clean_numeric (default EmptyString (row !! field)) = Ok v)
  /\ (forall e, aggregate questions records = Raise e -> e = OverflowError).
Proof.
  split; [split|].
  - intros [st Hst] row field Hrow Hfin Hfield.
    destruct (clean_numeric _) as [v|e] eqn:Hc; [by exists v|].
    destruct (for_each_raises (process_record questions) row records Hrow
                (process_record_raises questions row field e Hfin Hfield Hc)
                (AggState [] [])) as [e' He'].
    unfold aggregate in Hst. congruence.
  - intros Hall.
    destruct (aggregate questions records) as [st|e] eqn:H; [by exists st|].
    exfalso. apply for_each_raise_inv in H as (st & row & Hrow & Hraise).
    apply process_record_raise_inv in Hraise as (Hfin & field & Hfield & Hc).
    destruct (Hall row field Hrow Hfin Hfield) as [v Hv]. congruence.
  - intros e H. apply for_each_raise_inv in H as (st & row & _ & Hraise).
    apply process_record_raise_inv in Hraise as (_ & field & _ & Hc).
    by apply clean_numeric_raise in Hc.
Qed.

(** X20: each finished record adds at most one long row per core field and
    per elective field, and an unfinished record adds none: the long rows
    number at most (core fields + 8) times the finished records. *)
Theorem long_rows_bound questions records st :
  aggregate questions records = Ok st ->
  (length (long_rows st)
   <= (length (core_fields questions) + 8)
      * length (List.filter is_finished records))%nat.
Proof.
  unfold aggregate.
  change (length (long_rows st)
          <= (length (core_fields questions) + 8)
             * length (List.filter is_finished records))%nat
    with (length (long_rows st)
          <= length (long_rows (AggState [] []))
             + (length (core_fields questions) + 8)
               * length (List.filter is_finished records))%nat.
  generalize (AggState [] []).
  induction records as [|row records IH]; intros st0 H; simpl in H.
  - injection H as <-. simpl. lia.
  - destruct (process_record questions st0 row) as [st1|] eqn:Hrow; [|done].
    simpl in H. specialize (IH _ H). cbn [List.filter].
    destruct (is_finished row) eqn:Hfin.
    + rewrite process_record_finished in Hrow by done.
      destruct (for_each _ st0 (core_fields questions)) as [st2|] eqn:Hcore;
        [|done].
      apply score_fields_grow in Hcore.
      change (for_each (score_field Elective questions row
                          (default EmptyString (row !! "ResponseId")))
                st2 elective_fields = Ok st1) in Hrow.
      apply score_fields_grow in Hrow.
      change (length elective_fields) with 8%nat in Hrow.
      cbn [length]. lia.
    + rewrite process_record_unfinished in Hrow by done. injection Hrow as <-.
      lia.
Qed.

Lemma long_rows_bound_witness :
  exists st,
    aggregate Sample.survey_questions Sample.survey_records = Ok st
    /\ (length (long_rows st) <= 20)%nat.
Proof.
  eexists. split; [vm_compute; reflexivity|].
  exact (long_rows_bound Sample.survey_questions Sample.survey_records _
           ltac:(vm_compute; reflexivity)).
Defined.
